(** * Model configuration and credential resolution (settings/)

    A shallow embedding of [settings/api_database.py],
    [settings/api_manager.py] and [settings/model_configs.py]: the SQLite
    profile store, the credential resolver, the legacy JSON migration and
    the configuration facade, followed by the properties these modules are
    expected to satisfy.  The credential lookup of
    [settings/admin_auth.py] is embedded beside them.

    Conventions of the embedding.
    - Python functions that touch the process (database file, environment,
      Streamlit session and secrets, legacy file) are computations in the
      monad [M]: a function of the [World] returning an [outcome] (a value
      or a raised exception) and the new world.
    - A [dict] with a fixed set of keys is a record of optional fields; an
      absent key is [None].  Values have the types the annotations of the
      source give them.
    - [temperature] is carried, never computed with: it is a rational.
    - Strings are byte strings; [lower()] is the ASCII one, which is what
      the built-in configurations need, and so is [upper()].
    - [st.secrets] reads the secrets file at its first use in the process
      and then copies every entry into [os.environ]; entries are strings
      and the file does not change while the process runs.
    - Faults of the database file are injected by a schedule held in the
      world ([faults]); file-system calls on the legacy file do not fail.
    - [print] and [st.error] only write to the console and the page and are
      left out. *)

From Stdlib Require Import ZArith QArith_base String Ascii List Lia.
From Stdlib Require Import Sorted.
From stdpp Require Import base option list gmap strings.

Local Open Scope string_scope.
Local Open Scope list_scope.

(** ** Python values *)

(** Exceptions raised by the modelled code. *)
Inductive exn : Type :=
  | ImportError (attr : string)      (* from m import attr: no such name *)
  | KeyError (key : string)          (* d[key] on a dict without key *)
  | TypeError                        (* call of an object of the wrong kind *)
  | IntegrityError                   (* sqlite3: UNIQUE / NOT NULL violated *)
  | OperationalError                 (* sqlite3: disk, lock, missing table *)
  | ProgrammingError                 (* sqlite3: use of a closed connection *)
  | JSONDecodeError                  (* json.load on a malformed document *)
  | FileNotFoundError                (* open / os.rename on a missing file *)
  | SecretsUnavailable.              (* st.secrets without a secrets file *)

Inductive outcome (A : Type) : Type :=
  | Ok (a : A)
  | Raise (e : exn).
Arguments Ok {A} a.
Arguments Raise {A} e.

(** [response_format] and [model_info] of the built-in configurations. *)
Record json_schema := { js_name : string; js_strict : bool }.
Record response_format := { rf_type : string; rf_json_schema : json_schema }.
Record model_info := {
  family : string;
  function_calling : bool;
  json_output : bool;
  vision : bool;
  structured_output : bool
}.

(** The inner ["config"] dictionary. *)
Record config_dict := {
  c_model : option string;
  c_base_url : option string;
  c_api_key : option string;
  c_temperature : option Q;
  c_response_format : option response_format;
  c_model_info : option model_info
}.

(** A model dictionary: legacy JSON record, exported database row,
    built-in configuration or resolved configuration. *)
Record model_dict := {
  d_id : option Z;
  d_name : option string;
  d_provider : option string;
  d_api_provider : option string;
  d_config : option config_dict
}.

Definition empty_config : config_dict :=
  {| c_model := None; c_base_url := None; c_api_key := None;
     c_temperature := None; c_response_format := None; c_model_info := None |}.

(** [d.get(key, dflt)] *)
Definition dict_get {A} (field : option A) (dflt : A) : A :=
  match field with Some v => v | None => dflt end.

(** Truth value of a string: [not s] holds for the empty string. *)
Definition py_not (s : string) : bool :=
  match s with EmptyString => true | String _ _ => false end.

(** Truth value of [d.get(key)]: [None] and [""] are false. *)
Definition py_not_opt (s : option string) : bool :=
  match s with None => true | Some v => py_not v end.

(** ** Strings: [lower()] and [in] *)

Definition lower_ascii (c : ascii) : ascii :=
  let n := N_of_ascii c in
  if ((65 <=? n) && (n <=? 90))%N then ascii_of_N (n + 32) else c.

Fixpoint lower (s : string) : string :=
  match s with
  | EmptyString => EmptyString
  | String c rest => String (lower_ascii c) (lower rest)
  end.

Definition upper_ascii (c : ascii) : ascii :=
  let n := N_of_ascii c in
  if ((97 <=? n) && (n <=? 122))%N then ascii_of_N (n - 32) else c.

(** [s.upper()] of an ASCII string *)
Fixpoint upper (s : string) : string :=
  match s with
  | EmptyString => EmptyString
  | String c rest => String (upper_ascii c) (upper rest)
  end.

(** [s.isascii()] *)
Definition isascii (s : string) : bool :=
  forallb (fun c => (N_of_ascii c <? 128)%N) (list_ascii_of_string s).

(** [needle in hay] *)
Fixpoint contains (needle hay : string) : bool :=
  String.prefix needle hay ||
  match hay with
  | EmptyString => false
  | String _ rest => contains needle rest
  end.

(** ** The database file *)

(** A row of [custom_models].  The columns [name], [provider] and
    [model_id] are NOT NULL; the others receive a value on every insert the
    code performs. *)
Record row := {
  r_id : Z;
  r_name : string;
  r_provider : string;
  r_model_id : string;
  r_base_url : string;
  r_temperature : Q;
  r_api_provider : string;
  r_created_at : Z;
  r_updated_at : Z
}.

(** [custom_models] with its AUTOINCREMENT counter (sqlite_sequence). *)
Record table := { t_rows : list row; t_seq : Z }.

(** A row of [provider_settings], without its [id] and its two time
    stamps: no function of the module reads or returns them. *)
Record provider_row := {
  p_provider_name : string;
  p_is_enabled : Z;
  p_base_url : option string
}.

(** A table is [None] until CREATE TABLE has run. *)
Record database := {
  custom_models : option table;
  provider_settings : option (list provider_row)
}.

Definition rows_of (d : database) : list row :=
  match custom_models d with Some t => t_rows t | None => [] end.

Definition names_of (d : database) : list string := map r_name (rows_of d).

(** ** The legacy file *)

Inductive json_doc : Type :=
  | Malformed
  | Records (l : list model_dict).

(** ** The process *)

Record session := {
  ss_api_keys : option (gmap string string);
  ss_custom_models : option (list model_dict)
}.

Record World := {
  environ : gmap string string;          (* os.environ *)
  secrets : option (gmap string string); (* secrets.toml; None: no such file *)
  session_state : session;               (* st.session_state *)
  db : database;                         (* committed content of api_config.db *)
  conn : option database;                (* open connection: uncommitted view *)
  faults : list bool;                    (* pending I/O faults, one per database call *)
  struck : nat;                          (* ghost: faults injected so far *)
  now : Z;                               (* CURRENT_TIMESTAMP *)
  legacy_file : option json_doc;         (* settings/config/custom_models.json *)
  backup_file : option json_doc;         (* ... .json.migrated *)
  secrets_parsed : bool;                 (* st.secrets has read the secrets file *)
  model_configs_key : option string      (* settings.model_configs, once imported:
                                            its OPENROUTER_API_KEY *)
}.

Definition set_session (s : session) (w : World) : World :=
  {| environ := environ w; secrets := secrets w; session_state := s;
     db := db w; conn := conn w; faults := faults w; struck := struck w;
     now := now w;
     legacy_file := legacy_file w; backup_file := backup_file w;
     secrets_parsed := secrets_parsed w;
     model_configs_key := model_configs_key w |}.

Definition set_db (d : database) (w : World) : World :=
  {| environ := environ w; secrets := secrets w;
     session_state := session_state w;
     db := d; conn := conn w; faults := faults w; struck := struck w;
     now := now w;
     legacy_file := legacy_file w; backup_file := backup_file w;
     secrets_parsed := secrets_parsed w;
     model_configs_key := model_configs_key w |}.

Definition set_conn (c : option database) (w : World) : World :=
  {| environ := environ w; secrets := secrets w;
     session_state := session_state w;
     db := db w; conn := c; faults := faults w; struck := struck w;
     now := now w;
     legacy_file := legacy_file w; backup_file := backup_file w;
     secrets_parsed := secrets_parsed w;
     model_configs_key := model_configs_key w |}.

Definition set_faults (f : list bool) (n : nat) (w : World) : World :=
  {| environ := environ w; secrets := secrets w;
     session_state := session_state w;
     db := db w; conn := conn w; faults := f; struck := n; now := now w;
     legacy_file := legacy_file w; backup_file := backup_file w;
     secrets_parsed := secrets_parsed w;
     model_configs_key := model_configs_key w |}.

Definition set_files (l b : option json_doc) (w : World) : World :=
  {| environ := environ w; secrets := secrets w;
     session_state := session_state w;
     db := db w; conn := conn w; faults := faults w; struck := struck w;
     now := now w;
     legacy_file := l; backup_file := b;
     secrets_parsed := secrets_parsed w;
     model_configs_key := model_configs_key w |}.

Definition set_environ (e : gmap string string) (parsed : bool) (w : World)
    : World :=
  {| environ := e; secrets := secrets w;
     session_state := session_state w;
     db := db w; conn := conn w; faults := faults w; struck := struck w;
     now := now w;
     legacy_file := legacy_file w; backup_file := backup_file w;
     secrets_parsed := parsed;
     model_configs_key := model_configs_key w |}.

Definition set_model_configs_key (k : option string) (w : World) : World :=
  {| environ := environ w; secrets := secrets w;
     session_state := session_state w;
     db := db w; conn := conn w; faults := faults w; struck := struck w;
     now := now w;
     legacy_file := legacy_file w; backup_file := backup_file w;
     secrets_parsed := secrets_parsed w;
     model_configs_key := k |}.

(** ** The monad of Python computations *)

Definition M (A : Type) : Type := World -> outcome A * World.

Definition ret {A} (a : A) : M A := fun w => (Ok a, w).

Definition raise {A} (e : exn) : M A := fun w => (Raise e, w).

Definition bind {A B} (m : M A) (k : A -> M B) : M B :=
  fun w => match m w with
           | (Ok a, w') => k a w'
           | (Raise e, w') => (Raise e, w')
           end.

(** [try: m  except Exception as e: h e] *)
Definition try_except {A} (m : M A) (h : exn -> M A) : M A :=
  fun w => match m w with
           | (Ok a, w') => (Ok a, w')
           | (Raise e, w') => h e w'
           end.

(** [try: m  finally: f] *)
Definition try_finally {A} (m : M A) (f : M unit) : M A :=
  fun w => match m w with
           | (r, w') => match f w' with
                        | (Ok _, w'') => (r, w'')
                        | (Raise e, w'') => (Raise e, w'')
                        end
           end.

Definition gets {A} (f : World -> A) : M A := fun w => (Ok (f w), w).

Definition modify (f : World -> World) : M unit := fun w => (Ok tt, f w).

Declare Scope py_scope.
Delimit Scope py_scope with py.
Notation "'let*' x ':=' m 'in' k" := (bind m (fun x => k))
  (at level 10, x binder, m at level 100, k at level 200) : py_scope.
Notation "'run' m 'in' k" := (bind m (fun _ => k))
  (at level 10, m at level 100, k at level 200) : py_scope.
Local Open Scope py_scope.

(** [d[key]] *)
Definition subscript {A} (key : string) (field : option A) : M A :=
  match field with Some v => ret v | None => raise (KeyError key) end.

(** ** sqlite3: connection, transaction, cursor *)

(** Every call into the database file is a point where the environment
    may inject a fault.  [faults] is the schedule: each call consumes one
    entry, and [true] makes the call raise [OperationalError].  An empty
    schedule is a fault-free run.  [struck] counts the faults injected; the
    code cannot read it. *)
Definition io_fault : M unit := fun w =>
  match faults w with
  | [] => (Ok tt, w)
  | b :: rest =>
      if b : bool
      then (Raise OperationalError, set_faults rest (S (struck w)) w)
      else (Ok tt, set_faults rest (struck w) w)
  end.

(** [sqlite3.connect(get_db_path())]: the connection starts from the
    committed content of the file. *)
Definition sqlite3_connect : M unit :=
  run io_fault in modify (fun w => set_conn (Some (db w)) w).

(** [conn.commit()] *)
Definition conn_commit : M unit :=
  run io_fault in
  fun w => match conn w with
           | Some c => (Ok tt, set_db c w)
           | None => (Raise ProgrammingError, w)
           end.

(** [conn.rollback()]: the uncommitted view is discarded. *)
Definition conn_rollback : M unit :=
  modify (fun w => match conn w with
                   | Some _ => set_conn (Some (db w)) w
                   | None => w
                   end).

(** [conn.close()] *)
Definition conn_close : M unit := modify (set_conn None).

(** A statement maps CURRENT_TIMESTAMP and the connection's view of the
    database to a result and the new view, or fails. *)
Definition statement (R : Type) : Type := Z -> database -> outcome (R * database).

(** [cursor.execute(stmt)] *)
Definition cursor_execute {R} (stmt : statement R) : M R :=
  run io_fault in
  fun w => match conn w with
           | None => (Raise ProgrammingError, w)
           | Some c =>
               match stmt (now w) c with
               | Ok (r, c') => (Ok r, set_conn (Some c') w)
               | Raise e => (Raise e, w)
               end
           end.

(** *** The statements of api_database.py *)

(** CREATE TABLE IF NOT EXISTS custom_models (...) *)
Definition create_custom_models : statement unit := fun _ d =>
  Ok (tt, match custom_models d with
          | Some _ => d
          | None => {| custom_models := Some {| t_rows := []; t_seq := 0 |};
                       provider_settings := provider_settings d |}
          end).

(** CREATE TABLE IF NOT EXISTS provider_settings (...) *)
Definition create_provider_settings : statement unit := fun _ d =>
  Ok (tt, match provider_settings d with
          | Some _ => d
          | None => {| custom_models := custom_models d;
                       provider_settings := Some [] |}
          end).

Definition with_custom_models {R} (d : database)
    (k : table -> outcome (R * database)) : outcome (R * database) :=
  match custom_models d with
  | Some t => k t
  | None => Raise OperationalError      (* no such table *)
  end.

Definition put_custom_models (t : table) (d : database) : database :=
  {| custom_models := Some t; provider_settings := provider_settings d |}.

Definition name_is (name : string) (r : row) : bool := String.eqb (r_name r) name.

(** ORDER BY name: byte-wise comparison (BINARY collation). *)
Fixpoint insert_by_name (r : row) (l : list row) : list row :=
  match l with
  | [] => [r]
  | x :: rest =>
      if String.leb (r_name r) (r_name x) then r :: l
      else x :: insert_by_name r rest
  end.

Definition order_by_name (l : list row) : list row :=
  List.fold_right insert_by_name [] l.

(** SELECT * FROM custom_models ORDER BY name *)
Definition select_all_order_by_name : statement (list row) := fun _ d =>
  with_custom_models d (fun t => Ok (order_by_name (t_rows t), d)).

(** SELECT * FROM custom_models WHERE name = ?  followed by fetchone() *)
Definition select_by_name (name : string) : statement (option row) := fun _ d =>
  with_custom_models d (fun t => Ok (List.find (name_is name) (t_rows t), d)).

(** INSERT INTO custom_models (name, provider, model_id, base_url,
    temperature, api_provider) VALUES (?, ?, ?, ?, ?, ?) *)
Definition insert_custom_model (name provider model_id base_url : string)
    (temperature : Q) (api_provider : string) : statement unit := fun ts d =>
  with_custom_models d (fun t =>
    if List.existsb (name_is name) (t_rows t) then Raise IntegrityError
    else
      let r := {| r_id := t_seq t + 1; r_name := name; r_provider := provider;
                  r_model_id := model_id; r_base_url := base_url;
                  r_temperature := temperature; r_api_provider := api_provider;
                  r_created_at := ts; r_updated_at := ts |} in
      Ok (tt, put_custom_models
                {| t_rows := t_rows t ++ [r]; t_seq := t_seq t + 1 |} d)).

(** One [column = value] of the SET clause of an UPDATE. *)
Inductive assignment : Type :=
  | SetModelId (v : string)
  | SetProvider (v : string)
  | SetBaseUrl (v : string)
  | SetTemperature (v : Q)
  | SetApiProvider (v : string)
  | SetUpdatedAtNow.

Definition assign (ts : Z) (r : row) (a : assignment) : row :=
  match a with
  | SetModelId v =>
      {| r_id := r_id r; r_name := r_name r; r_provider := r_provider r;
         r_model_id := v; r_base_url := r_base_url r;
         r_temperature := r_temperature r; r_api_provider := r_api_provider r;
         r_created_at := r_created_at r; r_updated_at := r_updated_at r |}
  | SetProvider v =>
      {| r_id := r_id r; r_name := r_name r; r_provider := v;
         r_model_id := r_model_id r; r_base_url := r_base_url r;
         r_temperature := r_temperature r; r_api_provider := r_api_provider r;
         r_created_at := r_created_at r; r_updated_at := r_updated_at r |}
  | SetBaseUrl v =>
      {| r_id := r_id r; r_name := r_name r; r_provider := r_provider r;
         r_model_id := r_model_id r; r_base_url := v;
         r_temperature := r_temperature r; r_api_provider := r_api_provider r;
         r_created_at := r_created_at r; r_updated_at := r_updated_at r |}
  | SetTemperature v =>
      {| r_id := r_id r; r_name := r_name r; r_provider := r_provider r;
         r_model_id := r_model_id r; r_base_url := r_base_url r;
         r_temperature := v; r_api_provider := r_api_provider r;
         r_created_at := r_created_at r; r_updated_at := r_updated_at r |}
  | SetApiProvider v =>
      {| r_id := r_id r; r_name := r_name r; r_provider := r_provider r;
         r_model_id := r_model_id r; r_base_url := r_base_url r;
         r_temperature := r_temperature r; r_api_provider := v;
         r_created_at := r_created_at r; r_updated_at := r_updated_at r |}
  | SetUpdatedAtNow =>
      {| r_id := r_id r; r_name := r_name r; r_provider := r_provider r;
         r_model_id := r_model_id r; r_base_url := r_base_url r;
         r_temperature := r_temperature r; r_api_provider := r_api_provider r;
         r_created_at := r_created_at r; r_updated_at := ts |}
  end.

(** UPDATE custom_models SET <updates> WHERE name = ?; the result is
    [cursor.rowcount]. *)
Definition update_where_name (updates : list assignment) (name : string)
    : statement nat := fun ts d =>
  with_custom_models d (fun t =>
    let rows' := map (fun r => if name_is name r
                               then List.fold_left (assign ts) updates r
                               else r) (t_rows t) in
    Ok (length (List.filter (name_is name) (t_rows t)),
        put_custom_models {| t_rows := rows'; t_seq := t_seq t |} d)).

(** DELETE FROM custom_models WHERE name = ?; the result is
    [cursor.rowcount]. *)
Definition delete_where_name (name : string) : statement nat := fun _ d =>
  with_custom_models d (fun t =>
    Ok (length (List.filter (name_is name) (t_rows t)),
        put_custom_models
          {| t_rows := List.filter (fun r => negb (name_is name r)) (t_rows t);
             t_seq := t_seq t |} d)).

Definition provider_is (provider_name : string) (r : provider_row) : bool :=
  String.eqb (p_provider_name r) provider_name.

Definition with_provider_settings {R} (d : database)
    (k : list provider_row -> outcome (R * database)) : outcome (R * database) :=
  match provider_settings d with
  | Some rows => k rows
  | None => Raise OperationalError      (* no such table *)
  end.

Definition put_provider_settings (rows : list provider_row) (d : database)
    : database :=
  {| custom_models := custom_models d; provider_settings := Some rows |}.

(** SELECT * FROM provider_settings WHERE provider_name = ?  followed by
    fetchone() *)
Definition select_provider (provider_name : string)
    : statement (option provider_row) := fun _ d =>
  with_provider_settings d (fun rows =>
    Ok (List.find (provider_is provider_name) rows, d)).

(** INSERT INTO provider_settings (provider_name, is_enabled, base_url)
    VALUES (?, ?, ?) ON CONFLICT(provider_name) DO UPDATE SET
    is_enabled = excluded.is_enabled, base_url = excluded.base_url,
    updated_at = CURRENT_TIMESTAMP *)
Definition upsert_provider (provider_name : string) (is_enabled : Z)
    (base_url : option string) : statement unit := fun _ d =>
  with_provider_settings d (fun rows =>
    if List.existsb (provider_is provider_name) rows then
      Ok (tt, put_provider_settings
                (map (fun r => if provider_is provider_name r
                               then {| p_provider_name := p_provider_name r;
                                       p_is_enabled := is_enabled;
                                       p_base_url := base_url |}
                               else r) rows) d)
    else
      Ok (tt, put_provider_settings
                (rows ++ [{| p_provider_name := provider_name;
                             p_is_enabled := is_enabled;
                             p_base_url := base_url |}]) d)).

(** ** settings/api_database.py *)

Module api_database.

(** The context manager [get_connection], applied to the body of the
    [with] block. *)
Definition get_connection {A} (body : M A) : M A :=
  run sqlite3_connect in
  try_finally
    (try_except
       (let* a := body in          (* yield conn *)
        run conn_commit in
        ret a)
       (fun e => run conn_rollback in raise e))
    conn_close.

Definition init_database : M unit :=
  get_connection
    (run cursor_execute create_custom_models in
     run cursor_execute create_provider_settings in
     conn_commit).

Definition row_to_dict (r : row) : model_dict :=
  {| d_id := Some (r_id r);
     d_name := Some (r_name r);
     d_provider := Some (r_provider r);
     d_config := Some {| c_model := Some (r_model_id r);
                         c_temperature := Some (r_temperature r);
                         c_base_url := Some (r_base_url r);
                         c_api_key := None;
                         c_response_format := None;
                         c_model_info := None |};
     d_api_provider := Some (r_api_provider r) |}.

Definition get_all_custom_models : M (list model_dict) :=
  run init_database in
  get_connection
    (let* rows := cursor_execute select_all_order_by_name in
     ret (map row_to_dict rows)).

Definition get_custom_model_by_name (name : string) : M (option model_dict) :=
  run init_database in
  get_connection
    (let* r := cursor_execute (select_by_name name) in
     match r with
     | Some r => ret (Some (row_to_dict r))
     | None => ret None
     end).

Definition add_custom_model (name model_id provider base_url : string)
    (temperature : Q) (api_provider : string) : M bool :=
  run init_database in
  try_except
    (get_connection
       (run cursor_execute
              (insert_custom_model name provider model_id base_url
                                   temperature api_provider) in
        ret true))
    (fun e => match e with
              | IntegrityError => ret false   (* name already exists *)
              | _ => ret false                (* "Error adding custom model" *)
              end).

(** [updates.append(...)] for a supplied argument *)
Definition supplied {A} (arg : option A) (mk : A -> assignment)
    (updates : list assignment) : list assignment :=
  match arg with
  | Some v => updates ++ [mk v]
  | None => updates
  end.

Definition update_custom_model (name : string)
    (model_id provider base_url : option string) (temperature : option Q)
    (api_provider : option string) : M bool :=
  run init_database in
  try_except
    (get_connection
       (let updates := [] in
        let updates := supplied model_id SetModelId updates in
        let updates := supplied provider SetProvider updates in
        let updates := supplied base_url SetBaseUrl updates in
        let updates := supplied temperature SetTemperature updates in
        let updates := supplied api_provider SetApiProvider updates in
        match updates with
        | [] => ret true                      (* nothing to update *)
        | _ :: _ =>
            let updates := updates ++ [SetUpdatedAtNow] in
            let* rowcount := cursor_execute (update_where_name updates name) in
            ret (0 <? rowcount)%nat
        end))
    (fun _ => ret false).

Definition delete_custom_model (name : string) : M bool :=
  run init_database in
  try_except
    (get_connection
       (let* rowcount := cursor_execute (delete_where_name name) in
        ret (0 <? rowcount)%nat))
    (fun _ => ret false).

Definition model_exists (name : string) : M bool :=
  run init_database in
  get_connection
    (let* r := cursor_execute (select_by_name name) in
     ret (match r with Some _ => true | None => false end)).

(** The dictionary [get_provider_settings] returns. *)
Record provider_dict := {
  pd_provider_name : string;
  pd_is_enabled : bool;
  pd_base_url : option string
}.

Definition get_provider_settings (provider_name : string)
    : M (option provider_dict) :=
  run init_database in
  get_connection
    (let* r := cursor_execute (select_provider provider_name) in
     match r with
     | Some r =>
         ret (Some {| pd_provider_name := p_provider_name r;
                      pd_is_enabled := negb (p_is_enabled r =? 0)%Z; (* bool(...) *)
                      pd_base_url := p_base_url r |})
     | None => ret None
     end).

Definition set_provider_settings (provider_name : string) (is_enabled : bool)
    (base_url : option string) : M bool :=
  run init_database in
  try_except
    (get_connection
       (run cursor_execute
              (upsert_provider provider_name
                 (if is_enabled then 1 else 0)%Z       (* int(is_enabled) *)
                 base_url) in
        ret true))
    (fun _ => ret false).                 (* "Error setting provider settings" *)

(** The loop of [migrate_from_json]; [migrated] is the running count. *)
Fixpoint migrate_loop (json_models : list model_dict) (migrated : nat) : M nat :=
  match json_models with
  | [] => ret migrated
  | model :: rest =>
      let name := dict_get (d_name model) "" in
      let config := dict_get (d_config model) empty_config in
      if py_not name || py_not_opt (c_model config) then
        migrate_loop rest migrated              (* continue *)
      else
        let* success :=
          add_custom_model
            name
            (dict_get (c_model config) "")
            (dict_get (d_provider model) "OpenAIChatCompletionClient")
            (dict_get (c_base_url config) "https://openrouter.ai/api/v1")
            (dict_get (c_temperature config) (2 # 10)%Q)
            (dict_get (d_api_provider model) "OPENROUTER") in
        migrate_loop rest (if success : bool then S migrated else migrated)
  end.

Definition migrate_from_json (json_models : list model_dict) : M nat :=
  run init_database in
  migrate_loop json_models 0.

(** The names the module binds at top level: what
    [from settings.api_database import ...] can find. *)
Inductive attribute : Type :=
  | Lookup (f : string -> M (option model_dict))  (* name -> model dict or None *)
  | Other.                                        (* any other object *)

Definition namespace : list (string * attribute) :=
  [ ("sqlite3", Other); ("os", Other);
    ("Dict", Other); ("List", Other); ("Any", Other); ("Optional", Other);
    ("contextmanager", Other);
    ("DB_PATH", Other);
    ("get_db_path", Other);
    ("get_connection", Other);
    ("init_database", Other);
    ("get_all_custom_models", Other);
    ("get_custom_model_by_name", Lookup get_custom_model_by_name);
    ("add_custom_model", Other);
    ("update_custom_model", Other);
    ("delete_custom_model", Other);
    ("model_exists", Other);
    ("get_provider_settings", Other);
    ("set_provider_settings", Other);
    ("migrate_from_json", Other) ].

End api_database.

(** [from module import attr] *)
Definition import_from (namespace : list (string * api_database.attribute))
    (attr : string) : M api_database.attribute :=
  match List.find (fun b => String.eqb (fst b) attr) namespace with
  | Some b => ret (snd b)
  | None => raise (ImportError attr)
  end.

(** [f(arg)] for an imported [f] used as a lookup by name. *)
Definition call (f : api_database.attribute) (arg : string)
    : M (option model_dict) :=
  match f with
  | api_database.Lookup g => g arg
  | api_database.Other => raise TypeError
  end.

(** ** settings/api_manager.py *)

Module api_manager.

(** The imports [... as db_...]. *)
Definition db_get_all_custom_models := api_database.get_all_custom_models.
Definition db_add_custom_model := api_database.add_custom_model.
Definition db_delete_custom_model := api_database.delete_custom_model.
Definition db_model_exists := api_database.model_exists.

(** [st.secrets], when one of its entries is asked for: at the first use
    in the process the secrets file is read and every entry is written
    into [os.environ] ([os.environ[k] = str(v)], over a variable of the
    same name); later uses return the entries read then.  It raises when
    there is no secrets file. *)
Definition st_secrets_parse : M (gmap string string) := fun w =>
  match secrets w with
  | Some m =>
      if secrets_parsed w then (Ok m, w)
      else (Ok m, set_environ (m ∪ environ w) true w)
  | None => (Raise SecretsUnavailable, w)
  end.

(** [st.secrets.get(key, default)] *)
Definition st_secrets_get (key default : string) : M string :=
  let* m := st_secrets_parse in
  ret (dict_get (m !! key) default).

Definition _get_secret (key default : string) : M string :=
  let* env_value := gets (fun w => dict_get (environ w !! key) "") in
  if negb (py_not env_value) then ret env_value
  else try_except (st_secrets_get key default) (fun _ => ret default).

Definition load_api_keys : M (gmap string string) :=
  let* openai := _get_secret "OPENAI_API_KEY" "" in
  let* deepseek := _get_secret "DEEPSEEK_API_KEY" "" in
  let* gemini := _get_secret "GEMINI_API_KEY" "" in
  let* openrouter := _get_secret "OPENROUTER_API_KEY" "" in
  let* groq := _get_secret "GROQ_API_KEY" "" in
  let* grok := _get_secret "GROK_API_KEY" "" in
  let base_keys : gmap string string :=
    <["GROK_API_KEY" := grok]>
    (<["GROQ_API_KEY" := groq]>
    (<["OPENROUTER_API_KEY" := openrouter]>
    (<["GEMINI_API_KEY" := gemini]>
    (<["DEEPSEEK_API_KEY" := deepseek]>
    (<["OPENAI_API_KEY" := openai]> ∅))))) in
  run modify (fun w =>
        set_session {| ss_api_keys := Some base_keys;
                       ss_custom_models := ss_custom_models (session_state w) |} w) in
  ret base_keys.

Definition save_api_keys (keys : gmap string string) : M bool :=
  try_except
    (run modify (fun w =>
           set_session {| ss_api_keys := Some keys;
                          ss_custom_models :=
                            ss_custom_models (session_state w) |} w) in
     ret true)
    (fun _ => ret false).                 (* "Error saving API keys" *)

Definition get_api_key (provider : string) : M string :=
  let* keys := load_api_keys in
  let key_name := upper provider +:+ "_API_KEY" in
  ret (dict_get (keys !! key_name) "").

(** [keys] is the dictionary [load_api_keys] has just stored in the
    session: the assignment [keys[key_name] = ""] changes that stored
    dictionary too. *)
Definition delete_api_key (key_name : string) : M bool :=
  try_except
    (let* keys := load_api_keys in
     match keys !! key_name with
     | Some _ =>
         let keys := <[key_name := ""]> keys in
         run modify (fun w =>
               set_session {| ss_api_keys := Some keys;
                              ss_custom_models :=
                                ss_custom_models (session_state w) |} w) in
         save_api_keys keys
     | None => ret false
     end)
    (fun _ => ret false).                 (* "Error deleting API key" *)

(** [open(LEGACY_CUSTOM_MODELS_FILE)] and [json.load(f)] *)
Definition json_load_legacy : M (list model_dict) := fun w =>
  match legacy_file w with
  | None => (Raise FileNotFoundError, w)
  | Some Malformed => (Raise JSONDecodeError, w)
  | Some (Records l) => (Ok l, w)
  end.

(** [os.rename(LEGACY_CUSTOM_MODELS_FILE, backup_file)]; an existing
    backup is replaced. *)
Definition os_rename_legacy : M unit := fun w =>
  match legacy_file w with
  | None => (Raise FileNotFoundError, w)
  | Some doc => (Ok tt, set_files None (Some doc) w)
  end.

Definition _migrate_json_to_sqlite : M unit :=
  let* present := gets (fun w => match legacy_file w with
                                 | Some _ => true
                                 | None => false
                                 end) in
  if present : bool then
    try_except
      (let* json_models := json_load_legacy in
       match json_models with
       | [] => ret tt
       | _ :: _ =>
           let* migrated := api_database.migrate_from_json json_models in
           (* rename old file to indicate migration complete *)
           os_rename_legacy
       end)
      (fun _ => ret tt)                 (* "Error during migration" *)
  else ret tt.

Definition load_custom_models : M (list model_dict) :=
  run _migrate_json_to_sqlite in
  let* models := db_get_all_custom_models in
  run modify (fun w =>
        set_session {| ss_api_keys := ss_api_keys (session_state w);
                       ss_custom_models := Some models |} w) in
  ret models.

Definition save_custom_models (models : list model_dict) : M bool :=
  run modify (fun w =>
        set_session {| ss_api_keys := ss_api_keys (session_state w);
                       ss_custom_models := Some models |} w) in
  ret true.

(** [if 'custom_models' in st.session_state: del st.session_state['custom_models']] *)
Definition del_cached_custom_models : M unit :=
  modify (fun w =>
    match ss_custom_models (session_state w) with
    | Some _ => set_session {| ss_api_keys := ss_api_keys (session_state w);
                               ss_custom_models := None |} w
    | None => w
    end).

Definition add_custom_model (name provider model_id base_url : string)
    (temperature : Q) (api_provider custom_api_key : string) : M bool :=
  let* found := db_model_exists name in
  if found : bool then ret false        (* "... already exists!" *)
  else
    let* success :=
      db_add_custom_model
        name model_id provider
        (if py_not base_url then "https://openrouter.ai/api/v1" else base_url)
        temperature
        (if py_not api_provider then "OPENROUTER" else api_provider) in
    run (if success : bool then del_cached_custom_models else ret tt) in
    ret success.

Definition remove_custom_model (name : string) : M bool :=
  let* success := db_delete_custom_model name in
  run (if success : bool then del_cached_custom_models else ret tt) in
  ret success.

(** The chain of tests of [get_all_available_models] on the lower-cased
    [base_url] and [model] of a built-in configuration; the result is the
    key looked up in [current_keys]. *)
Definition builtin_key_name (base_url model_name : string) : string :=
  if contains "generativelanguage.googleapis.com" base_url
     || contains "gemini" model_name then "GEMINI_API_KEY"
  else if contains "openrouter" base_url then "OPENROUTER_API_KEY"
  else if contains "groq" base_url then "GROQ_API_KEY"
  else if contains "x.ai" base_url || contains "grok" model_name
       then "GROK_API_KEY"
  else if contains "deepseek" base_url
          || (contains "deepseek" model_name
              && negb (contains "openrouter" base_url))
       then "DEEPSEEK_API_KEY"
  else if contains "openai" base_url || contains "gpt" model_name
          || String.eqb base_url ""
       then "OPENAI_API_KEY"
  else "OPENAI_API_KEY".

Definition set_api_key (key : string) (c : config_dict) : config_dict :=
  {| c_model := c_model c; c_base_url := c_base_url c; c_api_key := Some key;
     c_temperature := c_temperature c;
     c_response_format := c_response_format c;
     c_model_info := c_model_info c |}.

(** A built-in configuration with its key substituted. *)
Definition builtin_with_key (current_keys : gmap string string)
    (config : model_dict) : M model_dict :=
  let updated_config := config in       (* json.loads(json.dumps(config)) *)
  let* cfg := subscript "config" (d_config config) in
  let base_url := lower (dict_get (c_base_url cfg) "") in
  let* model := subscript "model" (c_model cfg) in
  let model_name := lower model in
  let key := dict_get (current_keys !! builtin_key_name base_url model_name) "" in
  ret {| d_id := d_id updated_config; d_name := d_name updated_config;
         d_provider := d_provider updated_config;
         d_api_provider := d_api_provider updated_config;
         d_config := Some (set_api_key key cfg) |}.

Fixpoint builtin_loop (items : list (string * model_dict))
    (current_keys : gmap string string)
    (updated_models : gmap string model_dict) : M (gmap string model_dict) :=
  match items with
  | [] => ret updated_models
  | (name, config) :: rest =>
      let* updated_config := builtin_with_key current_keys config in
      builtin_loop rest current_keys (<[name := updated_config]> updated_models)
  end.

(** A custom model with its key resolved from [api_provider]. *)
Definition custom_with_key (current_keys : gmap string string)
    (model : model_dict) : M (string * model_dict) :=
  let api_provider := dict_get (d_api_provider model) "OPENROUTER" in
  let resolved_key := dict_get (current_keys !! (api_provider +:+ "_API_KEY")) "" in
  let* name := subscript "name" (d_name model) in
  let* provider := subscript "provider" (d_provider model) in
  let* cfg := subscript "config" (d_config model) in
  let* model_id := subscript "model" (c_model cfg) in
  let* temperature := subscript "temperature" (c_temperature cfg) in
  let model_with_key :=
    {| d_id := None; d_name := Some name; d_provider := Some provider;
       d_api_provider := None;
       d_config := Some {| c_model := Some model_id;
                           c_temperature := Some temperature;
                           c_base_url := Some (dict_get (c_base_url cfg)
                                                 "https://openrouter.ai/api/v1");
                           c_api_key := Some resolved_key;
                           c_response_format := None;
                           c_model_info := None |} |} in
  ret (name, model_with_key).

Fixpoint custom_loop (custom_models : list model_dict)
    (current_keys : gmap string string)
    (updated_models : gmap string model_dict) : M (gmap string model_dict) :=
  match custom_models with
  | [] => ret updated_models
  | model :: rest =>
      let* named := custom_with_key current_keys model in
      custom_loop rest current_keys (<[fst named := snd named]> updated_models)
  end.

(** [MODEL_CHOICES] is imported inside the function, from
    settings.model_configs, which is defined below: the import is the
    argument here. *)
Definition get_all_available_models
    (import_MODEL_CHOICES : M (list (string * model_dict)))
    : M (gmap string model_dict) :=
  let* MODEL_CHOICES := import_MODEL_CHOICES in
  let* current_keys := load_api_keys in
  let* updated_models := builtin_loop MODEL_CHOICES current_keys ∅ in
  let* custom_models := load_custom_models in
  custom_loop custom_models current_keys updated_models.

Definition initialize_api_system : M unit :=
  run api_database.init_database in
  run load_api_keys in
  run load_custom_models in
  ret tt.

End api_manager.

(** ** settings/model_configs.py *)

Module model_configs.

Section imported.

(** [api_keys.get("OPENROUTER_API_KEY", "")], computed from
    [load_api_keys()] when the module is imported. *)
Variable OPENROUTER_API_KEY : string.

Definition default_response_format : response_format :=
  {| rf_type := "json_object";
     rf_json_schema := {| js_name := "default_response"; js_strict := false |} |}.

Definition static_config (model : string) (info : model_info) : model_dict :=
  {| d_id := None; d_name := None;
     d_provider := Some "OpenAIChatCompletionClient";
     d_api_provider := None;
     d_config := Some {| c_model := Some model;
                         c_base_url := Some "https://openrouter.ai/api/v1";
                         c_api_key := Some OPENROUTER_API_KEY;
                         c_temperature := Some (2 # 10)%Q;
                         c_response_format := Some default_response_format;
                         c_model_info := Some info |} |}.

Definition deepseek_config : model_dict :=
  static_config "deepseek/deepseek-chat"
    {| family := "unknown"; function_calling := false; json_output := true;
       vision := false; structured_output := true |}.

Definition gpt4o_mini_config : model_dict :=
  static_config "openai/gpt-4o-mini"
    {| family := "openai"; function_calling := true; json_output := true;
       vision := false; structured_output := true |}.

Definition claude_sonnet_config : model_dict :=
  static_config "anthropic/claude-3.5-sonnet"
    {| family := "anthropic"; function_calling := true; json_output := true;
       vision := true; structured_output := true |}.

Definition gemini_flash_config : model_dict :=
  static_config "google/gemini-2.0-flash-exp"
    {| family := "google"; function_calling := false; json_output := true;
       vision := true; structured_output := true |}.

Definition gemini_pro_config : model_dict :=
  static_config "google/gemini-pro-1.5"
    {| family := "google"; function_calling := false; json_output := true;
       vision := true; structured_output := true |}.

Definition default_config : model_dict := deepseek_config.

Definition MODEL_CHOICES : list (string * model_dict) :=
  [ ("DeepSeek-Chat", deepseek_config);
    ("GPT-4o-Mini", gpt4o_mini_config);
    ("Claude-Sonnet-3.5", claude_sonnet_config);
    ("Gemini-Flash", gemini_flash_config);
    ("Gemini-Pro", gemini_pro_config) ].

(** [MODEL_CHOICES.get(choice, default)] *)
Definition choices_get (choice : string) (default : model_dict) : model_dict :=
  match List.find (fun b => String.eqb (fst b) choice) MODEL_CHOICES with
  | Some b => snd b
  | None => default
  end.

(** Truth value of a dict: it has at least one key. *)
Definition dict_truthy (d : model_dict) : bool :=
  match d_id d, d_name d, d_provider d, d_api_provider d, d_config d with
  | None, None, None, None, None => false
  | _, _, _, _, _ => true
  end.

(** [{**d, "api_provider": v}] *)
Definition with_api_provider (v : string) (d : model_dict) : model_dict :=
  {| d_id := d_id d; d_name := d_name d; d_provider := d_provider d;
     d_api_provider := Some v; d_config := d_config d |}.

(** The fallback of [get_model_config] to the static configurations. *)
Definition static_fallback (choice : string) : M model_dict :=
  let static_config := choices_get choice default_config in
  if dict_truthy static_config
  then ret (with_api_provider "OPENROUTER" static_config)
  else ret (with_api_provider "OPENROUTER" default_config).

(** [if db_model:] *)
Definition truthy (db_model : option model_dict) : bool :=
  match db_model with
  | Some d => dict_truthy d
  | None => false
  end.

(** The body of [get_model_config] after its import statement;
    [get_model_by_name] is the imported object. *)
Definition get_model_config_body (get_model_by_name : api_database.attribute)
    (choice : string) : M model_dict :=
  let* db_model := call get_model_by_name choice in
  if truthy db_model then
    let db_model := dict_get db_model
                      {| d_id := None; d_name := None; d_provider := None;
                         d_api_provider := None; d_config := None |} in
    let* api_keys := api_manager.load_api_keys in
    let api_provider := dict_get (d_api_provider db_model) "OPENROUTER" in
    let api_key := dict_get (api_keys !! (api_provider +:+ "_API_KEY")) "" in
    let* name := subscript "name" (d_name db_model) in
    let* provider := subscript "provider" (d_provider db_model) in
    let* cfg := subscript "config" (d_config db_model) in
    let* model := subscript "model" (c_model cfg) in
    ret {| d_id := None; d_name := Some name; d_provider := Some provider;
           d_api_provider := Some api_provider;
           d_config :=
             Some {| c_model := Some model;
                     c_base_url := Some (dict_get (c_base_url cfg)
                                           "https://openrouter.ai/api/v1");
                     c_api_key := Some api_key;
                     c_temperature := Some (dict_get (c_temperature cfg)
                                              (2 # 10)%Q);
                     c_response_format := None;
                     c_model_info := None |} |}
  else static_fallback choice.

Definition get_model_config (choice : string) : M model_dict :=
  let* get_model_by_name :=
    import_from api_database.namespace "get_model_by_name" in
  get_model_config_body get_model_by_name choice.

End imported.

(** [from settings.model_configs import MODEL_CHOICES].  The first import
    in the process runs the module: [api_keys = load_api_keys()], then
    [OPENROUTER_API_KEY = api_keys.get("OPENROUTER_API_KEY", "")] and the
    five configurations built with it.  Later imports find the module
    loaded. *)
Definition import_MODEL_CHOICES : M (list (string * model_dict)) :=
  let* loaded := gets model_configs_key in
  match loaded with
  | Some OPENROUTER_API_KEY => ret (MODEL_CHOICES OPENROUTER_API_KEY)
  | None =>
      let* api_keys := api_manager.load_api_keys in
      let OPENROUTER_API_KEY :=
        dict_get (api_keys !! "OPENROUTER_API_KEY") "" in
      run modify (set_model_configs_key (Some OPENROUTER_API_KEY)) in
      ret (MODEL_CHOICES OPENROUTER_API_KEY)
  end.

End model_configs.

(** [api_manager.get_all_available_models] with its import. *)
Definition get_all_available_models : M (gmap string model_dict) :=
  api_manager.get_all_available_models model_configs.import_MODEL_CHOICES.

(** ** settings/admin_auth.py *)

Module admin_auth.

(** [os.environ.get(key, default)] *)
Definition os_environ_get (key default : string) : M string :=
  gets (fun w => dict_get (environ w !! key) default).

Definition get_admin_credentials : M (string * string) :=
  let default_username := "admin" in
  let default_password := "Tertiary@888" in
  try_except
    (let* env_username := os_environ_get "ADMIN_USERNAME" default_username in
     let* username := api_manager.st_secrets_get "ADMIN_USERNAME" env_username in
     let* env_password := os_environ_get "ADMIN_PASSWORD" default_password in
     let* password := api_manager.st_secrets_get "ADMIN_PASSWORD" env_password in
     ret (username, password))
    (fun _ =>
       let* username := os_environ_get "ADMIN_USERNAME" default_username in
       let* password := os_environ_get "ADMIN_PASSWORD" default_password in
       ret (username, password)).

End admin_auth.

(** ** Reading the store *)

(** The effect of [init_database] on the file: both tables exist. *)
Definition ensure_tables (d : database) : database :=
  {| custom_models :=
       Some (match custom_models d with
             | Some t => t
             | None => {| t_rows := []; t_seq := 0 |}
             end);
     provider_settings :=
       Some (match provider_settings d with Some p => p | None => [] end) |}.

Definition seq_of (d : database) : Z :=
  match custom_models d with Some t => t_seq t | None => 0%Z end.

Definition has_name (name : string) (d : database) : bool :=
  List.existsb (name_is name) (rows_of d).

(** A world between two calls: no fault pending, no connection open, the
    tables created. *)
Definition settled (w : World) : Prop :=
  faults w = [] /\ conn w = None /\ ensure_tables (db w) = db w.

(** The part of the process a store operation never touches. *)
Definition same_process (w w' : World) : Prop :=
  environ w' = environ w /\ secrets w' = secrets w /\ now w' = now w /\
  legacy_file w' = legacy_file w /\ backup_file w' = backup_file w.

(** The columns a caller chooses; [id] and the timestamps are assigned by
    the database. *)
Record profile := {
  f_name : string;
  f_provider : string;
  f_model_id : string;
  f_base_url : string;
  f_temperature : Q;
  f_api_provider : string
}.

Definition profile_of (r : row) : profile :=
  {| f_name := r_name r; f_provider := r_provider r;
     f_model_id := r_model_id r; f_base_url := r_base_url r;
     f_temperature := r_temperature r; f_api_provider := r_api_provider r |}.

(** The row an INSERT of [p] writes at time [ts] into [d]. *)
Definition inserted_row (p : profile) (ts : Z) (d : database) : row :=
  {| r_id := seq_of d + 1; r_name := f_name p; r_provider := f_provider p;
     r_model_id := f_model_id p; r_base_url := f_base_url p;
     r_temperature := f_temperature p; r_api_provider := f_api_provider p;
     r_created_at := ts; r_updated_at := ts |}.

(** The mutating operations of the store. *)
Inductive mutation : Type :=
  | Create (name model_id provider base_url : string) (temperature : Q)
           (api_provider : string)
  | Update (name : string) (model_id provider base_url : option string)
           (temperature : option Q) (api_provider : option string)
  | Delete (name : string).

Definition perform (op : mutation) : M bool :=
  match op with
  | Create name model_id provider base_url temperature api_provider =>
      api_database.add_custom_model name model_id provider base_url
                                    temperature api_provider
  | Update name model_id provider base_url temperature api_provider =>
      api_database.update_custom_model name model_id provider base_url
                                       temperature api_provider
  | Delete name => api_database.delete_custom_model name
  end.

(** [create(profile)] through the store and through the manager. *)
Definition create (p : profile) : M bool :=
  api_database.add_custom_model (f_name p) (f_model_id p) (f_provider p)
    (f_base_url p) (f_temperature p) (f_api_provider p).

Definition register (p : profile) : M bool :=
  api_manager.add_custom_model (f_name p) (f_provider p) (f_model_id p)
    (f_base_url p) (f_temperature p) (f_api_provider p) "".

(** The profile the manager hands to the store: empty [base_url] and
    [api_provider] are replaced by the defaults. *)
Definition registered (p : profile) : profile :=
  {| f_name := f_name p; f_provider := f_provider p;
     f_model_id := f_model_id p;
     f_base_url := if py_not (f_base_url p)
                   then "https://openrouter.ai/api/v1" else f_base_url p;
     f_temperature := f_temperature p;
     f_api_provider := if py_not (f_api_provider p)
                       then "OPENROUTER" else f_api_provider p |}.

(** Calls made one after the other; the results in order. *)
Fixpoint sequence {A} (calls : list (M A)) : M (list A) :=
  match calls with
  | [] => ret []
  | m :: rest =>
      let* a := m in
      let* others := sequence rest in
      ret (a :: others)
  end.

(** *** Partial update, as the contract words it *)

(** The SET clause [update_custom_model] builds from its arguments. *)
Definition updates_of (model_id provider base_url : option string)
    (temperature : option Q) (api_provider : option string)
    : list assignment :=
  api_database.supplied api_provider SetApiProvider
    (api_database.supplied temperature SetTemperature
       (api_database.supplied base_url SetBaseUrl
          (api_database.supplied provider SetProvider
             (api_database.supplied model_id SetModelId [])))).

(** No field is supplied. *)
Definition none_supplied (model_id provider base_url : option string)
    (temperature : option Q) (api_provider : option string) : bool :=
  match model_id, provider, base_url, temperature, api_provider with
  | None, None, None, None, None => true
  | _, _, _, _, _ => false
  end.

(** A row after a partial update at time [ts]: supplied fields take the
    new value, [updated_at] is refreshed, every other field is kept. *)
Definition partially_updated (model_id provider base_url : option string)
    (temperature : option Q) (api_provider : option string) (ts : Z)
    (r : row) : row :=
  {| r_id := r_id r;
     r_name := r_name r;
     r_provider := dict_get provider (r_provider r);
     r_model_id := dict_get model_id (r_model_id r);
     r_base_url := dict_get base_url (r_base_url r);
     r_temperature := dict_get temperature (r_temperature r);
     r_api_provider := dict_get api_provider (r_api_provider r);
     r_created_at := r_created_at r;
     r_updated_at := ts |}.

(** *** Migration *)

(** A legacy record passes the check of [migrate_from_json]: non-empty
    name and non-empty model identifier. *)
Definition migratable (m : model_dict) : bool :=
  negb (py_not (dict_get (d_name m) "")
        || py_not_opt (c_model (dict_get (d_config m) empty_config))).

Definition record_name (m : model_dict) : string := dict_get (d_name m) "".

(** The profile [migrate_from_json] asks the store to create for a
    record, defaults applied. *)
Definition record_profile (m : model_dict) : profile :=
  let config := dict_get (d_config m) empty_config in
  {| f_name := record_name m;
     f_provider := dict_get (d_provider m) "OpenAIChatCompletionClient";
     f_model_id := dict_get (c_model config) "";
     f_base_url := dict_get (c_base_url config) "https://openrouter.ai/api/v1";
     f_temperature := dict_get (c_temperature config) (2 # 10)%Q;
     f_api_provider := dict_get (d_api_provider m) "OPENROUTER" |}.

(** *** Credential-family rules, as the contract words them *)

(** An ordered table of (predicate on lower-cased base_url and model
    name, key); the first rule that holds decides. *)
Definition rule : Type := (string -> string -> bool) * string.

Definition rule_table : list rule :=
  [ (fun base_url model =>
       contains "generativelanguage.googleapis.com" base_url
       || contains "gemini" model, "GEMINI_API_KEY");
    (fun base_url _ => contains "openrouter" base_url, "OPENROUTER_API_KEY");
    (fun base_url _ => contains "groq" base_url, "GROQ_API_KEY");
    (fun base_url model =>
       contains "x.ai" base_url || contains "grok" model, "GROK_API_KEY");
    (fun base_url model =>
       contains "deepseek" base_url || contains "deepseek" model,
     "DEEPSEEK_API_KEY") ].

Fixpoint first_match (rules : list rule) (fallback base_url model : string)
    : string :=
  match rules with
  | [] => fallback
  | (holds, key) :: rest =>
      if holds base_url model then key
      else first_match rest fallback base_url model
  end.

(** The key a built-in configuration is resolved against. *)
Definition builtin_key (config : model_dict) : string :=
  let cfg := dict_get (d_config config) empty_config in
  first_match rule_table "OPENAI_API_KEY"
    (lower (dict_get (c_base_url cfg) ""))
    (lower (dict_get (c_model cfg) "")).

(** *** Resolved configurations *)

(** A resolved configuration is usable: it has a ["config"] with a model
    identifier and a base URL. *)
Definition usable (config : model_dict) : Prop :=
  exists cfg model base_url,
    d_config config = Some cfg /\
    c_model cfg = Some model /\ c_base_url cfg = Some base_url.

(** *** Reading the profile list *)

(** [load_custom_models] in world [v] returns the rows of the store as it
    stands when the call ends, ordered by name, and caches that list; with
    no legacy file pending these are the rows [v] started with. *)
Definition reads_store (v : World) : Prop :=
  exists v',
    api_manager.load_custom_models v
    = (Ok (map api_database.row_to_dict (order_by_name (rows_of (db v')))), v') /\
    ss_custom_models (session_state v')
    = Some (map api_database.row_to_dict (order_by_name (rows_of (db v')))) /\
    (legacy_file v = None -> rows_of (db v') = rows_of (db v)).

(** *** Sample worlds *)

Definition no_session : session :=
  {| ss_api_keys := None; ss_custom_models := None |}.

(** A fresh process: no database file content, no legacy file. *)
Definition fresh_world : World :=
  {| environ := ∅; secrets := None; session_state := no_session;
     db := {| custom_models := None; provider_settings := None |};
     conn := None; faults := []; struck := 0; now := 1000;
     legacy_file := None; backup_file := None;
     secrets_parsed := false; model_configs_key := None |}.

Definition team_gpt : profile :=
  {| f_name := "TeamGPT"; f_provider := "OpenAIChatCompletionClient";
     f_model_id := "openai/gpt-4o";
     f_base_url := "https://openrouter.ai/api/v1";
     f_temperature := (2 # 10)%Q; f_api_provider := "OPENAI" |}.

Definition team_gpt_row : row := inserted_row team_gpt 1000 (db fresh_world).

(** A store holding the single profile TeamGPT. *)
Definition team_world : World :=
  set_db {| custom_models := Some {| t_rows := [team_gpt_row]; t_seq := 1 |};
            provider_settings := Some [] |} fresh_world.

(** The same store with the profile list cached in the session. *)
Definition cached_world : World :=
  set_session {| ss_api_keys := None;
                 ss_custom_models := Some [api_database.row_to_dict team_gpt_row] |}
              team_world.

(** A fault schedule that lets [init_database] (five calls) and the
    connect of the next transaction through and fails its statement. *)
Definition statement_fault : list bool :=
  [false; false; false; false; false; false; true].

Definition legacy_old1 : model_dict :=
  {| d_id := None; d_name := Some "Old1"; d_provider := None;
     d_api_provider := None;
     d_config := Some {| c_model := Some "x"; c_base_url := None;
                         c_api_key := None; c_temperature := None;
                         c_response_format := None; c_model_info := None |} |}.

(** A legacy file holding the single record Old1. *)
Definition legacy_world : World :=
  set_files (Some (Records [legacy_old1])) None fresh_world.

(** A legacy file holding an empty list. *)
Definition empty_legacy_world : World :=
  set_files (Some (Records [])) None fresh_world.

(** A statement fault while TeamGPT is created in a fresh process. *)
Definition faulty_world : World := set_faults statement_fault 0 fresh_world.

Definition create_team_gpt : mutation :=
  Create "TeamGPT" "openai/gpt-4o" "OpenAIChatCompletionClient"
         "https://openrouter.ai/api/v1" (2 # 10)%Q "OPENAI".

Definition seven_tenths : Q := (7 # 10)%Q.

(** *** What a call leaves alone *)

(** Everything in the process but the database file, its connection and
    the fault schedule. *)
Definition outside_db (w w' : World) : Prop :=
  environ w' = environ w /\ secrets w' = secrets w /\
  session_state w' = session_state w /\ now w' = now w /\
  legacy_file w' = legacy_file w /\ backup_file w' = backup_file w /\
  secrets_parsed w' = secrets_parsed w /\
  model_configs_key w' = model_configs_key w.

(** A computation that, whatever it returns or raises, changes nothing
    outside the database. *)
Definition confined {A} (m : M A) : Prop :=
  forall w, outside_db w (snd (m w)).

(** The rows a mutation leaves when it succeeds at time [ts] on [d]. *)
Definition rows_after (op : mutation) (ts : Z) (d : database) : list row :=
  match op with
  | Create name model_id provider base_url temperature api_provider =>
      rows_of d ++
      [inserted_row {| f_name := name; f_provider := provider;
                       f_model_id := model_id; f_base_url := base_url;
                       f_temperature := temperature;
                       f_api_provider := api_provider |} ts d]
  | Update name model_id provider base_url temperature api_provider =>
      if none_supplied model_id provider base_url temperature api_provider
      then rows_of d
      else map (fun r => if name_is name r
                         then partially_updated model_id provider base_url
                                temperature api_provider ts r
                         else r) (rows_of d)
  | Delete name => List.filter (fun r => negb (name_is name r)) (rows_of d)
  end.

(** When a mutation can succeed on [d]. *)
Definition applies (op : mutation) (d : database) : bool :=
  match op with
  | Create name _ _ _ _ _ => negb (has_name name d)
  | Update name model_id provider base_url temperature api_provider =>
      none_supplied model_id provider base_url temperature api_provider
      || has_name name d
  | Delete name => has_name name d
  end.

Definition provider_rows_of (d : database) : list provider_row :=
  match provider_settings d with Some rows => rows | None => [] end.

(** The answers of the three reads of [custom_models] on [d]. *)
Definition listing (d : database) : list model_dict :=
  map api_database.row_to_dict (order_by_name (rows_of d)).

Definition lookup_by_name (name : string) (d : database) : option model_dict :=
  option_map api_database.row_to_dict (List.find (name_is name) (rows_of d)).

(** Ascending order of names, byte-wise. *)
Definition name_le (a b : row) : Prop :=
  String.leb (r_name a) (r_name b) = true.

(** The legacy records [migrate_from_json] takes, in order: those that
    pass its check and whose name is neither among [taken] (the names in
    the store) nor the name of a record taken before. *)
Fixpoint accepted (json_models : list model_dict) (taken : list string)
    : list model_dict :=
  match json_models with
  | [] => []
  | m :: rest =>
      if migratable m
         && negb (List.existsb (String.eqb (record_name m)) taken)
      then m :: accepted rest (taken ++ [record_name m])
      else accepted rest taken
  end.

(** The answer of [get_provider_settings] for a row. *)
Definition provider_row_to_dict (r : provider_row)
    : api_database.provider_dict :=
  {| api_database.pd_provider_name := p_provider_name r;
     api_database.pd_is_enabled := negb (p_is_enabled r =? 0)%Z;
     api_database.pd_base_url := p_base_url r |}.

Definition provider_lookup (provider_name : string) (d : database)
    : option api_database.provider_dict :=
  option_map provider_row_to_dict
    (List.find (provider_is provider_name) (provider_rows_of d)).

(** A store with settings for one provider, disabled. *)
Definition groq_world : World :=
  set_db {| custom_models := Some {| t_rows := []; t_seq := 0 |};
            provider_settings :=
              Some [{| p_provider_name := "GROQ";
                       p_is_enabled := 0; p_base_url := None |}] |}
         fresh_world.

(** *** Credentials of the process *)

(** A variable that is not set, or set to the empty string. *)
Definition unset (env : gmap string string) (key : string) : bool :=
  match env !! key with
  | Some (String _ _) => false
  | _ => true
  end.

(** What a lookup of [key] answers in environment [env] when the secrets
    file holds [store] ([None]: there is no file): the variable when it is
    set and not empty, else the entry of the file, else the empty
    string. *)
Definition resolved (env : gmap string string)
    (store : option (gmap string string)) (key : string) : string :=
  match env !! key with
  | Some (String a e) => String a e
  | _ => match store with
         | Some m => match m !! key with Some s => s | None => "" end
         | None => ""
         end
  end.

(** The environment once the secrets file has been read: every entry of
    the file is a variable, over any variable of the same name. *)
Definition overlaid (m env : gmap string string) : gmap string string :=
  m ∪ env.

(** The process once [st.secrets] has been used. *)
Definition parse_secrets (w : World) : World :=
  match secrets w with
  | Some m =>
      if secrets_parsed w then w else set_environ (overlaid m (environ w)) true w
  | None => w
  end.

(** The keys [load_api_keys] puts in its dictionary, in the order in which
    it looks them up. *)
Definition credential_keys : list string :=
  [ "OPENAI_API_KEY"; "DEEPSEEK_API_KEY"; "GEMINI_API_KEY";
    "OPENROUTER_API_KEY"; "GROQ_API_KEY"; "GROK_API_KEY" ].

Definition is_credential_key (key : string) : bool :=
  List.existsb (String.eqb key) credential_keys.

(** The keys of [l] up to and including [key]. *)
Fixpoint upto (key : string) (l : list string) : list string :=
  match l with
  | [] => []
  | k :: rest => if String.eqb k key then [k] else k :: upto key rest
  end.

(** The process after lookups of [keys]: [st.secrets] has been used when
    one of them is unset. *)
Definition world_at (w : World) (keys : list string) : World :=
  if List.existsb (unset (environ w)) keys then parse_secrets w else w.

(** The value [load_api_keys] finds for [key]: the answer in the
    environment as the lookups before it have left it. *)
Definition loaded_key (w : World) (key : string) : string :=
  resolved (environ (world_at w (upto key credential_keys))) (secrets w) key.

(** [w] with [keys] as the cached key dictionary. *)
Definition with_cached_keys (keys : gmap string string) (w : World) : World :=
  set_session {| ss_api_keys := Some keys;
                 ss_custom_models := ss_custom_models (session_state w) |} w.

(** A fresh process whose environment sets OPENAI_API_KEY and
    ANTHROPIC_API_KEY and whose secrets file has OPENAI_API_KEY and
    GROQ_API_KEY. *)
Definition keyed_world : World :=
  {| environ := <["OPENAI_API_KEY" := "sk-env"]>
                  (<["ANTHROPIC_API_KEY" := "sk-ant"]> ∅);
     secrets := Some (<["OPENAI_API_KEY" := "sk-file"]>
                        (<["GROQ_API_KEY" := "gsk-file"]> ∅));
     session_state := no_session;
     db := db team_world; conn := None; faults := []; struck := 0;
     now := 2000; legacy_file := None; backup_file := None;
     secrets_parsed := false; model_configs_key := None |}.

(** A fresh process in which GROQ_API_KEY is set both in the environment
    and in the secrets file, and no other key is set. *)
Definition groq_keyed_world : World :=
  {| environ := <["GROQ_API_KEY" := "gsk-env"]> ∅;
     secrets := Some (<["GROQ_API_KEY" := "gsk-file"]> ∅);
     session_state := no_session;
     db := db fresh_world; conn := None; faults := []; struck := 0;
     now := 2000; legacy_file := None; backup_file := None;
     secrets_parsed := false; model_configs_key := None |}.

(** *** The catalogue of available models *)

(** The entry [get_all_available_models] builds for a stored profile,
    its key looked up in [keys]. *)
Definition custom_entry (keys : gmap string string) (r : row) : model_dict :=
  {| d_id := None; d_name := Some (r_name r);
     d_provider := Some (r_provider r);
     d_api_provider := None;
     d_config :=
       Some {| c_model := Some (r_model_id r);
               c_temperature := Some (r_temperature r);
               c_base_url := Some (r_base_url r);
               c_api_key :=
                 Some (dict_get (keys !! (r_api_provider r +:+ "_API_KEY")) "");
               c_response_format := None;
               c_model_info := None |} |}.

(** The entry it builds for a built-in configuration: the configuration
    with ["api_key"] replaced by the key of its family. *)
Definition builtin_entry (keys : gmap string string) (config : model_dict)
    : model_dict :=
  {| d_id := d_id config; d_name := d_name config;
     d_provider := d_provider config;
     d_api_provider := d_api_provider config;
     d_config :=
       match d_config config with
       | Some c =>
           Some {| c_model := c_model c; c_base_url := c_base_url c;
                   c_api_key := Some (dict_get (keys !! builtin_key config) "");
                   c_temperature := c_temperature c;
                   c_response_format := c_response_format c;
                   c_model_info := c_model_info c |}
       | None => None
       end |}.

(** The dictionary after [d[key x] = val x] for each [x] of [l] in turn,
    starting from [acc]. *)
Definition insert_all {X V : Type} (key : X -> string) (val : X -> V)
    (l : list X) (acc : gmap string V) : gmap string V :=
  List.fold_left (fun m x => <[key x := val x]> m) l acc.

(** *** What a call does not look at *)

(** A computation whose outcome and effects are the same whatever the
    session holds, and which leaves the session as it is. *)
Definition session_blind {A} (m : M A) : Prop :=
  forall s w, m (set_session s w) = (fst (m w), set_session s (snd (m w))).

(** * Properties *)

(** ** Fault-free runs of the store operations *)

Lemma bind_run {A B} (m : M A) (k : A -> M B) (w : World) :
  bind m k w = match m w with
               | (Ok a, w') => k a w'
               | (Raise e, w') => (Raise e, w')
               end.
Proof. reflexivity. Qed.

Ltac py_unfold :=
  cbv beta iota zeta delta
    [bind ret raise try_except try_finally gets modify subscript
     api_database.get_connection api_database.init_database
     sqlite3_connect conn_commit conn_rollback conn_close cursor_execute
     io_fault set_conn set_db set_faults set_session set_files
     environ secrets session_state db conn faults struck now
     legacy_file backup_file secrets_parsed model_configs_key fst snd
     create_custom_models create_provider_settings with_custom_models
     put_custom_models insert_custom_model select_all_order_by_name
     select_by_name update_where_name delete_where_name
     custom_models provider_settings t_rows t_seq].

Ltac py_world w :=
  let f := fresh "f" in
  destruct w as [?env ?sec ?ss ?d ?c f ?k ?n ?lf ?bf]; simpl;
  try (intros ->).

Lemma rows_of_ensure_tables (d : database) :
  rows_of (ensure_tables d) = rows_of d.
Proof. destruct d as [[t|] p]; reflexivity. Qed.

Lemma ensure_tables_idem (d : database) :
  ensure_tables (ensure_tables d) = ensure_tables d.
Proof. destruct d as [[t|] [p|]]; reflexivity. Qed.

Lemma init_database_nofault (w : World) :
  faults w = [] ->
  api_database.init_database w
  = (Ok tt, set_conn None (set_db (ensure_tables (db w)) w)).
Proof.
  destruct w as [env sec ss d c f k n lf bf]; simpl; intros ->.
  destruct d as [[t|] [p|]]; reflexivity.
Qed.

Lemma add_custom_model_nofault (w : World)
    (name model_id provider base_url : string) (temperature : Q)
    (api_provider : string) :
  faults w = [] ->
  api_database.add_custom_model name model_id provider base_url
                                temperature api_provider w
  = if has_name name (db w)
    then (Ok false, set_conn None (set_db (ensure_tables (db w)) w))
    else (Ok true,
          set_conn None
            (set_db (put_custom_models
                       {| t_rows := rows_of (db w) ++
                            [inserted_row
                               {| f_name := name; f_provider := provider;
                                  f_model_id := model_id;
                                  f_base_url := base_url;
                                  f_temperature := temperature;
                                  f_api_provider := api_provider |}
                               (now w) (db w)];
                          t_seq := seq_of (db w) + 1 |}
                       (ensure_tables (db w))) w)).
Proof.
  py_world w. unfold api_database.add_custom_model, has_name, rows_of.
  destruct d as [[[rows sq]|] [p|]]; py_unfold;
    try (destruct (existsb (name_is name) rows)); reflexivity.
Qed.

Lemma rowcount_positive (name : string) (rows : list row) :
  (0 <? length (List.filter (name_is name) rows))%nat
  = List.existsb (name_is name) rows.
Proof.
  induction rows as [|r rows IH]; simpl; [reflexivity|].
  destruct (name_is name r); simpl; [reflexivity | exact IH].
Qed.

Lemma find_is_some (name : string) (rows : list row) :
  match List.find (name_is name) rows with Some _ => true | None => false end
  = List.existsb (name_is name) rows.
Proof.
  induction rows as [|r rows IH]; simpl; [reflexivity|].
  destruct (name_is name r); simpl; [reflexivity | exact IH].
Qed.

Lemma updates_of_nil model_id provider base_url temperature api_provider :
  updates_of model_id provider base_url temperature api_provider = []
  <-> none_supplied model_id provider base_url temperature api_provider = true.
Proof.
  destruct model_id, provider, base_url, temperature, api_provider;
    simpl; split; intros H; try reflexivity; discriminate H.
Qed.

Lemma assign_updates model_id provider base_url temperature api_provider ts r :
  List.fold_left (assign ts)
    (updates_of model_id provider base_url temperature api_provider
       ++ [SetUpdatedAtNow]) r
  = partially_updated model_id provider base_url temperature api_provider ts r.
Proof.
  destruct r, model_id, provider, base_url, temperature, api_provider;
    reflexivity.
Qed.

Lemma update_custom_model_nofault (w : World) (name : string)
    (model_id provider base_url : option string) (temperature : option Q)
    (api_provider : option string) :
  faults w = [] ->
  api_database.update_custom_model name model_id provider base_url
                                   temperature api_provider w
  = if none_supplied model_id provider base_url temperature api_provider
    then (Ok true, set_conn None (set_db (ensure_tables (db w)) w))
    else (Ok (has_name name (db w)),
          set_conn None
            (set_db (put_custom_models
                       {| t_rows :=
                            map (fun r =>
                                   if name_is name r
                                   then partially_updated model_id provider
                                          base_url temperature api_provider
                                          (now w) r
                                   else r) (rows_of (db w));
                          t_seq := seq_of (db w) |}
                       (ensure_tables (db w))) w)).
Proof.
  py_world w.
  change (api_database.update_custom_model name model_id provider base_url
            temperature api_provider)
    with (run api_database.init_database in
          try_except
            (api_database.get_connection
               (match updates_of model_id provider base_url temperature
                                 api_provider with
                | [] => ret true
                | _ :: _ =>
                    let* rowcount :=
                      cursor_execute
                        (update_where_name
                           (updates_of model_id provider base_url temperature
                              api_provider ++ [SetUpdatedAtNow]) name) in
                    ret (0 <? rowcount)%nat
                end))
            (fun _ => ret false)).
  pose proof (updates_of_nil model_id provider base_url temperature
                api_provider) as Hnil.
  pose proof (assign_updates model_id provider base_url temperature
                api_provider) as Hassign.
  destruct (updates_of model_id provider base_url temperature api_provider)
    as [|a us] eqn:Eu.
  - rewrite (proj1 Hnil eq_refl).
    destruct d as [[[rows sq]|] [p|]]; py_unfold; reflexivity.
  - destruct (none_supplied model_id provider base_url temperature api_provider).
    { destruct Hnil as [_ Hnil]. discriminate (Hnil eq_refl). }
    unfold has_name, rows_of.
    destruct d as [[[rows sq]|] [p|]]; py_unfold;
      rewrite ?rowcount_positive; simpl; try reflexivity;
      match goal with
      | |- context [map ?f rows] =>
          rewrite (map_ext f
                     (fun r => if name_is name r
                               then partially_updated model_id provider
                                      base_url temperature api_provider n r
                               else r))
      end; try reflexivity;
      intros r; destruct (name_is name r); try reflexivity;
      rewrite <- Hassign; reflexivity.
Qed.

Lemma delete_custom_model_nofault (w : World) (name : string) :
  faults w = [] ->
  api_database.delete_custom_model name w
  = (Ok (has_name name (db w)),
     set_conn None
       (set_db (put_custom_models
                  {| t_rows := List.filter (fun r => negb (name_is name r))
                                           (rows_of (db w));
                     t_seq := seq_of (db w) |}
                  (ensure_tables (db w))) w)).
Proof.
  py_world w. unfold api_database.delete_custom_model, has_name, rows_of.
  destruct d as [[[rows sq]|] [p|]]; py_unfold;
    rewrite ?rowcount_positive; reflexivity.
Qed.

Lemma model_exists_nofault (w : World) (name : string) :
  faults w = [] ->
  api_database.model_exists name w
  = (Ok (has_name name (db w)),
     set_conn None (set_db (ensure_tables (db w)) w)).
Proof.
  py_world w. unfold api_database.model_exists, has_name, rows_of.
  destruct d as [[[rows sq]|] [p|]]; py_unfold;
    rewrite ?find_is_some; reflexivity.
Qed.

Lemma get_all_custom_models_nofault (w : World) :
  faults w = [] ->
  api_database.get_all_custom_models w
  = (Ok (map api_database.row_to_dict (order_by_name (rows_of (db w)))),
     set_conn None (set_db (ensure_tables (db w)) w)).
Proof.
  py_world w. unfold api_database.get_all_custom_models, rows_of.
  destruct d as [[[rows sq]|] [p|]]; py_unfold; reflexivity.
Qed.

Lemma get_custom_model_by_name_nofault (w : World) (name : string) :
  faults w = [] ->
  api_database.get_custom_model_by_name name w
  = (Ok (option_map api_database.row_to_dict
           (List.find (name_is name) (rows_of (db w)))),
     set_conn None (set_db (ensure_tables (db w)) w)).
Proof.
  py_world w. unfold api_database.get_custom_model_by_name, rows_of.
  destruct d as [[[rows sq]|] [p|]]; py_unfold;
    try (destruct (List.find (name_is name) rows)); reflexivity.
Qed.

(** ** Runs under an arbitrary fault schedule *)

Lemma init_database_any (w : World) :
  exists r w1,
    api_database.init_database w = (r, w1) /\
    rows_of (db w1) = rows_of (db w) /\
    now w1 = now w /\ session_state w1 = session_state w /\
    ((r = Ok tt /\ struck w1 = struck w) \/
     (r = Raise OperationalError /\ struck w1 = S (struck w))).
Proof.
  destruct w as [env sec ss d c f k n lf bf].
  destruct d as [[[rows sq]|] [p|]];
    do 5 (try (destruct f as [|[] f])); py_unfold;
    eexists; eexists; (split; [reflexivity|]); simpl; auto 6.
Qed.

Lemma guarded_statement_any {R} (stmt : statement R) (g : R -> bool)
    (h : exn -> M bool) (w : World) :
  (forall e, h e = ret false) ->
  exists r w',
    try_except
      (api_database.get_connection
         (let* x := cursor_execute stmt in ret (g x))) h w = (r, w') /\
    session_state w' = session_state w /\
    ((struck w' = S (struck w) /\ r = Ok false /\ db w' = db w) \/
     (struck w' = struck w /\
      match stmt (now w) (db w) with
      | Ok (x, d') => r = Ok (g x) /\ db w' = d'
      | Raise _ => r = Ok false /\ db w' = db w
      end)).
Proof.
  intros Hh. destruct w as [env sec ss d c f k n lf bf].
  do 3 (try (destruct f as [|[] f])); py_unfold; rewrite ?Hh; py_unfold;
    try (destruct (stmt n d) as [[x d']|e]; rewrite ?Hh; py_unfold);
    eexists; eexists; (split; [reflexivity|]); simpl; auto 6.
Qed.

Lemma guarded_return_any (b : bool) (h : exn -> M bool) (w : World) :
  (forall e, h e = ret false) ->
  exists r w',
    try_except (api_database.get_connection (ret b)) h w = (r, w') /\
    session_state w' = session_state w /\
    db w' = db w /\
    ((struck w' = S (struck w) /\ r = Ok false) \/
     (struck w' = struck w /\ r = Ok b)).
Proof.
  intros Hh. destruct w as [env sec ss d c f k n lf bf].
  do 2 (try (destruct f as [|[] f])); py_unfold; rewrite ?Hh; py_unfold;
    eexists; eexists; (split; [reflexivity|]); simpl; auto 6.
Qed.

Lemma update_custom_model_eq (name : string)
    (model_id provider base_url : option string) (temperature : option Q)
    (api_provider : option string) :
  api_database.update_custom_model name model_id provider base_url
                                   temperature api_provider
  = (run api_database.init_database in
     try_except
       (api_database.get_connection
          (match updates_of model_id provider base_url temperature
                            api_provider with
           | [] => ret true
           | _ :: _ =>
               let* rowcount :=
                 cursor_execute
                   (update_where_name
                      (updates_of model_id provider base_url temperature
                         api_provider ++ [SetUpdatedAtNow]) name) in
               ret (0 <? rowcount)%nat
           end))
       (fun _ => ret false)).
Proof. reflexivity. Qed.

(** A fault inside the transaction of a store operation comes back as
    [False]; the rows are those before the call. *)
Lemma guarded_statement_fault {R} (stmt : statement R) (g : R -> bool)
    (h : exn -> M bool) (w : World) :
  (forall e, h e = ret false) ->
  let m := try_except
             (api_database.get_connection
                (let* x := cursor_execute stmt in ret (g x))) h in
  struck (snd (m w)) <> struck w ->
  fst (m w) = Ok false /\ db (snd (m w)) = db w.
Proof.
  intros Hh m Hs. subst m.
  destruct (guarded_statement_any stmt g h w Hh) as (r & w' & E & _ & H).
  rewrite E in *. simpl in *.
  destruct H as [(_ & Hr & Hd) | (Hk & _)]; [auto | contradiction].
Qed.

(** C2, in the form the code satisfies: for every create, update and delete of the store and
    every fault schedule, when a fault strikes during the call the rows of
    the store are exactly those before the call; the fault reaches the
    caller as an exception only when it struck in the [init_database] that
    opens the call, and a fault inside the operation's own transaction,
    rolled back and re-raised by [get_connection], is caught by the
    operation and returned as [False]. *)
Theorem store_fault_rolled_back (op : mutation) (w : World) :
  struck (snd (perform op w)) <> struck w ->
  rows_of (db (snd (perform op w))) = rows_of (db w) /\
  (struck (snd (api_database.init_database w)) <> struck w ->
   fst (perform op w) = Raise OperationalError) /\
  (struck (snd (api_database.init_database w)) = struck w ->
   fst (perform op w) = Ok false).
Proof.
  destruct (init_database_any w) as (r0 & w1 & E0 & Hrows & _ & _ & H0).
  rewrite E0. simpl snd.
  assert (Hstep : forall (m : M bool),
            (struck (snd (m w1)) <> struck w1 ->
             fst (m w1) = Ok false /\ rows_of (db (snd (m w1))) = rows_of (db w1)) ->
            let body := (run api_database.init_database in m) in
            struck (snd (body w)) <> struck w ->
            rows_of (db (snd (body w))) = rows_of (db w) /\
            (struck w1 <> struck w -> fst (body w) = Raise OperationalError) /\
            (struck w1 = struck w -> fst (body w) = Ok false)).
  { intros m Hm body. subst body. unfold bind. rewrite E0.
    destruct H0 as [(-> & Hk) | (-> & Hk)].
    - rewrite Hk in Hm. intros Hs. destruct (Hm Hs) as (Hr & Hd).
      rewrite Hd, Hrows. split; [reflexivity|].
      split; [intros; lia | auto].
    - simpl. intros _. split; [exact Hrows|].
      split; [reflexivity | intros; lia]. }
  destruct op as [name mi pr bu te ap | name mi pr bu te ap | name].
  - apply Hstep. intros Hs.
    pose proof (guarded_statement_fault
                  (insert_custom_model name pr mi bu te ap) (fun _ => true)
                  (fun e => match e with
                            | IntegrityError => ret false
                            | _ => ret false
                            end) w1) as G.
    destruct G as (Hr & Hd); [intros []; reflexivity | exact Hs |].
    split; [exact Hr | now f_equal].
  - unfold perform. rewrite update_custom_model_eq. apply Hstep. intros Hs.
    destruct (updates_of mi pr bu te ap) as [|a us].
    + destruct (guarded_return_any true (fun _ => ret false) w1)
        as (r & w' & E & _ & Hd & H); [reflexivity|].
      rewrite E in *. simpl in *.
      destruct H as [(_ & ->) | (Hk & _)]; [|contradiction].
      split; [reflexivity | now f_equal].
    + pose proof (guarded_statement_fault
                    (update_where_name ((a :: us) ++ [SetUpdatedAtNow]) name)
                    (fun rowcount => (0 <? rowcount)%nat)
                    (fun _ => ret false) w1) as G.
      destruct G as (Hr & Hd); [reflexivity | exact Hs |].
      split; [exact Hr | now f_equal].
  - apply Hstep. intros Hs.
    pose proof (guarded_statement_fault
                  (delete_where_name name)
                  (fun rowcount => (0 <? rowcount)%nat)
                  (fun _ => ret false) w1) as G.
    destruct G as (Hr & Hd); [reflexivity | exact Hs |].
    split; [exact Hr | now f_equal].
Qed.

Lemma store_fault_rolled_back_witness :
  struck (snd (perform create_team_gpt faulty_world)) <> struck faulty_world /\
  rows_of (db (snd (perform create_team_gpt faulty_world)))
  = rows_of (db faulty_world) /\
  fst (perform create_team_gpt faulty_world) = Ok false.
Proof.
  assert (H : struck (snd (perform create_team_gpt faulty_world))
              <> struck faulty_world)
    by (vm_compute; discriminate).
  destruct (store_fault_rolled_back create_team_gpt faulty_world H)
    as (Hrows & _ & Hfalse).
  split; [exact H|]. split; [exact Hrows|].
  apply Hfalse. vm_compute. reflexivity.
Defined.

(** Counterexample to C2 as stated: a fault at the INSERT of [add_custom_model] is
    not re-raised to the caller, the call returns [False]. *)
Lemma statement_fault_returns_false :
  struck (snd (perform create_team_gpt faulty_world))
  = S (struck faulty_world) /\
  fst (perform create_team_gpt faulty_world) = Ok false /\
  ~ (exists e, fst (perform create_team_gpt faulty_world) = Raise e).
Proof.
  split; [vm_compute; reflexivity|]. split; [vm_compute; reflexivity|].
  intros [e H]. vm_compute in H. discriminate H.
Qed.

(** ** Names in the store *)

Lemma name_is_true (name : string) (r : row) :
  name_is name r = true <-> r_name r = name.
Proof. unfold name_is. apply String.eqb_eq. Qed.

Lemma has_name_In (name : string) (d : database) :
  has_name name d = true <-> In name (names_of d).
Proof.
  unfold has_name, names_of. rewrite existsb_exists, in_map_iff.
  split; intros (r & H1 & H2).
  - exists r. split; [apply name_is_true|]; assumption.
  - exists r. split; [|apply name_is_true]; assumption.
Qed.

Lemma has_name_false (name : string) (d : database) :
  has_name name d = false <-> ~ In name (names_of d).
Proof.
  rewrite <- has_name_In. destruct (has_name name d); split; intros H;
    try reflexivity; try discriminate H; try (intros H'; discriminate H').
  exfalso; apply H; reflexivity.
Qed.

Lemma has_name_rows (name : string) (d d' : database) :
  rows_of d' = rows_of d -> has_name name d' = has_name name d.
Proof. unfold has_name. intros ->. reflexivity. Qed.

Lemma world_settled (w : World) :
  conn w = None -> ensure_tables (db w) = db w ->
  set_conn None (set_db (ensure_tables (db w)) w) = w.
Proof.
  destruct w as [env sec ss d c f k n lf bf]; simpl.
  intros -> ->. reflexivity.
Qed.

Lemma ensure_tables_put (t : table) (d : database) :
  ensure_tables (put_custom_models t (ensure_tables d))
  = put_custom_models t (ensure_tables d).
Proof. destruct d as [[t0|] [p|]]; reflexivity. Qed.

(** ** What one call does, fault-free *)

Lemma same_process_refl (w : World) : same_process w w.
Proof. repeat split. Qed.

Lemma same_process_trans (w1 w2 w3 : World) :
  same_process w1 w2 -> same_process w2 w3 -> same_process w1 w3.
Proof.
  unfold same_process. intros (A & B & C & D & E) (A' & B' & C' & D' & E').
  repeat split; congruence.
Qed.

Lemma create_run (p : profile) (w : World) :
  faults w = [] ->
  exists w',
    create p w = (Ok (negb (has_name (f_name p) (db w))), w') /\
    settled w' /\ same_process w w' /\
    session_state w' = session_state w /\
    rows_of (db w')
    = (if has_name (f_name p) (db w) then rows_of (db w)
       else rows_of (db w) ++ [inserted_row p (now w) (db w)]).
Proof.
  intros Hf. unfold create. rewrite add_custom_model_nofault by exact Hf.
  destruct p as [nm pr mi bu te ap]; simpl.
  destruct (has_name nm (db w)); eexists; (split; [reflexivity|]);
    unfold settled, same_process; simpl;
    rewrite ?ensure_tables_idem, ?ensure_tables_put,
            ?rows_of_ensure_tables; auto 10.
Qed.

Lemma create_existing (p : profile) (w : World) :
  settled w -> has_name (f_name p) (db w) = true ->
  create p w = (Ok false, w).
Proof.
  intros (Hf & Hc & He) Hn. unfold create.
  rewrite add_custom_model_nofault by exact Hf.
  rewrite Hn, world_settled by assumption. reflexivity.
Qed.

Lemma model_exists_run (name : string) (w : World) :
  faults w = [] ->
  exists w',
    api_database.model_exists name w = (Ok (has_name name (db w)), w') /\
    settled w' /\ same_process w w' /\
    session_state w' = session_state w /\
    rows_of (db w') = rows_of (db w) /\ seq_of (db w') = seq_of (db w).
Proof.
  intros Hf. rewrite model_exists_nofault by exact Hf.
  eexists; split; [reflexivity|].
  unfold settled, same_process; simpl.
  rewrite ensure_tables_idem, rows_of_ensure_tables.
  repeat split; auto. destruct (db w) as [[t|] q]; reflexivity.
Qed.

Lemma model_exists_settled (name : string) (w : World) :
  settled w ->
  api_database.model_exists name w = (Ok (has_name name (db w)), w).
Proof.
  intros (Hf & Hc & He). rewrite model_exists_nofault by exact Hf.
  rewrite world_settled by assumption. reflexivity.
Qed.

Lemma inserted_row_same (p : profile) (ts : Z) (d d' : database) :
  seq_of d' = seq_of d -> inserted_row p ts d' = inserted_row p ts d.
Proof. unfold inserted_row. intros ->. reflexivity. Qed.

Lemma register_run (p : profile) (w : World) :
  faults w = [] ->
  exists w',
    register p w = (Ok (negb (has_name (f_name p) (db w))), w') /\
    settled w' /\ same_process w w' /\
    rows_of (db w')
    = (if has_name (f_name p) (db w) then rows_of (db w)
       else rows_of (db w) ++ [inserted_row (registered p) (now w) (db w)]) /\
    (if has_name (f_name p) (db w)
     then session_state w' = session_state w
     else ss_custom_models (session_state w') = None /\
          ss_api_keys (session_state w') = ss_api_keys (session_state w)).
Proof.
  intros Hf.
  destruct (model_exists_run (f_name p) w Hf)
    as (w1 & E1 & S1 & P1 & SS1 & R1 & Q1).
  destruct (create_run (registered p) w1 (proj1 S1))
    as (w2 & E2 & S2 & P2 & SS2 & R2).
  destruct p as [nm pr mi bu te ap].
  unfold register, api_manager.add_custom_model,
    api_manager.db_model_exists, api_manager.db_add_custom_model.
  unfold create in E2. simpl in *.
  unfold bind at 1. rewrite E1.
  rewrite (has_name_rows _ _ _ R1) in E2, R2.
  destruct (has_name nm (db w)) eqn:Hn.
  - exists w1. repeat split; try apply S1; try apply P1; assumption.
  - simpl in E2. unfold bind. rewrite E2.
    unfold api_manager.del_cached_custom_models, modify, ret.
    pose proof (same_process_trans _ _ _ P1 P2) as P12.
    destruct P1 as (_ & _ & N1 & _).
    rewrite R1, N1, (inserted_row_same _ _ _ _ Q1) in R2.
    destruct S2 as (F2 & C2 & T2). unfold settled.
    destruct (ss_custom_models (session_state w2)) eqn:Ec;
      eexists; (split; [reflexivity|]); simpl; rewrite ?Ec;
      repeat split; try assumption; try apply P12; congruence.
Qed.

(** ** Creating the same name again and again *)

Section same_name.

Variable enter : profile -> M bool.
Variable stored : profile -> profile.

Hypothesis stored_name : forall p, f_name (stored p) = f_name p.

Hypothesis enter_run : forall p w,
  faults w = [] ->
  exists w',
    enter p w = (Ok (negb (has_name (f_name p) (db w))), w') /\
    faults w' = [] /\
    rows_of (db w')
    = (if has_name (f_name p) (db w) then rows_of (db w)
       else rows_of (db w) ++ [inserted_row (stored p) (now w) (db w)]).

Lemma rejected_while_present (name : string) (ps : list profile) (w : World) :
  faults w = [] ->
  Forall (fun q => f_name q = name) ps ->
  has_name name (db w) = true ->
  exists w',
    sequence (map enter ps) w = (Ok (repeat false (length ps)), w') /\
    faults w' = [] /\ rows_of (db w') = rows_of (db w).
Proof.
  intros Hf Hall. revert w Hf.
  induction Hall as [|q ps Hq Hall IH]; intros w Hf Hn; simpl.
  - exists w. repeat split; assumption.
  - destruct (enter_run q w Hf) as (w1 & E1 & F1 & R1).
    rewrite Hq, Hn in E1, R1. simpl in E1.
    destruct (IH w1 F1) as (w2 & E2 & F2 & R2).
    { rewrite (has_name_rows _ _ _ R1). exact Hn. }
    exists w2. unfold bind. rewrite E1, E2. unfold ret.
    repeat split; [assumption | congruence].
Qed.

Lemma accepted_once (name : string) (p : profile) (ps : list profile)
    (w : World) :
  faults w = [] ->
  f_name p = name ->
  Forall (fun q => f_name q = name) ps ->
  has_name name (db w) = false ->
  exists w',
    sequence (map enter (p :: ps)) w
    = (Ok (true :: repeat false (length ps)), w') /\
    rows_of (db w')
    = rows_of (db w) ++ [inserted_row (stored p) (now w) (db w)] /\
    rows_of (db w') = rows_of (db (snd (enter p w))) /\
    (NoDup (names_of (db w)) -> NoDup (names_of (db w'))).
Proof.
  intros Hf Hp Hall Hn. simpl.
  destruct (enter_run p w Hf) as (w1 & E1 & F1 & R1).
  rewrite Hp, Hn in E1, R1. simpl in E1.
  destruct (rejected_while_present name ps w1 F1 Hall) as (w2 & E2 & F2 & R2).
  { apply has_name_In. unfold names_of. rewrite R1, map_app, in_app_iff.
    right. simpl. left. rewrite stored_name. exact Hp. }
  exists w2. unfold bind. rewrite E1, E2. unfold ret. simpl.
  split; [reflexivity|]. split; [congruence|]. split; [congruence|].
  intros Hnd. unfold names_of. rewrite R2, R1, map_app. simpl.
  rewrite stored_name, Hp.
  apply NoDup_app. split; [exact Hnd|]. split.
  - intros x Hx Hx'. apply list_elem_of_In in Hx, Hx'.
    destruct Hx' as [<-|[]].
    apply has_name_false in Hn. contradiction.
  - apply NoDup_singleton.
Qed.

End same_name.

(** ** Migration of legacy records *)

Lemma migrate_loop_cons (m : model_dict) (rest : list model_dict) (acc : nat) :
  api_database.migrate_loop (m :: rest) acc
  = if migratable m
    then (let* success := create (record_profile m) in
          api_database.migrate_loop rest (if success : bool then S acc else acc))
    else api_database.migrate_loop rest acc.
Proof.
  unfold migratable. simpl.
  destruct (py_not (dict_get (d_name m) "")
            || py_not_opt (c_model (dict_get (d_config m) empty_config)));
    reflexivity.
Qed.

Lemma has_name_grows (x : string) (d d' : database) (r : list row) :
  rows_of d' = rows_of d ++ r ->
  has_name x d = true -> has_name x d' = true.
Proof.
  unfold has_name. intros ->. rewrite existsb_app. intros ->. reflexivity.
Qed.

Lemma migrate_loop_run (recs : list model_dict) :
  forall (acc : nat) (w : World),
    settled w ->
    exists n w',
      api_database.migrate_loop recs acc w = (Ok n, w') /\
      settled w' /\ same_process w w' /\
      session_state w' = session_state w /\
      (forall x, has_name x (db w) = true -> has_name x (db w') = true) /\
      (forall m, In m recs -> migratable m = true ->
                 has_name (record_name m) (db w') = true).
Proof.
  induction recs as [|m rest IH]; intros acc w Hs.
  - exists acc, w. simpl. repeat split; auto; try apply Hs; intros m [].
  - rewrite migrate_loop_cons. destruct (migratable m) eqn:Hm.
    + destruct (create_run (record_profile m) w (proj1 Hs))
        as (w1 & E1 & S1 & P1 & SS1 & R1).
      destruct (IH (if negb (has_name (f_name (record_profile m)) (db w))
                    then S acc else acc) w1 S1)
        as (n & w2 & E2 & S2 & P2 & SS2 & Hmono & Hin).
      exists n, w2. unfold bind. rewrite E1, E2.
      assert (Hgrow : forall x, has_name x (db w) = true ->
                                has_name x (db w1) = true).
      { intros x Hx.
        destruct (has_name (f_name (record_profile m)) (db w)).
        - rewrite (has_name_rows _ _ _ R1). exact Hx.
        - eapply has_name_grows; [exact R1 | exact Hx]. }
      repeat split; auto; try apply S2;
        try (eapply same_process_trans; [exact P1 | exact P2]);
        try congruence.
      intros m' [<-|Hin'] Hm'; [|auto].
      apply Hmono.
      destruct (has_name (f_name (record_profile m)) (db w)) eqn:Hn.
      * apply Hgrow. exact Hn.
      * apply has_name_In. unfold names_of. rewrite R1, map_app, in_app_iff.
        right. left. reflexivity.
    + destruct (IH acc w Hs) as (n & w2 & E2 & S2 & P2 & SS2 & Hmono & Hin).
      exists n, w2. repeat split; auto; try apply S2; try apply P2.
      intros m' [<-|Hin'] Hm'; [congruence | auto].
Qed.

Lemma migrate_loop_nothing_new (recs : list model_dict) :
  forall (acc : nat) (w : World),
    settled w ->
    (forall m, In m recs -> migratable m = true ->
               has_name (record_name m) (db w) = true) ->
    api_database.migrate_loop recs acc w = (Ok acc, w).
Proof.
  induction recs as [|m rest IH]; intros acc w Hs Hall; [reflexivity|].
  rewrite migrate_loop_cons. destruct (migratable m) eqn:Hm.
  - unfold bind. rewrite create_existing; [|exact Hs|].
    + apply IH; [exact Hs|]. intros m' Hin. apply Hall. right. exact Hin.
    + apply Hall; [left; reflexivity | exact Hm].
  - apply IH; [exact Hs|]. intros m' Hin. apply Hall. right. exact Hin.
Qed.

Lemma init_database_settles (w : World) :
  faults w = [] ->
  exists w0,
    api_database.init_database w = (Ok tt, w0) /\
    settled w0 /\ same_process w w0 /\
    session_state w0 = session_state w /\
    rows_of (db w0) = rows_of (db w) /\ seq_of (db w0) = seq_of (db w).
Proof.
  intros Hf. rewrite init_database_nofault by exact Hf.
  eexists; split; [reflexivity|]. unfold settled, same_process; simpl.
  rewrite ensure_tables_idem, rows_of_ensure_tables.
  repeat split; auto. destruct (db w) as [[t|] q]; reflexivity.
Qed.

Lemma init_database_settled (w : World) :
  settled w -> api_database.init_database w = (Ok tt, w).
Proof.
  intros (Hf & Hc & He). rewrite init_database_nofault by exact Hf.
  rewrite world_settled by assumption. reflexivity.
Qed.

(** C4: in a fault-free run [migrate_from_json] returns a count, and
    running it again on the same records in the resulting world reports
    zero records migrated and leaves that world, the store included,
    exactly as the first run left it: every record that passes the check
    finds its name in the store and is skipped. *)
Theorem migrate_twice_same_store (json_models : list model_dict) (w : World) :
  faults w = [] ->
  exists n w1,
    api_database.migrate_from_json json_models w = (Ok n, w1) /\
    api_database.migrate_from_json json_models w1 = (Ok 0, w1).
Proof.
  intros Hf. unfold api_database.migrate_from_json.
  destruct (init_database_settles w Hf) as (w0 & E0 & S0 & _).
  destruct (migrate_loop_run json_models 0 w0 S0)
    as (n & w1 & E1 & S1 & _ & _ & _ & Hin).
  exists n, w1. unfold bind. rewrite E0, E1.
  split; [reflexivity|].
  rewrite init_database_settled by exact S1.
  apply migrate_loop_nothing_new; assumption.
Qed.

Lemma migrate_twice_same_store_witness :
  faults fresh_world = [] /\
  exists n w1,
    api_database.migrate_from_json [legacy_old1] fresh_world = (Ok n, w1) /\
    api_database.migrate_from_json [legacy_old1] w1 = (Ok 0, w1).
Proof.
  split; [reflexivity|].
  apply (migrate_twice_same_store [legacy_old1] fresh_world). reflexivity.
Defined.

Lemma migrate_from_json_run (json_models : list model_dict) (w : World) :
  faults w = [] ->
  exists n w1,
    api_database.migrate_from_json json_models w = (Ok n, w1) /\
    settled w1 /\ same_process w w1 /\
    session_state w1 = session_state w /\
    (forall x, has_name x (db w) = true -> has_name x (db w1) = true).
Proof.
  intros Hf. unfold api_database.migrate_from_json.
  destruct (init_database_settles w Hf) as (w0 & E0 & S0 & P0 & SS0 & R0 & _).
  destruct (migrate_loop_run json_models 0 w0 S0)
    as (n & w1 & E1 & S1 & P1 & SS1 & Hmono & _).
  exists n, w1. unfold bind. rewrite E0, E1.
  repeat split; try apply S1;
    try (eapply same_process_trans; [exact P0 | exact P1]);
    try congruence.
  intros x Hx. apply Hmono. rewrite (has_name_rows _ _ _ R0). exact Hx.
Qed.

(** ** Export and re-import *)

Lemma insert_by_name_perm (r : row) (l : list row) :
  Permutation (insert_by_name r l) (r :: l).
Proof.
  induction l as [|x l IH]; simpl; [reflexivity|].
  destruct (String.leb (r_name r) (r_name x)); [reflexivity|].
  rewrite IH. apply perm_swap.
Qed.

Lemma order_by_name_perm (l : list row) : Permutation (order_by_name l) l.
Proof.
  induction l as [|x l IH]; simpl; [reflexivity|].
  rewrite insert_by_name_perm, IH. reflexivity.
Qed.

Lemma row_to_dict_migratable (r : row) :
  r_name r <> "" -> r_model_id r <> "" ->
  migratable (api_database.row_to_dict r) = true.
Proof.
  destruct r as [i nm pr mi bu te ap ca ua]; unfold migratable; simpl.
  intros Hn Hm. destruct nm; [contradiction|]. destruct mi; [contradiction|].
  reflexivity.
Qed.

Lemma row_to_dict_profile (r : row) :
  record_profile (api_database.row_to_dict r) = profile_of r.
Proof. destruct r; reflexivity. Qed.

Lemma profile_of_inserted (p : profile) (ts : Z) (d : database) :
  profile_of (inserted_row p ts d) = p.
Proof. destruct p; reflexivity. Qed.

Lemma has_name_snoc (x : string) (d d' : database) (r : row) :
  rows_of d' = rows_of d ++ [r] ->
  has_name x d' = has_name x d || name_is x r.
Proof.
  unfold has_name. intros ->. rewrite existsb_app. simpl.
  rewrite orb_false_r. reflexivity.
Qed.

Lemma migrate_exported_rows (rs : list row) :
  forall (acc : nat) (w : World),
    settled w ->
    NoDup (map r_name rs) ->
    (forall r, In r rs -> has_name (r_name r) (db w) = false) ->
    Forall (fun r => r_name r <> "" /\ r_model_id r <> "") rs ->
    exists w',
      api_database.migrate_loop (map api_database.row_to_dict rs) acc w
      = (Ok (acc + length rs), w') /\
      settled w' /\
      map profile_of (rows_of (db w'))
      = map profile_of (rows_of (db w)) ++ map profile_of rs.
Proof.
  induction rs as [|r rs IH]; intros acc w Hs Hnd Hfresh Hvalid.
  - exists w. simpl. rewrite Nat.add_0_r, app_nil_r. auto.
  - simpl map. rewrite migrate_loop_cons.
    apply Forall_cons_1 in Hvalid. destruct Hvalid as ((Hn & Hm) & Hvalid).
    rewrite row_to_dict_migratable by assumption.
    rewrite row_to_dict_profile.
    destruct (create_run (profile_of r) w (proj1 Hs))
      as (w1 & E1 & S1 & _ & _ & R1).
    change (f_name (profile_of r)) with (r_name r) in E1, R1.
    rewrite (Hfresh r (or_introl eq_refl)) in E1, R1. simpl in E1.
    apply NoDup_cons_1_1 in Hnd as Hnotin.
    apply NoDup_cons_1_2 in Hnd as Hnd'.
    destruct (IH (S acc) w1 S1 Hnd') as (w2 & E2 & S2 & R2); [|exact Hvalid|].
    + intros r' Hin. rewrite (has_name_snoc _ _ _ _ R1).
      rewrite (Hfresh r' (or_intror Hin)). simpl.
      unfold name_is. simpl. apply String.eqb_neq. intros Heq.
      apply Hnotin. apply list_elem_of_In. rewrite Heq.
      apply in_map. exact Hin.
    + exists w2. unfold bind. rewrite E1, E2.
      split; [f_equal; f_equal; simpl; lia|]. split; [exact S2|].
      rewrite R2, R1, map_app. simpl. rewrite profile_of_inserted.
      rewrite <- app_assoc. reflexivity.
Qed.

(** C10: take a store whose names are unique (the UNIQUE constraint of
    the schema) and whose rows all have a non-empty name and a non-empty
    model identifier.  In fault-free runs, the list
    [get_all_custom_models] returns, given to [migrate_from_json] against
    an empty store, is migrated in full (the count is the number of rows)
    and the new store holds, in order of name, rows with the same name,
    provider, model identifier, base URL, temperature and api_provider as
    the old ones. *)
Theorem export_then_migrate_round_trip (w w0 : World) :
  faults w = [] ->
  faults w0 = [] ->
  rows_of (db w0) = [] ->
  NoDup (names_of (db w)) ->
  Forall (fun r => r_name r <> "" /\ r_model_id r <> "") (rows_of (db w)) ->
  exists exported w1 w2,
    api_database.get_all_custom_models w = (Ok exported, w1) /\
    api_database.migrate_from_json exported w0
    = (Ok (length (rows_of (db w))), w2) /\
    map profile_of (rows_of (db w2))
    = map profile_of (order_by_name (rows_of (db w))) /\
    Permutation (map profile_of (rows_of (db w2)))
                (map profile_of (rows_of (db w))).
Proof.
  intros Hf Hf0 Hempty Hnd Hvalid.
  rewrite get_all_custom_models_nofault by exact Hf.
  pose proof (order_by_name_perm (rows_of (db w))) as Hperm.
  destruct (init_database_settles w0 Hf0) as (v & E0 & S0 & _ & _ & R0 & _).
  destruct (migrate_exported_rows (order_by_name (rows_of (db w))) 0 v S0)
    as (w2 & E2 & S2 & R2).
  - unfold names_of in Hnd. rewrite Hperm. exact Hnd.
  - intros r _. unfold has_name. rewrite R0, Hempty. reflexivity.
  - rewrite Hperm. exact Hvalid.
  - do 3 eexists. split; [reflexivity|].
    unfold api_database.migrate_from_json, bind. rewrite E0, E2.
    rewrite R0, Hempty in R2. simpl in R2.
    rewrite (Permutation_length Hperm).
    split; [reflexivity|]. split; [exact R2|].
    rewrite R2. apply Permutation_map. exact Hperm.
Qed.

Lemma export_then_migrate_round_trip_witness :
  faults team_world = [] /\
  faults fresh_world = [] /\
  rows_of (db fresh_world) = [] /\
  NoDup (names_of (db team_world)) /\
  Forall (fun r => r_name r <> "" /\ r_model_id r <> "")
         (rows_of (db team_world)) /\
  exists exported w1 w2,
    api_database.get_all_custom_models team_world = (Ok exported, w1) /\
    api_database.migrate_from_json exported fresh_world
    = (Ok (length (rows_of (db team_world))), w2) /\
    map profile_of (rows_of (db w2))
    = map profile_of (order_by_name (rows_of (db team_world))) /\
    Permutation (map profile_of (rows_of (db w2)))
                (map profile_of (rows_of (db team_world))).
Proof.
  assert (Hnd : NoDup (names_of (db team_world))).
  { apply NoDup_cons. split; [intros H; inversion H | apply NoDup_nil_2]. }
  assert (Hvalid : Forall (fun r => r_name r <> "" /\ r_model_id r <> "")
                          (rows_of (db team_world))).
  { repeat constructor; discriminate. }
  repeat (split; [first [reflexivity | assumption]|]).
  exact (export_then_migrate_round_trip team_world fresh_world
           eq_refl eq_refl eq_refl Hnd Hvalid).
Defined.

(** ** Partial update *)

Lemma map_unmatched (name : string) (f : row -> row) (rows : list row) :
  List.existsb (name_is name) rows = false ->
  map (fun r => if name_is name r then f r else r) rows = rows.
Proof.
  induction rows as [|r rows IH]; simpl; [reflexivity|].
  destruct (name_is name r); simpl; [discriminate|].
  intros H. rewrite IH by exact H. reflexivity.
Qed.

(** C7: in a fault-free run [update_custom_model] never touches the
    session; with no field supplied it returns [True] and leaves the rows
    as they are; with at least one field supplied it returns whether a
    row has the name, and every row with that name takes the supplied
    values and a fresh [updated_at] while its id, name, [created_at] and
    every field not supplied keep their values; the other rows are
    unchanged, and when no row has the name the rows are unchanged. *)
Theorem update_changes_supplied_fields_only (w : World) (name : string)
    (model_id provider base_url : option string) (temperature : option Q)
    (api_provider : option string) :
  faults w = [] ->
  exists w',
    api_database.update_custom_model name model_id provider base_url
                                     temperature api_provider w
    = (Ok (if none_supplied model_id provider base_url temperature api_provider
           then true else has_name name (db w)), w') /\
    session_state w' = session_state w /\
    rows_of (db w')
    = (if none_supplied model_id provider base_url temperature api_provider
       then rows_of (db w)
       else map (fun r => if name_is name r
                          then partially_updated model_id provider base_url
                                 temperature api_provider (now w) r
                          else r) (rows_of (db w))) /\
    (has_name name (db w) = false -> rows_of (db w') = rows_of (db w)) /\
    (forall r,
       let r' := partially_updated model_id provider base_url temperature
                   api_provider (now w) r in
       r_id r' = r_id r /\ r_name r' = r_name r /\
       r_created_at r' = r_created_at r /\
       r_updated_at r' = now w /\
       r_model_id r' = dict_get model_id (r_model_id r) /\
       r_provider r' = dict_get provider (r_provider r) /\
       r_base_url r' = dict_get base_url (r_base_url r) /\
       r_temperature r' = dict_get temperature (r_temperature r) /\
       r_api_provider r' = dict_get api_provider (r_api_provider r)).
Proof.
  intros Hf. rewrite update_custom_model_nofault by exact Hf.
  destruct (none_supplied model_id provider base_url temperature api_provider);
    eexists; (split; [reflexivity|]); simpl;
    rewrite ?rows_of_ensure_tables;
    (split; [reflexivity|]); (split; [reflexivity|]);
    (split; [|intros r; repeat split]); try reflexivity.
  intros Hn. apply map_unmatched. exact Hn.
Qed.

Lemma update_changes_supplied_fields_only_witness :
  faults team_world = [] /\
  fst (api_database.update_custom_model "TeamGPT" None None None
         (Some seven_tenths) None team_world) = Ok true /\
  map profile_of
    (rows_of (db (snd (api_database.update_custom_model "TeamGPT" None None
                         None (Some seven_tenths) None team_world))))
  = [ {| f_name := "TeamGPT"; f_provider := "OpenAIChatCompletionClient";
         f_model_id := "openai/gpt-4o";
         f_base_url := "https://openrouter.ai/api/v1";
         f_temperature := seven_tenths; f_api_provider := "OPENAI" |} ].
Proof.
  split; [reflexivity|].
  destruct (update_changes_supplied_fields_only team_world "TeamGPT" None
              None None (Some seven_tenths) None eq_refl)
    as (w' & E & _ & R & _).
  rewrite E. simpl fst. simpl snd. rewrite R.
  split; reflexivity.
Defined.

(** ** The legacy file *)

Lemma has_name_names (name : string) (d : database) :
  has_name name d = List.existsb (String.eqb name) (names_of d).
Proof.
  unfold has_name, names_of, name_is.
  induction (rows_of d) as [|r rows IH]; simpl; [reflexivity|].
  rewrite IH, (String.eqb_sym (r_name r) name). reflexivity.
Qed.

Lemma migrate_loop_accepts (json_models : list model_dict) :
  forall (acc : nat) (w : World),
    settled w ->
    exists w' new,
      api_database.migrate_loop json_models acc w
      = (Ok (acc + length (accepted json_models (names_of (db w)))), w') /\
      settled w' /\
      rows_of (db w') = rows_of (db w) ++ new /\
      map profile_of new
      = map record_profile (accepted json_models (names_of (db w))).
Proof.
  induction json_models as [|m rest IH]; intros acc w Hs.
  - exists w, []. simpl. rewrite Nat.add_0_r, app_nil_r. auto.
  - rewrite migrate_loop_cons. simpl accepted.
    rewrite <- has_name_names.
    destruct (migratable m) eqn:Hm; simpl andb.
    + destruct (create_run (record_profile m) w (proj1 Hs))
        as (w1 & E1 & S1 & _ & _ & R1).
      change (f_name (record_profile m)) with (record_name m) in E1, R1.
      rewrite bind_run, E1.
      destruct (has_name (record_name m) (db w)) eqn:Hn; simpl negb.
      * destruct (IH acc w1 S1) as (w2 & new & E2 & S2 & R2 & P2).
        unfold names_of in E2, P2. rewrite R1 in E2, R2, P2.
        exists w2, new. auto.
      * destruct (IH (S acc) w1 S1) as (w2 & new & E2 & S2 & R2 & P2).
        unfold names_of in *. rewrite R1, map_app in E2, P2.
        rewrite R1 in R2. simpl in E2, P2.
        change (f_name (record_profile m)) with (record_name m) in E2, P2.
        exists w2, (inserted_row (record_profile m) (now w) (db w) :: new).
        split; [rewrite E2; f_equal; f_equal; simpl; lia|].
        split; [exact S2|].
        split; [rewrite R2, <- app_assoc; reflexivity|].
        simpl. rewrite profile_of_inserted, P2. reflexivity.
    + destruct (IH acc w Hs) as (w2 & new & E2 & S2 & R2 & P2).
      exists w2, new. auto.
Qed.

Lemma migrate_from_json_accepts (json_models : list model_dict) (w : World) :
  faults w = [] ->
  exists w' new,
    api_database.migrate_from_json json_models w
    = (Ok (length (accepted json_models (names_of (db w)))), w') /\
    rows_of (db w') = rows_of (db w) ++ new /\
    map profile_of new
    = map record_profile (accepted json_models (names_of (db w))).
Proof.
  intros Hf. unfold api_database.migrate_from_json. rewrite bind_run.
  destruct (init_database_settles w Hf) as (w0 & E0 & S0 & _ & _ & R0 & _).
  rewrite E0.
  destruct (migrate_loop_accepts json_models 0 w0 S0)
    as (w' & new & E & _ & R & P).
  unfold names_of in E, P. rewrite R0 in E, R, P.
  exists w', new. auto.
Qed.

Lemma migrate_json_to_sqlite_nothing (w : World) :
  legacy_file w = None \/ legacy_file w = Some Malformed
  \/ legacy_file w = Some (Records []) ->
  api_manager._migrate_json_to_sqlite w = (Ok tt, w).
Proof.
  unfold api_manager._migrate_json_to_sqlite, api_manager.json_load_legacy,
    bind, gets, try_except, ret.
  intros [H | [H | H]]; cbv beta; rewrite H; cbv beta iota; rewrite ?H;
    reflexivity.
Qed.

Lemma migrate_json_to_sqlite_renames (w : World) (r : model_dict)
    (l : list model_dict) :
  faults w = [] ->
  legacy_file w = Some (Records (r :: l)) ->
  exists w',
    api_manager._migrate_json_to_sqlite w = (Ok tt, w') /\
    settled w' /\
    environ w' = environ w /\ secrets w' = secrets w /\ now w' = now w /\
    session_state w' = session_state w /\
    legacy_file w' = None /\
    backup_file w' = Some (Records (r :: l)) /\
    (forall x, has_name x (db w) = true -> has_name x (db w') = true) /\
    db w' = db (snd (api_database.migrate_from_json (r :: l) w)).
Proof.
  intros Hf Hl.
  destruct (migrate_from_json_run (r :: l) w Hf)
    as (n & w1 & E1 & S1 & P1 & SS1 & Hmono).
  destruct P1 as (Henv & Hsec & Hnow & Hleg & Hbak).
  unfold api_manager._migrate_json_to_sqlite, api_manager.json_load_legacy,
    api_manager.os_rename_legacy, bind, gets, try_except, ret.
  cbv beta. rewrite Hl. cbv beta iota. rewrite Hl. cbv beta iota.
  rewrite E1. cbv beta iota. rewrite Hleg, Hl.
  eexists; split; [reflexivity|].
  destruct S1 as (F1 & C1 & T1). unfold settled. simpl.
  repeat split; assumption.
Qed.

Lemma migrate_json_to_sqlite_run (w : World) :
  faults w = [] ->
  exists w1,
    api_manager._migrate_json_to_sqlite w = (Ok tt, w1) /\
    faults w1 = [] /\
    (legacy_file w = None -> w1 = w).
Proof.
  intros Hf. destruct (legacy_file w) as [[|[|r l]]|] eqn:Hl.
  - exists w. rewrite migrate_json_to_sqlite_nothing by auto. auto.
  - exists w. rewrite migrate_json_to_sqlite_nothing by auto. auto.
  - destruct (migrate_json_to_sqlite_renames w r l Hf Hl) as (w' & E & S & _).
    exists w'. split; [exact E|]. split; [apply S | discriminate].
  - exists w. rewrite migrate_json_to_sqlite_nothing by auto. auto.
Qed.

(** ** The session cache *)

Lemma load_custom_models_reads_store (v : World) :
  faults v = [] -> reads_store v.
Proof.
  intros Hf. unfold reads_store, api_manager.load_custom_models,
    api_manager.db_get_all_custom_models.
  destruct (migrate_json_to_sqlite_run v Hf) as (v1 & E1 & F1 & Hsame).
  unfold bind at 1. rewrite E1.
  unfold bind at 1. rewrite get_all_custom_models_nofault by exact F1.
  unfold bind, modify, ret.
  rewrite <- (rows_of_ensure_tables (db v1)).
  match goal with |- exists v', (_, ?x) = _ /\ _ => exists x end.
  split; [reflexivity|]. simpl. split; [reflexivity|].
  intros Hl. rewrite rows_of_ensure_tables, (Hsame Hl). reflexivity.
Qed.

Lemma remove_custom_model_run (name : string) (w : World) :
  faults w = [] ->
  exists w',
    api_manager.remove_custom_model name w = (Ok (has_name name (db w)), w') /\
    settled w' /\ same_process w w' /\
    rows_of (db w')
    = List.filter (fun r => negb (name_is name r)) (rows_of (db w)) /\
    (if has_name name (db w)
     then ss_custom_models (session_state w') = None /\
          ss_api_keys (session_state w') = ss_api_keys (session_state w)
     else session_state w' = session_state w).
Proof.
  intros Hf. unfold api_manager.remove_custom_model,
    api_manager.db_delete_custom_model, bind.
  rewrite delete_custom_model_nofault by exact Hf.
  unfold api_manager.del_cached_custom_models, modify, ret.
  destruct (has_name name (db w)); simpl;
    [destruct (ss_custom_models (session_state w)) eqn:Ec|];
    eexists; (split; [reflexivity|]);
    unfold settled, same_process; simpl;
    rewrite ?ensure_tables_put; auto 12.
Qed.

Lemma update_custom_model_run (w : World) (name : string)
    (model_id provider base_url : option string) (temperature : option Q)
    (api_provider : option string) :
  faults w = [] ->
  faults (snd (api_database.update_custom_model name model_id provider
                 base_url temperature api_provider w)) = [] /\
  session_state (snd (api_database.update_custom_model name model_id provider
                        base_url temperature api_provider w))
  = session_state w.
Proof.
  intros Hf. rewrite update_custom_model_nofault by exact Hf.
  destruct (none_supplied model_id provider base_url temperature api_provider);
    simpl; auto.
Qed.

(** C8, in the form the code satisfies: in a fault-free run, a
    successful [add_custom_model] and a successful [remove_custom_model]
    of the manager leave no cached profile list in the session (the entry
    is deleted, not edited); [update_custom_model], which only the store
    offers, leaves the session as it is; and after any of the three the
    next [load_custom_models] returns the rows of the store, not the
    cached list. *)
Theorem cache_dropped_on_register_and_remove (w : World) (p : profile)
    (name : string)
    (model_id provider base_url : option string) (temperature : option Q)
    (api_provider : option string) :
  faults w = [] ->
  (fst (register p w) = Ok true ->
   ss_custom_models (session_state (snd (register p w))) = None) /\
  (fst (api_manager.remove_custom_model name w) = Ok true ->
   ss_custom_models
     (session_state (snd (api_manager.remove_custom_model name w))) = None) /\
  session_state (snd (api_database.update_custom_model name model_id provider
                        base_url temperature api_provider w))
  = session_state w /\
  reads_store (snd (register p w)) /\
  reads_store (snd (api_manager.remove_custom_model name w)) /\
  reads_store (snd (api_database.update_custom_model name model_id provider
                      base_url temperature api_provider w)).
Proof.
  intros Hf.
  destruct (register_run p w Hf) as (w1 & E1 & S1 & _ & _ & C1).
  destruct (remove_custom_model_run name w Hf) as (w2 & E2 & S2 & _ & _ & C2).
  destruct (update_custom_model_run w name model_id provider base_url
              temperature api_provider Hf) as (F3 & SS3).
  rewrite E1, E2. simpl fst. simpl snd.
  split; [|split; [|split; [exact SS3|]]].
  - intros H. destruct (has_name (f_name p) (db w)); [discriminate|]. apply C1.
  - intros H. destruct (has_name name (db w)); [|discriminate]. apply C2.
  - repeat split; apply load_custom_models_reads_store;
      [apply S1 | apply S2 | exact F3].
Qed.

Lemma cache_dropped_on_register_and_remove_witness :
  faults cached_world = [] /\
  ss_custom_models
    (session_state (snd (api_manager.remove_custom_model "TeamGPT"
                           cached_world))) = None /\
  session_state (snd (api_database.update_custom_model "TeamGPT" None None
                        None (Some seven_tenths) None cached_world))
  = session_state cached_world /\
  reads_store (snd (api_database.update_custom_model "TeamGPT" None None
                      None (Some seven_tenths) None cached_world)).
Proof.
  split; [reflexivity|].
  destruct (cache_dropped_on_register_and_remove cached_world team_gpt
              "TeamGPT" None None None (Some seven_tenths) None eq_refl)
    as (_ & Hremove & Hupdate & _ & _ & Hread).
  split; [apply Hremove; vm_compute; reflexivity|].
  split; [exact Hupdate | exact Hread].
Defined.

(** Counterexample to C8 as stated: an update changes the stored
    temperature of TeamGPT and the session still holds the list read
    before it. *)
Lemma update_keeps_cached_list :
  fst (api_database.update_custom_model "TeamGPT" None None None
         (Some seven_tenths) None cached_world) = Ok true /\
  map r_temperature
    (rows_of (db (snd (api_database.update_custom_model "TeamGPT" None None
                         None (Some seven_tenths) None cached_world))))
  = [seven_tenths] /\
  ss_custom_models
    (session_state (snd (api_database.update_custom_model "TeamGPT" None None
                           None (Some seven_tenths) None cached_world)))
  = Some [api_database.row_to_dict team_gpt_row] /\
  ss_custom_models
    (session_state (snd (api_database.update_custom_model "TeamGPT" None None
                           None (Some seven_tenths) None cached_world)))
  <> None.
Proof.
  repeat split; try (vm_compute; reflexivity).
  vm_compute. discriminate.
Qed.

(** C9, in the form the code satisfies: in a fault-free run, when the
    legacy file holds a non-empty list of records,
    [_migrate_json_to_sqlite] migrates it and renames it: the store keeps
    its rows and gains, in order, one row for each record that has a name
    and a model identifier and whose name is not taken (with the record's
    values, and the defaults for the fields it lacks); the legacy path is
    then empty, the backup path holds the file, and a second call changes
    nothing.  When there is no legacy file, or it holds an empty list or
    cannot be parsed, the call changes nothing and the file, if any,
    stays at the legacy path. *)
Theorem legacy_file_renamed_when_not_empty (w : World) :
  faults w = [] ->
  (forall r l,
     legacy_file w = Some (Records (r :: l)) ->
     exists w' new,
       api_manager._migrate_json_to_sqlite w = (Ok tt, w') /\
       rows_of (db w') = rows_of (db w) ++ new /\
       map profile_of new
       = map record_profile (accepted (r :: l) (names_of (db w))) /\
       legacy_file w' = None /\
       backup_file w' = Some (Records (r :: l)) /\
       api_manager._migrate_json_to_sqlite w' = (Ok tt, w')) /\
  (legacy_file w = None \/ legacy_file w = Some Malformed
   \/ legacy_file w = Some (Records []) ->
   api_manager._migrate_json_to_sqlite w = (Ok tt, w)).
Proof.
  intros Hf. split.
  - intros r l Hl.
    destruct (migrate_json_to_sqlite_renames w r l Hf Hl)
      as (w' & E & _ & _ & _ & _ & _ & Hleg & Hbak & _ & Hdb).
    destruct (migrate_from_json_accepts (r :: l) w Hf)
      as (w1 & new & E1 & R1 & P1).
    rewrite E1 in Hdb. simpl in Hdb.
    exists w', new. rewrite Hdb.
    repeat apply conj; try assumption.
    apply migrate_json_to_sqlite_nothing. left. exact Hleg.
  - apply migrate_json_to_sqlite_nothing.
Qed.

Lemma legacy_file_renamed_when_not_empty_witness :
  faults legacy_world = [] /\
  exists w',
    api_manager._migrate_json_to_sqlite legacy_world = (Ok tt, w') /\
    map profile_of (rows_of (db w')) = [record_profile legacy_old1] /\
    legacy_file w' = None /\
    backup_file w' = Some (Records [legacy_old1]) /\
    api_manager._migrate_json_to_sqlite w' = (Ok tt, w').
Proof.
  split; [reflexivity|].
  destruct (proj1 (legacy_file_renamed_when_not_empty legacy_world eq_refl)
                  legacy_old1 [] eq_refl)
    as (w' & new & E & R & P & Hleg & Hbak & E2).
  exists w'. rewrite R, map_app, P. repeat apply conj; try assumption.
  reflexivity.
Defined.

(** Counterexample to C9 as stated: a legacy file that holds an empty
    list is read and left where it is; nothing is renamed. *)
Lemma empty_legacy_file_stays :
  legacy_file empty_legacy_world = Some (Records []) /\
  fst (api_manager._migrate_json_to_sqlite empty_legacy_world) = Ok tt /\
  legacy_file (snd (api_manager._migrate_json_to_sqlite empty_legacy_world))
  = Some (Records []) /\
  backup_file (snd (api_manager._migrate_json_to_sqlite empty_legacy_world))
  = None.
Proof. repeat split. Qed.

(** ** Credentials *)

Lemma get_secret_run (key : string) (w : World) :
  api_manager._get_secret key "" w
  = (Ok (resolved (environ w) (secrets w) key),
     if unset (environ w) key then parse_secrets w else w).
Proof.
  unfold api_manager._get_secret, api_manager.st_secrets_get,
    api_manager.st_secrets_parse, resolved, unset, parse_secrets, overlaid,
    bind, gets, try_except, ret.
  cbv beta iota.
  destruct (environ w !! key) as [[|a e]|]; simpl; try reflexivity;
    destruct (secrets w) as [m|]; try reflexivity;
    destruct (secrets_parsed w); reflexivity.
Qed.

(** C5: [_get_secret key ""] never raises.  It returns the environment
    variable [key] when that is set and not empty (whatever the secrets
    store holds) and then leaves the process as it is; otherwise the
    entry [key] of the secrets store when the store has one; otherwise
    the empty string (also when there is no secrets store at all).  Its
    only effect is that of reaching the secrets store: at the first use
    in the process the store writes its entries into the environment. *)
Theorem get_secret_lookup_order (key : string) (w : World) :
  exists v w',
    api_manager._get_secret key "" w = (Ok v, w') /\
    (forall e, environ w !! key = Some e -> e <> "" -> v = e /\ w' = w) /\
    (environ w !! key = None \/ environ w !! key = Some "" ->
     (forall m s, secrets w = Some m -> m !! key = Some s -> v = s) /\
     (forall m, secrets w = Some m -> m !! key = None -> v = "") /\
     (secrets w = None -> v = "" /\ w' = w) /\
     (forall m, secrets w = Some m ->
        w' = if secrets_parsed w then w
             else set_environ (m ∪ environ w) true w)).
Proof.
  unfold api_manager._get_secret, api_manager.st_secrets_get,
    api_manager.st_secrets_parse, bind, gets, try_except, ret.
  cbv beta iota.
  destruct (environ w !! key) as [[|a e]|] eqn:He; simpl.
  - destruct (secrets w) as [m|] eqn:Hs.
    + exists (dict_get (m !! key) "").
      exists (if secrets_parsed w then w
              else set_environ (m ∪ environ w) true w).
      split; [destruct (secrets_parsed w); reflexivity|].
      split; [intros e [= <-] H; contradiction|]. intros _.
      split; [|split; [|split]];
        [intros m' s [= <-] ->; reflexivity
        | intros m' [= <-] ->; reflexivity | discriminate
        | intros m' [= <-]; reflexivity].
    + exists "", w. split; [reflexivity|].
      split; [intros e [= <-] H; contradiction|]. intros _.
      split; [|split; [|split]];
        [discriminate | discriminate | split; reflexivity | discriminate].
  - exists (String a e), w. split; [reflexivity|].
    split; [intros e' [= <-] _; split; reflexivity|].
    intros [H | H]; discriminate H.
  - destruct (secrets w) as [m|] eqn:Hs.
    + exists (dict_get (m !! key) "").
      exists (if secrets_parsed w then w
              else set_environ (m ∪ environ w) true w).
      split; [destruct (secrets_parsed w); reflexivity|].
      split; [discriminate|]. intros _.
      split; [|split; [|split]];
        [intros m' s [= <-] ->; reflexivity
        | intros m' [= <-] ->; reflexivity | discriminate
        | intros m' [= <-]; reflexivity].
    + exists "", w. split; [reflexivity|].
      split; [discriminate|]. intros _.
      split; [|split; [|split]];
        [discriminate | discriminate | split; reflexivity | discriminate].
Qed.

Lemma secrets_parse_secrets (w : World) :
  secrets (parse_secrets w) = secrets w.
Proof.
  unfold parse_secrets. destruct (secrets w) eqn:E; [|exact E].
  destruct (secrets_parsed w); [exact E|]. exact E.
Qed.

Lemma parse_secrets_idem (w : World) :
  parse_secrets (parse_secrets w) = parse_secrets w.
Proof.
  unfold parse_secrets. destruct (secrets w) as [m|] eqn:E.
  - destruct (secrets_parsed w) eqn:P.
    + rewrite E, P. reflexivity.
    + simpl. rewrite E. reflexivity.
  - rewrite E. reflexivity.
Qed.

Lemma resolved_parse_secrets (key : string) (w : World) :
  unset (environ w) key = true ->
  resolved (environ (parse_secrets w)) (secrets w) key
  = resolved (environ w) (secrets w) key.
Proof.
  intros Hu. unfold parse_secrets.
  destruct (secrets w) as [m|] eqn:E; [|reflexivity].
  destruct (secrets_parsed w); [reflexivity|]. simpl.
  unfold resolved, unset, overlaid in *.
  destruct (m !! key) as [s|] eqn:Hm.
  - rewrite (lookup_union_Some_l m (environ w) key s Hm).
    destruct (environ w !! key) as [[|a e]|]; try discriminate;
      destruct s; reflexivity.
  - rewrite (lookup_union_r m (environ w) key Hm).
    destruct (environ w !! key) as [[|a e]|]; try discriminate; reflexivity.
Qed.

Lemma world_at_step (w : World) (pre : list string) (key : string) :
  api_manager._get_secret key "" (world_at w pre)
  = (Ok (resolved (environ (world_at w (pre ++ [key]))) (secrets w) key),
     world_at w (pre ++ [key])).
Proof.
  rewrite get_secret_run. unfold world_at. rewrite existsb_app. simpl.
  rewrite orb_false_r.
  destruct (existsb (unset (environ w)) pre); simpl.
  - rewrite secrets_parse_secrets, parse_secrets_idem.
    destruct (unset (environ (parse_secrets w)) key); reflexivity.
  - destruct (unset (environ w) key) eqn:Hu; [|reflexivity].
    rewrite resolved_parse_secrets by exact Hu. reflexivity.
Qed.

Lemma load_api_keys_eq (w : World) :
  api_manager.load_api_keys w
  = (Ok (<["GROK_API_KEY" := loaded_key w "GROK_API_KEY"]>
         (<["GROQ_API_KEY" := loaded_key w "GROQ_API_KEY"]>
         (<["OPENROUTER_API_KEY" := loaded_key w "OPENROUTER_API_KEY"]>
         (<["GEMINI_API_KEY" := loaded_key w "GEMINI_API_KEY"]>
         (<["DEEPSEEK_API_KEY" := loaded_key w "DEEPSEEK_API_KEY"]>
         (<["OPENAI_API_KEY" := loaded_key w "OPENAI_API_KEY"]> ∅)))))),
     with_cached_keys
       (<["GROK_API_KEY" := loaded_key w "GROK_API_KEY"]>
        (<["GROQ_API_KEY" := loaded_key w "GROQ_API_KEY"]>
        (<["OPENROUTER_API_KEY" := loaded_key w "OPENROUTER_API_KEY"]>
        (<["GEMINI_API_KEY" := loaded_key w "GEMINI_API_KEY"]>
        (<["DEEPSEEK_API_KEY" := loaded_key w "DEEPSEEK_API_KEY"]>
        (<["OPENAI_API_KEY" := loaded_key w "OPENAI_API_KEY"]> ∅))))))
       (world_at w credential_keys)).
Proof.
  unfold api_manager.load_api_keys.
  change w with (world_at w []) at 1.
  rewrite bind_run, world_at_step. cbv beta iota.
  rewrite bind_run, world_at_step. cbv beta iota.
  rewrite bind_run, world_at_step. cbv beta iota.
  rewrite bind_run, world_at_step. cbv beta iota.
  rewrite bind_run, world_at_step. cbv beta iota.
  rewrite bind_run, world_at_step. cbv beta iota.
  reflexivity.
Qed.

Lemma load_api_keys_run (w : World) :
  exists keys w',
    api_manager.load_api_keys w = (Ok keys, w') /\
    session_state w'
    = {| ss_api_keys := Some keys;
         ss_custom_models := ss_custom_models (session_state w) |} /\
    db w' = db w /\ conn w' = conn w /\ faults w' = faults w /\
    struck w' = struck w /\ now w' = now w /\
    legacy_file w' = legacy_file w /\ backup_file w' = backup_file w /\
    secrets w' = secrets w /\ model_configs_key w' = model_configs_key w.
Proof.
  rewrite load_api_keys_eq. do 2 eexists. split; [reflexivity|].
  unfold with_cached_keys, world_at, parse_secrets.
  destruct (existsb (unset (environ w)) credential_keys);
    [destruct (secrets w) eqn:E; [destruct (secrets_parsed w)|]|];
    simpl; rewrite ?E; repeat apply conj; reflexivity.
Qed.

(** ** Credential family of a built-in configuration *)

Lemma builtin_key_name_first_match (base_url model : string) :
  api_manager.builtin_key_name base_url model
  = first_match rule_table "OPENAI_API_KEY" base_url model.
Proof.
  unfold api_manager.builtin_key_name, rule_table, first_match.
  repeat match goal with
         | |- context [contains ?a ?b] => destruct (contains a b)
         end;
    simpl; try reflexivity; destruct (String.eqb base_url ""); reflexivity.
Qed.

(** C6: the chain of tests of [get_all_available_models] is the ordered
    rule table (Gemini domain or "gemini" model, then "openrouter" base
    URL, then groq, then x.ai / grok, then deepseek, OPENAI otherwise),
    first match wins; a model name containing "gemini" selects GEMINI
    whatever the base URL, and without a Gemini hint an "openrouter" base
    URL selects OPENROUTER whatever the later rules say.  Every built-in
    configuration comes back with, as ["api_key"], the entry of the current
    keys that its first matching rule names, and with its other fields as
    they were; Gemini-Flash, served through OpenRouter, has the GEMINI key
    as ["api_key"]. *)
Theorem builtin_key_follows_rule_table :
  (forall base_url model,
     api_manager.builtin_key_name base_url model
     = first_match rule_table "OPENAI_API_KEY" base_url model) /\
  (forall base_url model,
     contains "gemini" model = true ->
     api_manager.builtin_key_name base_url model = "GEMINI_API_KEY") /\
  (forall base_url model,
     contains "generativelanguage.googleapis.com" base_url = false ->
     contains "gemini" model = false ->
     contains "openrouter" base_url = true ->
     api_manager.builtin_key_name base_url model = "OPENROUTER_API_KEY") /\
  (forall OPENROUTER_API_KEY keys w,
     Forall (fun entry =>
               exists updated cfg cfg',
                 api_manager.builtin_with_key keys (snd entry) w
                 = (Ok updated, w) /\
                 d_config (snd entry) = Some cfg /\
                 d_config updated = Some cfg' /\
                 c_api_key cfg'
                 = Some (dict_get (keys !! builtin_key (snd entry)) "") /\
                 c_model cfg' = c_model cfg /\
                 c_base_url cfg' = c_base_url cfg /\
                 c_temperature cfg' = c_temperature cfg /\
                 c_response_format cfg' = c_response_format cfg /\
                 c_model_info cfg' = c_model_info cfg /\
                 d_id updated = d_id (snd entry) /\
                 d_name updated = d_name (snd entry) /\
                 d_provider updated = d_provider (snd entry) /\
                 d_api_provider updated = d_api_provider (snd entry))
            (model_configs.MODEL_CHOICES OPENROUTER_API_KEY)) /\
  (forall OPENROUTER_API_KEY keys w,
     exists updated cfg',
       api_manager.builtin_with_key keys
         (model_configs.gemini_flash_config OPENROUTER_API_KEY) w
       = (Ok updated, w) /\
       d_config updated = Some cfg' /\
       c_api_key cfg' = Some (dict_get (keys !! "GEMINI_API_KEY") "") /\
       c_model cfg' = Some "google/gemini-2.0-flash-exp" /\
       c_base_url cfg' = Some "https://openrouter.ai/api/v1").
Proof.
  split; [exact builtin_key_name_first_match|].
  split; [|split; [|split]].
  - intros base_url model H. unfold api_manager.builtin_key_name.
    rewrite H, orb_true_r. reflexivity.
  - intros base_url model H1 H2 H3. unfold api_manager.builtin_key_name.
    rewrite H1, H2, H3. reflexivity.
  - intros k keys w.
    repeat (constructor;
            [do 3 eexists; repeat apply conj; reflexivity|]).
    constructor.
  - intros k keys w. do 2 eexists. repeat apply conj; reflexivity.
Qed.

(** ** The configuration facade *)

(** C1: [get_model_config] raises [ImportError] for every name and every
    state of the process: settings.api_database has no attribute
    [get_model_by_name] (the lookup it defines is
    [get_custom_model_by_name]). *)
Theorem get_model_config_import_error (OPENROUTER_API_KEY choice : string)
    (w : World) :
  model_configs.get_model_config OPENROUTER_API_KEY choice w
  = (Raise (ImportError "get_model_by_name"), w).
Proof. reflexivity. Qed.

Lemma import_get_custom_model_by_name (w : World) :
  import_from api_database.namespace "get_custom_model_by_name" w
  = (Ok (api_database.Lookup api_database.get_custom_model_by_name), w).
Proof. reflexivity. Qed.

Lemma static_fallback_usable (OPENROUTER_API_KEY choice : string) (w : World) :
  exists config,
    model_configs.static_fallback OPENROUTER_API_KEY choice w = (Ok config, w)
    /\ usable config
    /\ d_api_provider config = Some "OPENROUTER".
Proof.
  unfold model_configs.static_fallback, model_configs.choices_get,
    model_configs.MODEL_CHOICES, List.find, fst, snd.
  repeat match goal with
         | |- context [String.eqb ?a choice] => destruct (String.eqb a choice)
         end;
    simpl; eexists; (split; [reflexivity|]);
    (split; [do 3 eexists; repeat split | reflexivity]).
Qed.

(** With the lookup the store does define in place of the missing
    attribute, the body of [get_model_config] resolves every name to a
    usable configuration, falling back to a built-in one. *)
Lemma get_model_config_body_usable (OPENROUTER_API_KEY choice : string)
    (w : World) :
  faults w = [] ->
  exists config w',
    model_configs.get_model_config_body OPENROUTER_API_KEY
      (api_database.Lookup api_database.get_custom_model_by_name) choice w
    = (Ok config, w') /\
    usable config.
Proof.
  intros Hf. unfold model_configs.get_model_config_body, call.
  unfold bind at 1. rewrite get_custom_model_by_name_nofault by exact Hf.
  destruct (List.find (name_is choice) (rows_of (db w))) as [r|]; simpl.
  - destruct (load_api_keys_run
                (set_conn None (set_db (ensure_tables (db w)) w)))
      as (keys & w1 & E & _).
    unfold bind at 1. rewrite E. unfold bind, ret. simpl.
    do 2 eexists. split; [reflexivity|].
    do 3 eexists. repeat split.
  - destruct (static_fallback_usable OPENROUTER_API_KEY choice
                (set_conn None (set_db (ensure_tables (db w)) w)))
      as (config & E & U & _).
    rewrite E. do 2 eexists. split; [reflexivity | exact U].
Qed.

(** ** The context manager *)

(** When the body of a [with get_connection()] block raises, the
    exception leaves the block unchanged and the connection is closed;
    the committed content is what the body left (nothing, unless it
    committed itself). *)
Lemma get_connection_reraises {A} (body : M A) (w w1 : World)
    (rest : list bool) (e : exn) :
  faults w = false :: rest ->
  body (set_conn (Some (db w)) (set_faults rest (struck w) w)) = (Raise e, w1) ->
  api_database.get_connection body w = (Raise e, set_conn None w1) /\
  db (set_conn None w1) = db w1.
Proof.
  intros Hf Hb. split; [|reflexivity].
  unfold api_database.get_connection, sqlite3_connect, io_fault, bind, modify,
    try_finally, try_except, conn_rollback, conn_close, raise.
  rewrite Hf. cbv beta iota.
  change (db (set_faults rest (struck w) w)) with (db w).
  rewrite Hb. cbv beta iota.
  destruct w1 as [env sec ss d c f k n lf bf]. simpl.
  destruct c; reflexivity.
Qed.

(** ** Unique names *)

Lemma names_after_update (name : string) (f : row -> row) (rows : list row) :
  (forall r, r_name (f r) = r_name r) ->
  map r_name (map (fun r => if name_is name r then f r else r) rows)
  = map r_name rows.
Proof.
  intros Hf. rewrite map_map. apply map_ext. intros r.
  destruct (name_is name r); [apply Hf | reflexivity].
Qed.

Lemma names_after_delete (P : row -> bool) (rows : list row) :
  NoDup (map r_name rows) -> NoDup (map r_name (List.filter P rows)).
Proof.
  induction rows as [|r rows IH]; simpl; [auto|].
  intros Hnd. apply NoDup_cons in Hnd as [Hnotin Hnd].
  destruct (P r); simpl; [|auto].
  apply NoDup_cons. split; [|auto].
  intros Hin. apply Hnotin.
  apply list_elem_of_In in Hin. apply list_elem_of_In.
  apply in_map_iff in Hin as (x & Hx & Hin).
  apply in_map_iff. exists x. split; [exact Hx|].
  apply filter_In in Hin. apply Hin.
Qed.

Lemma unique_names_preserved (op : mutation) (w : World) :
  faults w = [] ->
  NoDup (names_of (db w)) ->
  NoDup (names_of (db (snd (perform op w)))).
Proof.
  intros Hf Hnd. destruct op as [nm mi pr bu te ap | nm mi pr bu te ap | nm].
  - destruct (create_run {| f_name := nm; f_provider := pr; f_model_id := mi;
                            f_base_url := bu; f_temperature := te;
                            f_api_provider := ap |} w Hf)
      as (w' & E & _ & _ & _ & R).
    unfold create in E. simpl in E, R. simpl perform. rewrite E. simpl snd.
    unfold names_of. rewrite R.
    destruct (has_name nm (db w)) eqn:Hn; [exact Hnd|].
    rewrite map_app. simpl. apply NoDup_app. split; [exact Hnd|]. split.
    + intros x Hx Hx'. apply list_elem_of_In in Hx, Hx'.
      destruct Hx' as [<-|[]]. apply has_name_false in Hn. contradiction.
    + apply NoDup_singleton.
  - simpl perform. rewrite update_custom_model_nofault by exact Hf.
    destruct (none_supplied mi pr bu te ap); simpl; unfold names_of;
      simpl; rewrite ?rows_of_ensure_tables; [exact Hnd|].
    unfold rows_of at 1. simpl. rewrite names_after_update; [exact Hnd|].
    intros r. reflexivity.
  - simpl perform. rewrite delete_custom_model_nofault by exact Hf.
    simpl. unfold names_of, rows_of at 1. simpl.
    apply names_after_delete. exact Hnd.
Qed.

(** ** One success per name *)

(** C3: in a fault-free run, starting from a store that does not hold
    [name], a sequence of create calls that all carry [name] has exactly
    one success, the first call; every later call returns [False] and the
    rows stay those the first call left (the old rows and the one new
    row).  This holds for [add_custom_model] of the store and of the
    manager.  Names stay unique: after the sequence, and after any single
    create, update or delete. *)
Theorem create_same_name_exactly_once (name : string) (p : profile)
    (ps : list profile) (w : World) :
  faults w = [] ->
  f_name p = name ->
  Forall (fun q => f_name q = name) ps ->
  has_name name (db w) = false ->
  (exists w',
     sequence (map create (p :: ps)) w
     = (Ok (true :: repeat false (length ps)), w') /\
     rows_of (db w') = rows_of (db w) ++ [inserted_row p (now w) (db w)] /\
     rows_of (db w') = rows_of (db (snd (create p w))) /\
     (NoDup (names_of (db w)) -> NoDup (names_of (db w')))) /\
  (exists w',
     sequence (map register (p :: ps)) w
     = (Ok (true :: repeat false (length ps)), w') /\
     rows_of (db w')
     = rows_of (db w) ++ [inserted_row (registered p) (now w) (db w)] /\
     rows_of (db w') = rows_of (db (snd (register p w))) /\
     (NoDup (names_of (db w)) -> NoDup (names_of (db w')))) /\
  (forall op, NoDup (names_of (db w)) ->
              NoDup (names_of (db (snd (perform op w))))).
Proof.
  intros Hf Hp Hall Hn.
  assert (Hcreate : forall q v, faults v = [] ->
            exists v',
              create q v = (Ok (negb (has_name (f_name q) (db v))), v') /\
              faults v' = [] /\
              rows_of (db v')
              = (if has_name (f_name q) (db v) then rows_of (db v)
                 else rows_of (db v) ++ [inserted_row q (now v) (db v)])).
  { intros q v Hv. destruct (create_run q v Hv) as (v' & E & S & _ & _ & R).
    exists v'. repeat split; [exact E | apply S | exact R]. }
  assert (Hregister : forall q v, faults v = [] ->
            exists v',
              register q v = (Ok (negb (has_name (f_name q) (db v))), v') /\
              faults v' = [] /\
              rows_of (db v')
              = (if has_name (f_name q) (db v) then rows_of (db v)
                 else rows_of (db v)
                        ++ [inserted_row (registered q) (now v) (db v)])).
  { intros q v Hv. destruct (register_run q v Hv) as (v' & E & S & _ & R & _).
    exists v'. repeat split; [exact E | apply S | exact R]. }
  split; [|split].
  - exact (accepted_once create (fun q => q) (fun q => eq_refl) Hcreate
             name p ps w Hf Hp Hall Hn).
  - exact (accepted_once register registered (fun q => eq_refl) Hregister
             name p ps w Hf Hp Hall Hn).
  - intros op. apply unique_names_preserved. exact Hf.
Qed.

Lemma create_same_name_exactly_once_witness :
  faults fresh_world = [] /\
  f_name team_gpt = "TeamGPT" /\
  Forall (fun q => f_name q = "TeamGPT") [team_gpt; team_gpt] /\
  has_name "TeamGPT" (db fresh_world) = false /\
  fst (sequence (map create [team_gpt; team_gpt; team_gpt]) fresh_world)
  = Ok [true; false; false] /\
  fst (sequence (map register [team_gpt; team_gpt; team_gpt]) fresh_world)
  = Ok [true; false; false].
Proof.
  assert (Hall : Forall (fun q => f_name q = "TeamGPT") [team_gpt; team_gpt])
    by (repeat constructor).
  destruct (create_same_name_exactly_once "TeamGPT" team_gpt
              [team_gpt; team_gpt] fresh_world eq_refl eq_refl Hall eq_refl)
    as ((w1 & E1 & _) & (w2 & E2 & _) & _).
  rewrite E1, E2. repeat split. exact Hall.
Defined.



(** ** Scenarios *)

(** A legacy record is migrated; creating its name afterwards is
    rejected. *)
Example migrated_name_is_taken :
  fst ((let* migrated := api_database.migrate_from_json [legacy_old1] in
        let* created := create {| f_name := "Old1"; f_provider := "p";
                                  f_model_id := "y"; f_base_url := "u";
                                  f_temperature := seven_tenths;
                                  f_api_provider := "OPENAI" |} in
        ret (migrated, created)) fresh_world)
  = Ok (1, false).
Proof. vm_compute. reflexivity. Qed.

(** Deleting a name the store does not hold returns [False] and keeps
    the rows. *)
Example delete_missing_profile :
  fst (api_database.delete_custom_model "NoSuchProfile" team_world) = Ok false
  /\ rows_of (db (snd (api_database.delete_custom_model "NoSuchProfile"
                         team_world)))
     = rows_of (db team_world).
Proof. split; vm_compute; reflexivity. Qed.

(** The keys of the five built-in configurations. *)
Example builtin_keys :
  map (fun entry => (fst entry, builtin_key (snd entry)))
      (model_configs.MODEL_CHOICES "")
  = [ ("DeepSeek-Chat", "OPENROUTER_API_KEY");
      ("GPT-4o-Mini", "OPENROUTER_API_KEY");
      ("Claude-Sonnet-3.5", "OPENROUTER_API_KEY");
      ("Gemini-Flash", "GEMINI_API_KEY");
      ("Gemini-Pro", "GEMINI_API_KEY") ].
Proof. vm_compute. reflexivity. Qed.

(** A fault at the connect of [init_database] reaches the caller of
    [add_custom_model] as an exception. *)
Example init_fault_is_raised :
  fst (perform create_team_gpt (set_faults [true] 0 fresh_world))
  = Raise OperationalError.
Proof. vm_compute. reflexivity. Qed.

(** * Further properties *)

(** ** The store is confined to the database *)

Lemma outside_db_refl (w : World) : outside_db w w.
Proof. repeat split. Qed.

Lemma outside_db_trans (w1 w2 w3 : World) :
  outside_db w1 w2 -> outside_db w2 w3 -> outside_db w1 w3.
Proof.
  unfold outside_db.
  intros (A & B & C & D & E & F & G & H) (A' & B' & C' & D' & E' & F' & G' & H').
  repeat split; congruence.
Qed.

Lemma confined_ret {A} (a : A) : confined (ret a).
Proof. intros w. apply outside_db_refl. Qed.

Lemma confined_raise {A} (e : exn) : confined (@raise A e).
Proof. intros w. apply outside_db_refl. Qed.

Lemma confined_bind {A B} (m : M A) (k : A -> M B) :
  confined m -> (forall a, confined (k a)) -> confined (bind m k).
Proof.
  intros Hm Hk w. unfold bind. specialize (Hm w).
  destruct (m w) as [[a|e] w1]; simpl in *; [|exact Hm].
  eapply outside_db_trans; [exact Hm | apply Hk].
Qed.

Lemma confined_try_except {A} (m : M A) (h : exn -> M A) :
  confined m -> (forall e, confined (h e)) -> confined (try_except m h).
Proof.
  intros Hm Hh w. unfold try_except. specialize (Hm w).
  destruct (m w) as [[a|e] w1]; simpl in *; [exact Hm|].
  eapply outside_db_trans; [exact Hm | apply Hh].
Qed.

Lemma confined_try_finally {A} (m : M A) (f : M unit) :
  confined m -> confined f -> confined (try_finally m f).
Proof.
  intros Hm Hf w. unfold try_finally. specialize (Hm w).
  destruct (m w) as [r w1]. specialize (Hf w1).
  destruct (f w1) as [[u|e] w2]; simpl in *;
    eapply outside_db_trans; eassumption.
Qed.

Lemma confined_io_fault : confined io_fault.
Proof.
  intros w. unfold io_fault. destruct (faults w) as [|[] rest];
    repeat split.
Qed.

Lemma confined_cursor_execute {R} (stmt : statement R) :
  confined (cursor_execute stmt).
Proof.
  apply confined_bind; [apply confined_io_fault|]. intros _ w.
  destruct (conn w) as [c|]; [|apply outside_db_refl].
  destruct (stmt (now w) c) as [[r c']|e]; repeat split.
Qed.

Lemma confined_conn_commit : confined conn_commit.
Proof.
  apply confined_bind; [apply confined_io_fault|]. intros _ w.
  destruct (conn w); repeat split.
Qed.

Lemma confined_get_connection {A} (body : M A) :
  confined body -> confined (api_database.get_connection body).
Proof.
  intros Hb. unfold api_database.get_connection.
  apply confined_bind.
  { apply confined_bind; [apply confined_io_fault|]. intros _ w. repeat split. }
  intros _. apply confined_try_finally.
  - apply confined_try_except.
    + apply confined_bind; [exact Hb|]. intros a.
      apply confined_bind; [apply confined_conn_commit|]. intros _.
      apply confined_ret.
    + intros e. apply confined_bind; [|intros _; apply confined_raise].
      intros w. unfold conn_rollback, modify. destruct (conn w); repeat split.
  - intros w. repeat split.
Qed.

Lemma confined_init_database : confined api_database.init_database.
Proof.
  apply confined_get_connection.
  apply confined_bind; [apply confined_cursor_execute|]. intros _.
  apply confined_bind; [apply confined_cursor_execute|]. intros _.
  apply confined_conn_commit.
Qed.

Ltac confined_step :=
  first [ apply confined_ret | apply confined_raise
        | apply confined_init_database | apply confined_cursor_execute
        | apply confined_conn_commit
        | apply confined_get_connection
        | apply confined_try_except
        | apply confined_bind ].

Lemma confined_add_custom_model name model_id provider base_url temperature
    api_provider :
  confined (api_database.add_custom_model name model_id provider base_url
              temperature api_provider).
Proof.
  unfold api_database.add_custom_model.
  repeat (confined_step; intros). destruct e; apply confined_ret.
Qed.

Lemma confined_migrate_loop (json_models : list model_dict) :
  forall migrated, confined (api_database.migrate_loop json_models migrated).
Proof.
  induction json_models as [|m rest IH]; intros migrated; simpl.
  - apply confined_ret.
  - destruct (py_not (dict_get (d_name m) "")
              || py_not_opt (c_model (dict_get (d_config m) empty_config)));
      [apply IH|].
    apply confined_bind; [apply confined_add_custom_model|].
    intros success. apply IH.
Qed.

(** X1: under every fault schedule, and whether they return or raise, the
    functions of the store change nothing outside the database: the
    environment, the secrets, the session (cached keys and cached profile
    list), the clock and the legacy and backup files are as before. *)
Theorem store_touches_only_the_database :
  confined api_database.init_database /\
  confined api_database.get_all_custom_models /\
  (forall name, confined (api_database.get_custom_model_by_name name)) /\
  (forall name model_id provider base_url temperature api_provider,
     confined (api_database.add_custom_model name model_id provider base_url
                 temperature api_provider)) /\
  (forall name model_id provider base_url temperature api_provider,
     confined (api_database.update_custom_model name model_id provider
                 base_url temperature api_provider)) /\
  (forall name, confined (api_database.delete_custom_model name)) /\
  (forall name, confined (api_database.model_exists name)) /\
  (forall name, confined (api_database.get_provider_settings name)) /\
  (forall name enabled base_url,
     confined (api_database.set_provider_settings name enabled base_url)) /\
  (forall json_models, confined (api_database.migrate_from_json json_models)).
Proof.
  repeat apply conj; intros.
  - apply confined_init_database.
  - unfold api_database.get_all_custom_models. repeat (confined_step; intros).
  - unfold api_database.get_custom_model_by_name.
    repeat (confined_step; intros); try (destruct a0; apply confined_ret).
  - apply confined_add_custom_model.
  - rewrite update_custom_model_eq.
    confined_step; [confined_step|]. intros _.
    confined_step; [|intros; apply confined_ret].
    confined_step.
    destruct (updates_of model_id provider base_url temperature api_provider);
      repeat (confined_step; intros).
  - unfold api_database.delete_custom_model. repeat (confined_step; intros).
  - unfold api_database.model_exists. repeat (confined_step; intros).
  - unfold api_database.get_provider_settings.
    repeat (confined_step; intros); try (destruct a0; apply confined_ret).
  - unfold api_database.set_provider_settings. repeat (confined_step; intros).
  - unfold api_database.migrate_from_json.
    apply confined_bind; [apply confined_init_database|]. intros _.
    apply confined_migrate_loop.
Qed.

(** ** Outcomes under an arbitrary fault schedule *)

Ltac py_unfold_all :=
  cbv beta iota zeta delta
    [bind ret raise try_except try_finally gets modify subscript
     api_database.get_connection api_database.init_database
     sqlite3_connect conn_commit conn_rollback conn_close cursor_execute
     io_fault set_conn set_db set_faults set_session set_files
     environ secrets session_state db conn faults struck now
     legacy_file backup_file secrets_parsed model_configs_key fst snd
     create_custom_models create_provider_settings with_custom_models
     put_custom_models insert_custom_model select_all_order_by_name
     select_by_name update_where_name delete_where_name
     with_provider_settings put_provider_settings select_provider
     upsert_provider
     custom_models provider_settings t_rows t_seq].

Lemma init_database_outcome (w : World) :
  exists r w1,
    api_database.init_database w = (r, w1) /\
    rows_of (db w1) = rows_of (db w) /\
    provider_rows_of (db w1) = provider_rows_of (db w) /\
    now w1 = now w /\
    ((r = Ok tt /\ struck w1 = struck w /\ db w1 = ensure_tables (db w)) \/
     (r = Raise OperationalError /\ struck w1 = S (struck w))).
Proof.
  destruct w as [env sec ss d c f k n lf bf].
  destruct d as [[[rows sq]|] [p|]];
    do 5 (try (destruct f as [|[] f])); py_unfold;
    eexists; eexists; (split; [reflexivity|]); simpl; auto 7.
Qed.

Lemma statement_outcome {R A} (stmt : statement R) (g : R -> A) (w : World) :
  exists r w',
    api_database.get_connection
      (let* x := cursor_execute stmt in ret (g x)) w = (r, w') /\
    ((struck w' = S (struck w) /\ r = Raise OperationalError /\ db w' = db w) \/
     (struck w' = struck w /\
      match stmt (now w) (db w) with
      | Ok (x, d') => r = Ok (g x) /\ db w' = d'
      | Raise e => r = Raise e /\ db w' = db w
      end)).
Proof.
  destruct w as [env sec ss d c f k n lf bf].
  do 3 (try (destruct f as [|[] f])); py_unfold;
    try (destruct (stmt n d) as [[x d']|e]; py_unfold);
    eexists; eexists; (split; [reflexivity|]); simpl; auto 6.
Qed.

Lemma get_connection_ext {A} (body body' : M A) (w : World) :
  (forall v, body v = body' v) ->
  api_database.get_connection body w = api_database.get_connection body' w.
Proof.
  intros H. unfold api_database.get_connection, bind, try_finally, try_except.
  destruct (sqlite3_connect w) as [[u|e] w1]; [|reflexivity].
  rewrite H. reflexivity.
Qed.

(** A read of the store: [init_database], then one SELECT in its own
    transaction.  It leaves the rows alone; it answers from the rows it
    found exactly when no fault struck, and raises [OperationalError]
    otherwise. *)
Lemma read_outcome {R A} (stmt : statement R) (g : R -> A)
    (answer : database -> A) (w : World) :
  (forall ts d, exists x,
      stmt ts (ensure_tables d) = Ok (x, ensure_tables d) /\ g x = answer d) ->
  let read := (run api_database.init_database in
               api_database.get_connection
                 (let* x := cursor_execute stmt in ret (g x))) in
  rows_of (db (snd (read w))) = rows_of (db w) /\
  provider_rows_of (db (snd (read w))) = provider_rows_of (db w) /\
  (struck (snd (read w)) = struck w -> fst (read w) = Ok (answer (db w))) /\
  (struck (snd (read w)) <> struck w -> fst (read w) = Raise OperationalError).
Proof.
  intros Hstmt read. subst read. rewrite bind_run.
  destruct (init_database_outcome w) as (r0 & w1 & E0 & R0 & P0 & N0 & H0).
  rewrite E0.
  destruct H0 as [(-> & K0 & D0) | (-> & K0)].
  - destruct (statement_outcome stmt g w1) as (r & w' & E & H).
    cbv beta iota. rewrite E.
    simpl. destruct H as [(K & -> & D) | (K & H)].
    + rewrite D. split; [exact R0|]. split; [exact P0|].
      split; [intros; lia | reflexivity].
    + rewrite D0 in H. destruct (Hstmt (now w1) (db w)) as (x & Ex & Gx).
      rewrite Ex in H. destruct H as (-> & ->).
      rewrite rows_of_ensure_tables.
      split; [reflexivity|]. split; [|split; [congruence | intros; lia]].
      destruct (db w) as [q [p|]]; reflexivity.
  - simpl. split; [exact R0|]. split; [exact P0|].
    split; [intros; lia | reflexivity].
Qed.

Lemma select_all_ensured (ts : Z) (d : database) :
  exists x,
    select_all_order_by_name ts (ensure_tables d) = Ok (x, ensure_tables d) /\
    map api_database.row_to_dict x = listing d.
Proof.
  eexists. split; [reflexivity|].
  unfold listing. simpl. rewrite <- (rows_of_ensure_tables d). reflexivity.
Qed.

Lemma select_by_name_ensured (name : string) (ts : Z) (d : database) :
  exists x,
    select_by_name name ts (ensure_tables d) = Ok (x, ensure_tables d) /\
    option_map api_database.row_to_dict x = lookup_by_name name d.
Proof.
  eexists. split; [reflexivity|].
  unfold lookup_by_name. simpl. rewrite <- (rows_of_ensure_tables d).
  reflexivity.
Qed.

Lemma select_exists_ensured (name : string) (ts : Z) (d : database) :
  exists x,
    select_by_name name ts (ensure_tables d) = Ok (x, ensure_tables d) /\
    match x with Some _ => true | None => false end = has_name name d.
Proof.
  eexists. split; [reflexivity|].
  simpl. rewrite find_is_some. unfold has_name.
  rewrite <- (rows_of_ensure_tables d). reflexivity.
Qed.

Lemma get_custom_model_by_name_eq (name : string) (w : World) :
  api_database.get_custom_model_by_name name w
  = (run api_database.init_database in
     api_database.get_connection
       (let* r := cursor_execute (select_by_name name) in
        ret (option_map api_database.row_to_dict r))) w.
Proof.
  unfold api_database.get_custom_model_by_name. rewrite !bind_run.
  destruct (api_database.init_database w) as [[u|e] w1]; [|reflexivity].
  apply get_connection_ext. intros v. unfold bind.
  destruct (cursor_execute (select_by_name name) v) as [[[r|]|e] v'];
    reflexivity.
Qed.

(** X2: under every fault schedule the three reads of [custom_models]
    never change its rows, and each either raises [OperationalError]
    (exactly when a fault struck during the call; the exception is not
    swallowed) or returns the right answer: the rows ordered by name, the
    row with the name or [None], whether a row has the name. *)
Theorem reads_answer_or_raise (name : string) (w : World) :
  (rows_of (db (snd (api_database.get_all_custom_models w))) = rows_of (db w) /\
   (struck (snd (api_database.get_all_custom_models w)) = struck w ->
    fst (api_database.get_all_custom_models w) = Ok (listing (db w))) /\
   (struck (snd (api_database.get_all_custom_models w)) <> struck w ->
    fst (api_database.get_all_custom_models w) = Raise OperationalError)) /\
  (rows_of (db (snd (api_database.get_custom_model_by_name name w)))
   = rows_of (db w) /\
   (struck (snd (api_database.get_custom_model_by_name name w)) = struck w ->
    fst (api_database.get_custom_model_by_name name w)
    = Ok (lookup_by_name name (db w))) /\
   (struck (snd (api_database.get_custom_model_by_name name w)) <> struck w ->
    fst (api_database.get_custom_model_by_name name w)
    = Raise OperationalError)) /\
  (rows_of (db (snd (api_database.model_exists name w))) = rows_of (db w) /\
   (struck (snd (api_database.model_exists name w)) = struck w ->
    fst (api_database.model_exists name w) = Ok (has_name name (db w))) /\
   (struck (snd (api_database.model_exists name w)) <> struck w ->
    fst (api_database.model_exists name w) = Raise OperationalError)).
Proof.
  split; [|split].
  - destruct (read_outcome select_all_order_by_name
                (map api_database.row_to_dict) listing w select_all_ensured)
      as (H1 & _ & H2 & H3).
    repeat split; assumption.
  - rewrite get_custom_model_by_name_eq.
    destruct (read_outcome (select_by_name name)
                (option_map api_database.row_to_dict) (lookup_by_name name) w
                (select_by_name_ensured name))
      as (H1 & _ & H2 & H3).
    repeat split; assumption.
  - destruct (read_outcome (select_by_name name)
                (fun r => match r with Some _ => true | None => false end)
                (has_name name) w (select_exists_ensured name))
      as (H1 & _ & H2 & H3).
    repeat split; assumption.
Qed.

Lemma insert_ensured name provider model_id base_url temperature api_provider
    (ts : Z) (d : database) :
  insert_custom_model name provider model_id base_url temperature api_provider
    ts (ensure_tables d)
  = if has_name name d then Raise IntegrityError
    else Ok (tt, put_custom_models
                   {| t_rows := rows_of d ++
                        [inserted_row
                           {| f_name := name; f_provider := provider;
                              f_model_id := model_id; f_base_url := base_url;
                              f_temperature := temperature;
                              f_api_provider := api_provider |} ts d];
                      t_seq := seq_of d + 1 |} (ensure_tables d)).
Proof.
  destruct d as [[[rows sq]|] p];
    unfold has_name, rows_of, insert_custom_model, with_custom_models; simpl;
    try destruct (existsb (name_is name) rows); reflexivity.
Qed.

Lemma update_ensured (updates : list assignment) (name : string) (ts : Z)
    (d : database) :
  update_where_name updates name ts (ensure_tables d)
  = Ok (length (List.filter (name_is name) (rows_of d)),
        put_custom_models
          {| t_rows := map (fun r => if name_is name r
                                     then List.fold_left (assign ts) updates r
                                     else r) (rows_of d);
             t_seq := seq_of d |} (ensure_tables d)).
Proof. destruct d as [[[rows sq]|] p]; reflexivity. Qed.

Lemma delete_ensured (name : string) (ts : Z) (d : database) :
  delete_where_name name ts (ensure_tables d)
  = Ok (length (List.filter (name_is name) (rows_of d)),
        put_custom_models
          {| t_rows := List.filter (fun r => negb (name_is name r)) (rows_of d);
             t_seq := seq_of d |} (ensure_tables d)).
Proof. destruct d as [[[rows sq]|] p]; reflexivity. Qed.

Lemma provider_rows_of_ensure_tables (d : database) :
  provider_rows_of (ensure_tables d) = provider_rows_of d.
Proof. destruct d as [q [p|]]; reflexivity. Qed.

Lemma rows_of_put (l : list row) (s : Z) (d : database) :
  rows_of (put_custom_models {| t_rows := l; t_seq := s |} d) = l.
Proof. reflexivity. Qed.

Lemma provider_rows_of_put (t : table) (d : database) :
  provider_rows_of (put_custom_models t (ensure_tables d))
  = provider_rows_of d.
Proof. destruct d as [q [p|]]; reflexivity. Qed.

Lemma filter_unmatched (name : string) (rows : list row) :
  List.existsb (name_is name) rows = false ->
  List.filter (fun r => negb (name_is name r)) rows = rows.
Proof.
  induction rows as [|r rows IH]; simpl; [reflexivity|].
  destruct (name_is name r); simpl; [discriminate|].
  intros H. rewrite IH by exact H. reflexivity.
Qed.

(** A mutation of the store: [init_database], then one statement in its
    own transaction, every exception of which becomes [False]. *)
Lemma guarded_outcome {R} (stmt : statement R) (g : R -> bool)
    (h : exn -> M bool) (w : World) :
  (forall e, h e = ret false) ->
  exists r w',
    (run api_database.init_database in
     try_except
       (api_database.get_connection
          (let* x := cursor_execute stmt in ret (g x))) h) w = (r, w') /\
    ((r <> Ok true /\ rows_of (db w') = rows_of (db w) /\
      provider_rows_of (db w') = provider_rows_of (db w)) \/
     (struck w' = struck w /\
      match stmt (now w) (ensure_tables (db w)) with
      | Ok (x, d') => r = Ok (g x) /\ db w' = d'
      | Raise _ => False
      end)).
Proof.
  intros Hh. rewrite bind_run.
  destruct (init_database_outcome w) as (r0 & w1 & E0 & R0 & P0 & N0 & H0).
  rewrite E0. destruct H0 as [(-> & K0 & D0) | (-> & K0)].
  - destruct (guarded_statement_any stmt g h w1 Hh) as (r & w' & E & _ & H).
    cbv beta iota. rewrite E. exists r, w'. split; [reflexivity|].
    destruct H as [(K & -> & D) | (K & H)].
    + left. rewrite D. split; [discriminate|]. split; assumption.
    + rewrite N0, D0 in H.
      destruct (stmt (now w) (ensure_tables (db w))) as [[x d']|e].
      * right. split; [congruence | exact H].
      * left. destruct H as (-> & ->).
        split; [discriminate|].
        rewrite rows_of_ensure_tables, provider_rows_of_ensure_tables. auto.
  - exists (Raise OperationalError), w1. split; [reflexivity|].
    left. split; [discriminate|]. split; assumption.
Qed.

Lemma guarded_return_outcome (h : exn -> M bool) (w : World) :
  (forall e, h e = ret false) ->
  exists r w',
    (run api_database.init_database in
     try_except (api_database.get_connection (ret true)) h) w = (r, w') /\
    rows_of (db w') = rows_of (db w) /\
    provider_rows_of (db w') = provider_rows_of (db w).
Proof.
  intros Hh. rewrite bind_run.
  destruct (init_database_outcome w) as (r0 & w1 & E0 & R0 & P0 & N0 & H0).
  rewrite E0. destruct H0 as [(-> & K0 & D0) | (-> & K0)].
  - destruct (guarded_return_any true h w1 Hh) as (r & w' & E & _ & D & _).
    cbv beta iota. rewrite E. exists r, w'. rewrite D. auto.
  - exists (Raise OperationalError), w1. auto.
Qed.

Lemma perform_outcome (op : mutation) (w : World) :
  (fst (perform op w) = Ok true ->
   applies op (db w) = true /\
   rows_of (db (snd (perform op w))) = rows_after op (now w) (db w)) /\
  (fst (perform op w) <> Ok true ->
   rows_of (db (snd (perform op w))) = rows_of (db w)) /\
  provider_rows_of (db (snd (perform op w))) = provider_rows_of (db w).
Proof.
  destruct op as [name mi pr bu te ap | name mi pr bu te ap | name].
  - destruct (guarded_outcome (insert_custom_model name pr mi bu te ap)
                (fun _ => true)
                (fun e => match e with
                          | IntegrityError => ret false
                          | _ => ret false
                          end) w) as (r & w' & E & H);
      [intros []; reflexivity|].
    assert (Hrun : perform (Create name mi pr bu te ap) w = (r, w'))
      by (rewrite <- E; reflexivity).
    rewrite Hrun. simpl fst. simpl snd.
    destruct H as [(Hr & Hrows & Hp) | (_ & H)].
    + split; [intros; contradiction|]. split; auto.
    + rewrite insert_ensured in H.
      destruct (has_name name (db w)) eqn:Hn; [contradiction|].
      destruct H as (-> & ->).
      rewrite rows_of_put, provider_rows_of_put.
      unfold applies, rows_after. rewrite Hn.
      split; [auto|]. split; [intros H; contradiction | reflexivity].
  - unfold perform. rewrite update_custom_model_eq.
    pose proof (updates_of_nil mi pr bu te ap) as Hnil.
    pose proof (assign_updates mi pr bu te ap) as Hassign.
    destruct (updates_of mi pr bu te ap) as [|a us] eqn:Eu.
    + unfold applies, rows_after. rewrite (proj1 Hnil eq_refl).
      destruct (guarded_return_outcome (fun _ => ret false) w)
        as (r & w' & E & Hrows & Hp); [reflexivity|].
      rewrite E. simpl. auto.
    + destruct (none_supplied mi pr bu te ap) eqn:Hns.
      { destruct Hnil as [_ Hnil]. discriminate (Hnil eq_refl). }
      destruct (guarded_outcome
                  (update_where_name ((a :: us) ++ [SetUpdatedAtNow]) name)
                  (fun rowcount => (0 <? rowcount)%nat)
                  (fun _ => ret false) w) as (r & w' & E & H);
        [reflexivity|].
      rewrite E. simpl fst. simpl snd.
      destruct H as [(Hr & Hrows & Hp) | (_ & H)].
      * split; [intros; contradiction|]. split; auto.
      * rewrite update_ensured in H. destruct H as (-> & ->).
        rewrite rowcount_positive, rows_of_put, provider_rows_of_put.
        unfold applies, rows_after. rewrite Hns.
        fold (has_name name (db w)). rewrite orb_false_l.
        assert (Hmap : map (fun r => if name_is name r
                                     then List.fold_left (assign (now w))
                                            ((a :: us) ++ [SetUpdatedAtNow]) r
                                     else r) (rows_of (db w))
                       = map (fun r => if name_is name r
                                       then partially_updated mi pr bu te ap
                                              (now w) r
                                       else r) (rows_of (db w))).
        { apply map_ext. intros r0. destruct (name_is name r0); [|reflexivity].
          apply Hassign. }
        split; [intros [= ->]; split; [reflexivity | exact Hmap]|].
        split; [|reflexivity].
        intros Hf. destruct (has_name name (db w)) eqn:Hn;
          [exfalso; apply Hf; reflexivity|].
        apply map_unmatched. exact Hn.
  - destruct (guarded_outcome (delete_where_name name)
                (fun rowcount => (0 <? rowcount)%nat)
                (fun _ => ret false) w) as (r & w' & E & H);
      [reflexivity|].
    assert (Hrun : perform (Delete name) w = (r, w'))
      by (rewrite <- E; reflexivity).
    rewrite Hrun. simpl fst. simpl snd.
    destruct H as [(Hr & Hrows & Hp) | (_ & H)].
    + split; [intros; contradiction|]. split; auto.
    + rewrite delete_ensured in H. destruct H as (-> & ->).
      rewrite rowcount_positive, rows_of_put, provider_rows_of_put.
      unfold applies, rows_after.
      fold (has_name name (db w)).
      split; [intros [= ->]; split; reflexivity|].
      split; [|reflexivity].
      intros Hf. destruct (has_name name (db w)) eqn:Hn;
        [exfalso; apply Hf; reflexivity|].
      apply filter_unmatched. exact Hn.
Qed.

(** X3: under every fault schedule a create, update or delete of the
    store is all or nothing.  When it returns [True] it was applicable
    (create: the name was free; delete: the name was there; update: no
    field was supplied or the name was there) and the rows are exactly
    those of the completed operation; when it returns [False] or raises,
    the rows are those before the call.  The provider settings are never
    touched. *)
Theorem mutation_all_or_nothing (op : mutation) (w : World) :
  (fst (perform op w) = Ok true ->
   applies op (db w) = true /\
   rows_of (db (snd (perform op w))) = rows_after op (now w) (db w)) /\
  (fst (perform op w) <> Ok true ->
   rows_of (db (snd (perform op w))) = rows_of (db w)) /\
  provider_rows_of (db (snd (perform op w))) = provider_rows_of (db w).
Proof. apply perform_outcome. Qed.

(** ** Insert, look up, update, delete *)

Lemma find_snoc_fresh (name : string) (rows : list row) (r : row) :
  List.existsb (name_is name) rows = false ->
  List.find (name_is name) (rows ++ [r])
  = if name_is name r then Some r else None.
Proof.
  induction rows as [|x rows IH]; simpl; [reflexivity|].
  destruct (name_is name x); simpl; [discriminate | exact IH].
Qed.

Lemma find_snoc_other (other : string) (rows : list row) (r : row) :
  name_is other r = false ->
  List.find (name_is other) (rows ++ [r]) = List.find (name_is other) rows.
Proof.
  intros Hr. induction rows as [|x rows IH]; simpl; [rewrite Hr; reflexivity|].
  destruct (name_is other x); [reflexivity | exact IH].
Qed.

Lemma name_is_other (name other : string) (r : row) :
  other <> name -> name_is name r = true -> name_is other r = false.
Proof.
  unfold name_is. intros Hne H. apply String.eqb_eq in H.
  apply String.eqb_neq. congruence.
Qed.

Lemma find_filter_same (name : string) (rows : list row) :
  List.find (name_is name)
    (List.filter (fun r => negb (name_is name r)) rows) = None.
Proof.
  induction rows as [|x rows IH]; simpl; [reflexivity|].
  destruct (name_is name x) eqn:E; simpl; [exact IH|].
  rewrite E. exact IH.
Qed.

Lemma find_filter_other (name other : string) (rows : list row) :
  other <> name ->
  List.find (name_is other)
    (List.filter (fun r => negb (name_is name r)) rows)
  = List.find (name_is other) rows.
Proof.
  intros Hne. induction rows as [|x rows IH]; simpl; [reflexivity|].
  destruct (name_is name x) eqn:E; simpl.
  - rewrite (name_is_other name other x Hne E). exact IH.
  - destruct (name_is other x); [reflexivity | exact IH].
Qed.

Lemma find_map_update (name other : string) (f : row -> row)
    (rows : list row) :
  (forall r, r_name (f r) = r_name r) ->
  List.find (name_is other)
    (map (fun r => if name_is name r then f r else r) rows)
  = option_map (fun r => if name_is name r then f r else r)
      (List.find (name_is other) rows).
Proof.
  intros Hf. induction rows as [|x rows IH]; simpl; [reflexivity|].
  assert (Hx : name_is other (if name_is name x then f x else x)
               = name_is other x).
  { destruct (name_is name x); [|reflexivity]. unfold name_is.
    rewrite Hf. reflexivity. }
  rewrite Hx. destruct (name_is other x); [reflexivity | exact IH].
Qed.

Lemma lookup_run (name : string) (w : World) :
  faults w = [] ->
  fst (api_database.get_custom_model_by_name name w)
  = Ok (lookup_by_name name (db w)).
Proof.
  intros Hf. rewrite get_custom_model_by_name_nofault by exact Hf. reflexivity.
Qed.

Lemma exists_run (name : string) (w : World) :
  faults w = [] ->
  fst (api_database.model_exists name w) = Ok (has_name name (db w)).
Proof.
  intros Hf. rewrite model_exists_nofault by exact Hf. reflexivity.
Qed.

(** X4: in a fault-free run, creating a profile under a free name
    succeeds, and afterwards looking the name up returns a dictionary
    with exactly the values given, each under its own key, and the id the
    database assigned (one past its counter); [model_exists] answers
    [True], and the lookup of every other name answers as before. *)
Theorem create_then_lookup (p : profile) (w : World) :
  faults w = [] ->
  has_name (f_name p) (db w) = false ->
  fst (create p w) = Ok true /\
  fst (api_database.get_custom_model_by_name (f_name p) (snd (create p w)))
  = Ok (Some {| d_id := Some (seq_of (db w) + 1)%Z;
                d_name := Some (f_name p);
                d_provider := Some (f_provider p);
                d_config :=
                  Some {| c_model := Some (f_model_id p);
                          c_temperature := Some (f_temperature p);
                          c_base_url := Some (f_base_url p);
                          c_api_key := None;
                          c_response_format := None;
                          c_model_info := None |};
                d_api_provider := Some (f_api_provider p) |}) /\
  fst (api_database.model_exists (f_name p) (snd (create p w))) = Ok true /\
  (forall other,
     other <> f_name p ->
     fst (api_database.get_custom_model_by_name other (snd (create p w)))
     = fst (api_database.get_custom_model_by_name other w)).
Proof.
  intros Hf Hn.
  destruct (create_run p w Hf) as (w' & E & S & _ & _ & R).
  rewrite Hn in E, R. rewrite E. simpl fst. simpl snd.
  assert (Hself : name_is (f_name p) (inserted_row p (now w) (db w)) = true).
  { unfold name_is. simpl. apply String.eqb_refl. }
  split; [reflexivity|].
  rewrite !lookup_run, exists_run by (exact Hf || apply S).
  unfold lookup_by_name, has_name. rewrite R.
  split; [|split].
  - rewrite find_snoc_fresh by exact Hn. rewrite Hself. reflexivity.
  - rewrite existsb_app. simpl. rewrite Hself, orb_true_r. reflexivity.
  - intros other Hne.
    rewrite (lookup_run other w') by apply S.
    rewrite (lookup_run other w) by exact Hf.
    unfold lookup_by_name. rewrite R.
    rewrite find_snoc_other; [reflexivity|].
    eapply name_is_other; [exact Hne | exact Hself].
Qed.

Lemma create_then_lookup_witness :
  faults fresh_world = [] /\
  has_name (f_name team_gpt) (db fresh_world) = false /\
  fst (api_database.get_custom_model_by_name "TeamGPT"
         (snd (create team_gpt fresh_world)))
  = Ok (Some {| d_id := Some 1%Z;
                d_name := Some "TeamGPT";
                d_provider := Some "OpenAIChatCompletionClient";
                d_config :=
                  Some {| c_model := Some "openai/gpt-4o";
                          c_temperature := Some (2 # 10)%Q;
                          c_base_url := Some "https://openrouter.ai/api/v1";
                          c_api_key := None;
                          c_response_format := None;
                          c_model_info := None |};
                d_api_provider := Some "OPENAI" |}).
Proof.
  split; [reflexivity|]. split; [reflexivity|].
  apply (create_then_lookup team_gpt fresh_world eq_refl eq_refl).
Defined.

Lemma delete_run (name : string) (w : World) :
  faults w = [] ->
  exists w',
    api_database.delete_custom_model name w = (Ok (has_name name (db w)), w') /\
    settled w' /\
    rows_of (db w')
    = List.filter (fun r => negb (name_is name r)) (rows_of (db w)).
Proof.
  intros Hf. rewrite delete_custom_model_nofault by exact Hf.
  eexists. split; [reflexivity|]. unfold settled. simpl.
  rewrite ensure_tables_put. auto.
Qed.

Lemma put_same (d : database) :
  put_custom_models {| t_rows := rows_of d; t_seq := seq_of d |}
                    (ensure_tables d)
  = ensure_tables d.
Proof. destruct d as [[[rows sq]|] q]; reflexivity. Qed.

(** X5: in a fault-free run, after [delete_custom_model name] (whatever
    it returned) the name is gone: looking it up returns [None],
    [model_exists] answers [False], and deleting it again returns [False]
    and changes no row; the lookup of every other name answers as
    before. *)
Theorem delete_then_lookup (name : string) (w : World) :
  faults w = [] ->
  fst (api_database.get_custom_model_by_name name
         (snd (api_database.delete_custom_model name w))) = Ok None /\
  fst (api_database.model_exists name
         (snd (api_database.delete_custom_model name w))) = Ok false /\
  api_database.delete_custom_model name
    (snd (api_database.delete_custom_model name w))
  = (Ok false, snd (api_database.delete_custom_model name w)) /\
  (forall other,
     other <> name ->
     fst (api_database.get_custom_model_by_name other
            (snd (api_database.delete_custom_model name w)))
     = fst (api_database.get_custom_model_by_name other w)).
Proof.
  intros Hf. destruct (delete_run name w Hf) as (w' & E & S & R).
  rewrite E. simpl snd.
  assert (Hgone : has_name name (db w') = false).
  { unfold has_name. rewrite R, <- find_is_some, find_filter_same.
    reflexivity. }
  rewrite !lookup_run, exists_run by apply S.
  split; [unfold lookup_by_name; rewrite R, find_filter_same; reflexivity|].
  split; [rewrite Hgone; reflexivity|].
  split.
  - rewrite delete_custom_model_nofault by apply S.
    rewrite Hgone, filter_unmatched by exact Hgone.
    rewrite put_same, world_settled by apply S. reflexivity.
  - intros other Hne.
    rewrite (lookup_run other w') by apply S.
    rewrite (lookup_run other w) by exact Hf.
    unfold lookup_by_name. rewrite R, find_filter_other by exact Hne.
    reflexivity.
Qed.

Lemma update_changes_rows (w : World) (name : string)
    (model_id provider base_url : option string) (temperature : option Q)
    (api_provider : option string) :
  faults w = [] ->
  exists w',
    api_database.update_custom_model name model_id provider base_url
                                     temperature api_provider w
    = (Ok (if none_supplied model_id provider base_url temperature api_provider
           then true else has_name name (db w)), w') /\
    rows_of (db w')
    = (if none_supplied model_id provider base_url temperature api_provider
       then rows_of (db w)
       else map (fun r => if name_is name r
                          then partially_updated model_id provider base_url
                                 temperature api_provider (now w) r
                          else r) (rows_of (db w))).
Proof.
  intros Hf. rewrite update_custom_model_nofault by exact Hf.
  destruct (none_supplied model_id provider base_url temperature api_provider);
    eexists; (split; [reflexivity|]); simpl;
    rewrite ?rows_of_ensure_tables; reflexivity.
Qed.

Lemma delete_then_lookup_witness :
  faults team_world = [] /\
  fst (api_database.get_custom_model_by_name "TeamGPT"
         (snd (api_database.delete_custom_model "TeamGPT" team_world)))
  = Ok None /\
  fst (api_database.model_exists "TeamGPT"
         (snd (api_database.delete_custom_model "TeamGPT" team_world)))
  = Ok false.
Proof.
  split; [reflexivity|].
  destruct (delete_then_lookup "TeamGPT" team_world eq_refl)
    as (H1 & H2 & _).
  split; assumption.
Defined.

(** X6: in a fault-free run [update_custom_model] cannot rename, add or
    remove a profile: the names in the store, in order, are those before
    the call, and the lookup of every other name answers as before.  When
    at least one field is supplied, looking the name up afterwards
    returns a dictionary with the id and the name of the row found
    before and, under each other key, the value supplied for it or, when
    none was, the value of that row. *)
Theorem update_then_lookup (w : World) (name : string)
    (model_id provider base_url : option string) (temperature : option Q)
    (api_provider : option string) :
  faults w = [] ->
  names_of (db (snd (api_database.update_custom_model name model_id provider
                       base_url temperature api_provider w)))
  = names_of (db w) /\
  (forall other,
     other <> name ->
     fst (api_database.get_custom_model_by_name other
            (snd (api_database.update_custom_model name model_id provider
                    base_url temperature api_provider w)))
     = fst (api_database.get_custom_model_by_name other w)) /\
  (none_supplied model_id provider base_url temperature api_provider = false ->
   forall r,
     List.find (name_is name) (rows_of (db w)) = Some r ->
     fst (api_database.get_custom_model_by_name name
            (snd (api_database.update_custom_model name model_id provider
                    base_url temperature api_provider w)))
     = Ok (Some {| d_id := Some (r_id r);
                   d_name := Some (r_name r);
                   d_provider := Some (dict_get provider (r_provider r));
                   d_config :=
                     Some {| c_model :=
                               Some (dict_get model_id (r_model_id r));
                             c_temperature :=
                               Some (dict_get temperature (r_temperature r));
                             c_base_url :=
                               Some (dict_get base_url (r_base_url r));
                             c_api_key := None;
                             c_response_format := None;
                             c_model_info := None |};
                   d_api_provider :=
                     Some (dict_get api_provider (r_api_provider r)) |})).
Proof.
  intros Hf.
  pose proof (update_custom_model_run w name model_id provider base_url
                temperature api_provider Hf) as (Hf' & _).
  destruct (update_changes_rows w name model_id provider base_url temperature
              api_provider Hf) as (w' & E & R).
  rewrite E in *. simpl snd in *.
  assert (Hkeep : forall r, r_name (partially_updated model_id provider
                                      base_url temperature api_provider
                                      (now w) r) = r_name r)
    by reflexivity.
  split; [|split].
  - unfold names_of. rewrite R.
    destruct (none_supplied model_id provider base_url temperature
                api_provider); [reflexivity|].
    apply names_after_update. exact Hkeep.
  - intros other Hne.
    rewrite (lookup_run other w') by exact Hf'.
    rewrite (lookup_run other w) by exact Hf.
    unfold lookup_by_name. rewrite R.
    destruct (none_supplied model_id provider base_url temperature
                api_provider); [reflexivity|].
    rewrite find_map_update by exact Hkeep.
    destruct (List.find (name_is other) (rows_of (db w))) as [r|] eqn:Er;
      [|reflexivity].
    simpl. apply find_some in Er. destruct Er as (_ & Er).
    destruct (name_is name r) eqn:En; [|reflexivity].
    rewrite (name_is_other name other r Hne En) in Er. discriminate.
  - intros Hns r Hr.
    rewrite (lookup_run name w') by exact Hf'.
    unfold lookup_by_name. rewrite R, Hns.
    rewrite find_map_update by exact Hkeep. rewrite Hr. simpl.
    apply find_some in Hr. destruct Hr as (_ & ->). reflexivity.
Qed.

Lemma update_then_lookup_witness :
  faults team_world = [] /\
  fst (api_database.get_custom_model_by_name "TeamGPT"
         (snd (api_database.update_custom_model "TeamGPT" None None None
                 (Some seven_tenths) None team_world)))
  = Ok (Some {| d_id := Some 1%Z;
                d_name := Some "TeamGPT";
                d_provider := Some "OpenAIChatCompletionClient";
                d_config :=
                  Some {| c_model := Some "openai/gpt-4o";
                          c_temperature := Some seven_tenths;
                          c_base_url := Some "https://openrouter.ai/api/v1";
                          c_api_key := None;
                          c_response_format := None;
                          c_model_info := None |};
                d_api_provider := Some "OPENAI" |}).
Proof.
  split; [reflexivity|].
  exact (proj2 (proj2 (update_then_lookup team_world "TeamGPT" None None None
                         (Some seven_tenths) None eq_refl))
               eq_refl team_gpt_row eq_refl).
Defined.

(** ** The listing *)

Lemma insert_by_name_sorted (r : row) (l : list row) :
  Sorted name_le l -> Sorted name_le (insert_by_name r l).
Proof.
  induction l as [|x l IH]; intros Hs; simpl.
  - constructor; constructor.
  - destruct (String.leb (r_name r) (r_name x)) eqn:E.
    + constructor; [exact Hs | constructor; exact E].
    + apply Sorted_inv in Hs. destruct Hs as (Hs & Hhd).
      constructor; [apply IH; exact Hs|].
      assert (Hxr : name_le x r).
      { destruct (String.leb_total (r_name x) (r_name r)) as [H|H];
          [exact H | congruence]. }
      destruct l as [|y l]; simpl.
      * constructor. exact Hxr.
      * destruct (String.leb (r_name r) (r_name y)); constructor;
          [exact Hxr|]. apply HdRel_inv in Hhd. exact Hhd.
Qed.

Lemma order_by_name_sorted (l : list row) : Sorted name_le (order_by_name l).
Proof.
  induction l as [|x l IH]; simpl; [constructor|].
  apply insert_by_name_sorted. exact IH.
Qed.

(** X7: in a fault-free run [get_all_custom_models] returns the rows of
    the store, each once (none lost, none repeated), in ascending
    byte-wise order of name, and changes no row; a name is in the list
    exactly when [model_exists] answers [True] for it. *)
Theorem listing_is_sorted_and_complete (w : World) :
  faults w = [] ->
  exists rows w',
    api_database.get_all_custom_models w
    = (Ok (map api_database.row_to_dict rows), w') /\
    Sorted name_le rows /\
    Permutation rows (rows_of (db w)) /\
    rows_of (db w') = rows_of (db w) /\
    (forall name,
       In (Some name) (map d_name (map api_database.row_to_dict rows))
       <-> fst (api_database.model_exists name w) = Ok true).
Proof.
  intros Hf. rewrite get_all_custom_models_nofault by exact Hf.
  exists (order_by_name (rows_of (db w))). eexists.
  split; [reflexivity|]. split; [apply order_by_name_sorted|].
  split; [apply order_by_name_perm|]. simpl.
  split; [apply rows_of_ensure_tables|].
  intros name. rewrite exists_run by exact Hf.
  rewrite map_map. simpl.
  rewrite in_map_iff. split.
  - intros (r & [= Hr] & Hin). f_equal. apply has_name_In.
    unfold names_of. apply in_map_iff. exists r. split; [exact Hr|].
    eapply Permutation_in; [apply order_by_name_perm | exact Hin].
  - intros [= H]. apply has_name_In in H. unfold names_of in H.
    apply in_map_iff in H. destruct H as (r & Hr & Hin).
    exists r. split; [f_equal; exact Hr|].
    eapply Permutation_in; [symmetry; apply order_by_name_perm | exact Hin].
Qed.

Lemma listing_is_sorted_and_complete_witness :
  faults team_world = [] /\
  exists rows w',
    api_database.get_all_custom_models team_world
    = (Ok (map api_database.row_to_dict rows), w') /\
    Sorted name_le rows /\
    Permutation rows (rows_of (db team_world)).
Proof.
  split; [reflexivity|].
  destruct (listing_is_sorted_and_complete team_world eq_refl)
    as (rows & w' & E & S & P & _).
  exists rows, w'. split; [exact E|]. split; assumption.
Defined.

(** ** What a migration inserts *)

(** X8: in a fault-free run [migrate_from_json] takes the records, in
    order, that have a non-empty name and a non-empty model identifier and
    whose name is neither in the store nor carried by a record taken
    earlier in the list.  It returns their number and appends one row for
    each, in that order, with the record's values and the defaults for the
    fields it lacks; the rows already in the store stay as they are, in
    front. *)
Theorem migrate_inserts_accepted (json_models : list model_dict) (w : World) :
  faults w = [] ->
  exists w' new,
    api_database.migrate_from_json json_models w
    = (Ok (length (accepted json_models (names_of (db w)))), w') /\
    rows_of (db w') = rows_of (db w) ++ new /\
    map profile_of new
    = map record_profile (accepted json_models (names_of (db w))).
Proof. apply migrate_from_json_accepts. Qed.

Lemma migrate_inserts_accepted_witness :
  faults team_world = [] /\
  exists w',
    api_database.migrate_from_json
      [legacy_old1; api_database.row_to_dict team_gpt_row; legacy_old1]
      team_world
    = (Ok 1, w') /\
    map profile_of (rows_of (db w'))
    = [team_gpt; record_profile legacy_old1].
Proof.
  split; [reflexivity|].
  destruct (migrate_inserts_accepted
              [legacy_old1; api_database.row_to_dict team_gpt_row; legacy_old1]
              team_world eq_refl) as (w' & new & E & R & P).
  exists w'. split; [exact E|]. rewrite R, map_app, P. reflexivity.
Defined.

Lemma migrate_loop_grows (json_models : list model_dict) :
  forall (acc : nat) (w : World),
    exists new,
      rows_of (db (snd (api_database.migrate_loop json_models acc w)))
      = rows_of (db w) ++ new /\
      (forall n,
         fst (api_database.migrate_loop json_models acc w) = Ok n ->
         n = acc + length new).
Proof.
  induction json_models as [|m rest IH]; intros acc w.
  - exists []. simpl. rewrite app_nil_r. split; [reflexivity|].
    intros n [= <-]. lia.
  - rewrite migrate_loop_cons. destruct (migratable m); [|apply IH].
    pose proof (perform_outcome
                  (Create (f_name (record_profile m))
                          (f_model_id (record_profile m))
                          (f_provider (record_profile m))
                          (f_base_url (record_profile m))
                          (f_temperature (record_profile m))
                          (f_api_provider (record_profile m))) w)
      as (Htrue & Hother & _).
    change (perform _ w) with (create (record_profile m) w)
      in Htrue, Hother.
    rewrite bind_run.
    destruct (create (record_profile m) w) as [[[|]|e] w1]; simpl in *.
    + destruct (Htrue eq_refl) as (_ & R1).
      destruct (IH (S acc) w1) as (new & R & N).
      eexists. rewrite R, R1, <- app_assoc. split; [reflexivity|].
      intros n Hn. rewrite (N n Hn). simpl. lia.
    + destruct (IH acc w1) as (new & R & N).
      exists new. rewrite R, Hother by discriminate. auto.
    + exists []. rewrite app_nil_r. split; [apply Hother; discriminate|].
      discriminate.
Qed.

(** ** Provider settings *)

Lemma get_provider_settings_nofault (name : string) (w : World) :
  faults w = [] ->
  api_database.get_provider_settings name w
  = (Ok (provider_lookup name (db w)),
     set_conn None (set_db (ensure_tables (db w)) w)).
Proof.
  py_world w. unfold api_database.get_provider_settings, provider_lookup,
    provider_rows_of.
  destruct d as [[[rows sq]|] [p|]]; py_unfold_all;
    try (destruct (List.find (provider_is name) p)); reflexivity.
Qed.

Lemma set_provider_settings_run (name : string) (enabled : bool)
    (base_url : option string) (w : World) :
  faults w = [] ->
  exists w',
    api_database.set_provider_settings name enabled base_url w = (Ok true, w') /\
    faults w' = [] /\
    rows_of (db w') = rows_of (db w) /\
    provider_rows_of (db w')
    = (if List.existsb (provider_is name) (provider_rows_of (db w))
       then map (fun r => if provider_is name r
                          then {| p_provider_name := p_provider_name r;
                                  p_is_enabled := if enabled then 1 else 0;
                                  p_base_url := base_url |}
                          else r) (provider_rows_of (db w))
       else provider_rows_of (db w)
            ++ [{| p_provider_name := name;
                   p_is_enabled := if enabled then 1 else 0;
                   p_base_url := base_url |}]).
Proof.
  py_world w. unfold api_database.set_provider_settings, provider_rows_of,
    rows_of.
  destruct d as [[[rows sq]|] [p|]]; py_unfold_all;
    try (destruct (existsb (provider_is name) p));
    eexists; (split; [reflexivity|]); simpl; auto.
Qed.

Lemma provider_is_true (name : string) (r : provider_row) :
  provider_is name r = true <-> p_provider_name r = name.
Proof. unfold provider_is. apply String.eqb_eq. Qed.

Lemma provider_find_updated (name other : string) (f : provider_row -> provider_row)
    (rows : list provider_row) :
  (forall r, p_provider_name (f r) = p_provider_name r) ->
  List.find (provider_is other)
    (map (fun r => if provider_is name r then f r else r) rows)
  = option_map (fun r => if provider_is name r then f r else r)
      (List.find (provider_is other) rows).
Proof.
  intros Hf. induction rows as [|x rows IH]; simpl; [reflexivity|].
  assert (Hx : provider_is other (if provider_is name x then f x else x)
               = provider_is other x).
  { destruct (provider_is name x); [|reflexivity]. unfold provider_is.
    rewrite Hf. reflexivity. }
  rewrite Hx. destruct (provider_is other x); [reflexivity | exact IH].
Qed.

Lemma provider_find_snoc (other : string) (rows : list provider_row)
    (r : provider_row) :
  List.find (provider_is other) (rows ++ [r])
  = match List.find (provider_is other) rows with
    | Some x => Some x
    | None => if provider_is other r then Some r else None
    end.
Proof.
  induction rows as [|x rows IH]; simpl; [reflexivity|].
  destruct (provider_is other x); [reflexivity | exact IH].
Qed.

Lemma provider_find_none (name : string) (rows : list provider_row) :
  List.existsb (provider_is name) rows = false ->
  List.find (provider_is name) rows = None.
Proof.
  induction rows as [|x rows IH]; simpl; [reflexivity|].
  destruct (provider_is name x); [discriminate | exact IH].
Qed.

Lemma provider_find_some (name : string) (rows : list provider_row) :
  List.existsb (provider_is name) rows = true ->
  exists r, List.find (provider_is name) rows = Some r /\
            provider_is name r = true.
Proof.
  induction rows as [|x rows IH]; simpl; [discriminate|].
  destruct (provider_is name x) eqn:E; [eauto | exact IH].
Qed.

Lemma bool_of_int_of_bool (b : bool) :
  negb ((if b then 1 else 0) =? 0)%Z = b.
Proof. destruct b; reflexivity. Qed.

(** X10: in a fault-free run [set_provider_settings] returns [True], and
    [get_provider_settings] of the same name then returns the name, the
    flag and the base URL just set, whether the provider was new or
    already had settings (which are overwritten, not duplicated: the
    number of rows grows by one for a new provider and stays for a known
    one).  The settings of every other provider and the rows of
    [custom_models] are untouched. *)
Theorem provider_settings_set_then_get (name : string) (enabled : bool)
    (base_url : option string) (w : World) :
  faults w = [] ->
  fst (api_database.set_provider_settings name enabled base_url w) = Ok true /\
  fst (api_database.get_provider_settings name
         (snd (api_database.set_provider_settings name enabled base_url w)))
  = Ok (Some {| api_database.pd_provider_name := name;
                api_database.pd_is_enabled := enabled;
                api_database.pd_base_url := base_url |}) /\
  (forall other,
     other <> name ->
     fst (api_database.get_provider_settings other
            (snd (api_database.set_provider_settings name enabled base_url w)))
     = fst (api_database.get_provider_settings other w)) /\
  length (provider_rows_of
            (db (snd (api_database.set_provider_settings name enabled
                        base_url w))))
  = (if List.existsb (provider_is name) (provider_rows_of (db w))
     then length (provider_rows_of (db w))
     else S (length (provider_rows_of (db w)))) /\
  rows_of (db (snd (api_database.set_provider_settings name enabled
                      base_url w)))
  = rows_of (db w).
Proof.
  intros Hf.
  destruct (set_provider_settings_run name enabled base_url w Hf)
    as (w' & E & Hf' & R & P).
  rewrite E. simpl fst. simpl snd.
  split; [reflexivity|].
  assert (Hkeep : forall r : provider_row,
            p_provider_name
              {| p_provider_name := p_provider_name r;
                 p_is_enabled := if enabled then 1 else 0;
                 p_base_url := base_url |} = p_provider_name r)
    by reflexivity.
  split; [|split; [|split; [|exact R]]].
  - rewrite get_provider_settings_nofault by exact Hf'. simpl fst.
    unfold provider_lookup. rewrite P.
    destruct (existsb (provider_is name) (provider_rows_of (db w))) eqn:Ex.
    + rewrite (provider_find_updated name name _ _ Hkeep).
      destruct (provider_find_some name _ Ex) as (r & -> & Hr).
      simpl. rewrite Hr. unfold provider_row_to_dict. simpl.
      rewrite bool_of_int_of_bool.
      apply provider_is_true in Hr. rewrite Hr. reflexivity.
    + rewrite provider_find_snoc, (provider_find_none name _ Ex).
      unfold provider_is at 1. simpl. rewrite String.eqb_refl.
      unfold provider_row_to_dict. simpl.
      rewrite bool_of_int_of_bool. reflexivity.
  - intros other Hne.
    rewrite !get_provider_settings_nofault by assumption. simpl fst.
    unfold provider_lookup. rewrite P.
    destruct (existsb (provider_is name) (provider_rows_of (db w))).
    + rewrite (provider_find_updated name other _ _ Hkeep).
      destruct (List.find (provider_is other) (provider_rows_of (db w)))
        as [r|] eqn:Er; [|reflexivity].
      simpl. apply find_some in Er. destruct Er as (_ & Er).
      destruct (provider_is name r) eqn:En; [|reflexivity].
      apply provider_is_true in Er, En. congruence.
    + rewrite provider_find_snoc.
      destruct (List.find (provider_is other) (provider_rows_of (db w)));
        [reflexivity|].
      unfold provider_is. simpl.
      destruct (String.eqb_spec name other); [congruence | reflexivity].
  - rewrite P.
    destruct (existsb (provider_is name) (provider_rows_of (db w))).
    + apply length_map.
    + rewrite length_app. simpl. lia.
Qed.

Lemma provider_settings_set_then_get_witness :
  faults groq_world = [] /\
  fst (api_database.get_provider_settings "GROQ" groq_world)
  = Ok (Some {| api_database.pd_provider_name := "GROQ";
                api_database.pd_is_enabled := false;
                api_database.pd_base_url := None |}) /\
  fst (api_database.get_provider_settings "GROQ"
         (snd (api_database.set_provider_settings "GROQ" true
                 (Some "https://api.groq.com/openai/v1") groq_world)))
  = Ok (Some {| api_database.pd_provider_name := "GROQ";
                api_database.pd_is_enabled := true;
                api_database.pd_base_url :=
                  Some "https://api.groq.com/openai/v1" |}).
Proof.
  split; [reflexivity|]. split; [vm_compute; reflexivity|].
  apply (provider_settings_set_then_get "GROQ" true
           (Some "https://api.groq.com/openai/v1") groq_world eq_refl).
Defined.

(** ** The key dictionary *)

Lemma load_api_keys_keys (w : World) :
  exists keys,
    api_manager.load_api_keys w
    = (Ok keys, with_cached_keys keys (world_at w credential_keys)) /\
    forall key,
      keys !! key
      = if is_credential_key key then Some (loaded_key w key) else None.
Proof.
  rewrite load_api_keys_eq. eexists. split; [reflexivity|].
  intros key. unfold is_credential_key, credential_keys, existsb.
  rewrite !lookup_insert, lookup_empty.
  repeat (case_decide; [subst key; reflexivity|]).
  rewrite !(proj2 (String.eqb_neq _ _)) by congruence. reflexivity.
Qed.

Lemma is_credential_key_In (key : string) :
  is_credential_key key = true <-> In key credential_keys.
Proof.
  unfold is_credential_key. rewrite existsb_exists. split.
  - intros (k & Hin & Hk). apply String.eqb_eq in Hk. subst k. exact Hin.
  - intros Hin. exists key. split; [exact Hin | apply String.eqb_refl].
Qed.

Lemma loaded_key_frame (w w' : World) (key : string) :
  environ w' = environ w -> secrets w' = secrets w ->
  secrets_parsed w' = secrets_parsed w ->
  loaded_key w' key = loaded_key w key.
Proof.
  intros He Hs Hp. unfold loaded_key, world_at, parse_secrets.
  rewrite Hs, Hp, ?He.
  destruct (existsb (unset (environ w)) (upto key credential_keys));
    [destruct (secrets w); [destruct (secrets_parsed w)|]|];
    simpl; rewrite ?He; reflexivity.
Qed.

Lemma load_api_keys_frame (w w' : World) :
  environ w' = environ w -> secrets w' = secrets w ->
  secrets_parsed w' = secrets_parsed w ->
  fst (api_manager.load_api_keys w') = fst (api_manager.load_api_keys w).
Proof.
  intros He Hs Hp.
  destruct (load_api_keys_keys w) as (keys & E & L).
  destruct (load_api_keys_keys w') as (keys' & E' & L').
  rewrite E, E'. simpl. f_equal. apply map_eq. intros key.
  rewrite L, L', (loaded_key_frame w w' key He Hs Hp). reflexivity.
Qed.

Lemma world_at_frame (w : World) (keys : list string) :
  secrets (world_at w keys) = secrets w /\
  session_state (world_at w keys) = session_state w /\
  db (world_at w keys) = db w /\ conn (world_at w keys) = conn w /\
  faults (world_at w keys) = faults w /\
  struck (world_at w keys) = struck w /\ now (world_at w keys) = now w /\
  legacy_file (world_at w keys) = legacy_file w /\
  backup_file (world_at w keys) = backup_file w /\
  model_configs_key (world_at w keys) = model_configs_key w.
Proof.
  unfold world_at, parse_secrets.
  destruct (existsb (unset (environ w)) keys);
    [destruct (secrets w) eqn:E; [destruct (secrets_parsed w)|]|];
    simpl; rewrite ?E; repeat apply conj; reflexivity.
Qed.

Lemma resolved_overlaid (m env : gmap string string) (key : string) :
  resolved (overlaid m env) (Some m) key
  = match m !! key with
    | Some s => s
    | None => dict_get (env !! key) ""
    end.
Proof.
  unfold resolved, overlaid. destruct (m !! key) as [s|] eqn:Hm.
  - rewrite (lookup_union_Some_l m env key s Hm). destruct s; reflexivity.
  - rewrite (lookup_union_r m env key Hm).
    destruct (env !! key) as [[|a e]|]; reflexivity.
Qed.

Lemma existsb_incl {A} (f : A -> bool) (l l' : list A) :
  incl l l' -> existsb f l' = false -> existsb f l = false.
Proof.
  intros Hi Hf. destruct (existsb f l) eqn:E; [|reflexivity].
  apply existsb_exists in E. destruct E as (x & Hin & Hx).
  assert (existsb f l' = true) as H'
    by (apply existsb_exists; exists x; auto).
  congruence.
Qed.

Lemma upto_incl (key : string) (l : list string) : incl (upto key l) l.
Proof.
  induction l as [|k l IH]; simpl; [apply incl_refl|].
  destruct (String.eqb k key).
  - intros x [<-|[]]. left. reflexivity.
  - intros x [<-|Hx]; [left; reflexivity | right; apply IH; exact Hx].
Qed.

(** Once [load_api_keys] has run, the environment no longer moves: every
    further lookup answers in the environment it left. *)
Lemma loaded_key_stable (w u : World) (key : string) :
  environ u = environ (world_at w credential_keys) ->
  secrets u = secrets w ->
  secrets_parsed u = secrets_parsed (world_at w credential_keys) ->
  loaded_key u key = resolved (environ u) (secrets u) key.
Proof.
  intros He Hs Hp. unfold loaded_key.
  assert (Hat : environ (world_at u (upto key credential_keys)) = environ u);
    [|rewrite Hat; reflexivity].
  unfold world_at at 1.
  destruct (existsb (unset (environ u)) (upto key credential_keys)) eqn:Hu;
    [|reflexivity].
  unfold world_at in He, Hp.
  destruct (existsb (unset (environ w)) credential_keys) eqn:Hw.
  - unfold parse_secrets in *. rewrite Hs.
    destruct (secrets w) as [m|] eqn:E; [|reflexivity].
    destruct (secrets_parsed w) eqn:P; simpl in Hp;
      rewrite ?Hp, ?P; reflexivity.
  - rewrite He in Hu.
    rewrite (existsb_incl _ _ _ (upto_incl key credential_keys) Hw) in Hu.
    discriminate.
Qed.

(** X11: [load_api_keys] never raises.  The dictionary it returns has
    exactly the six keys OPENAI, DEEPSEEK, GEMINI, OPENROUTER, GROQ and
    GROK [_API_KEY]; any other key is absent, whatever the environment
    or the secrets hold.  The keys are looked up in that order, each in
    the environment as the lookups before it left it: the variable when
    set and not empty, else the entry of the secrets file, else the empty
    string.  The call caches the dictionary in the session and, when one
    of the six variables is unset, uses [st.secrets], whose first use
    writes the entries of the secrets file into the environment; nothing
    else changes.  So when all six variables are set, the environment
    gives every value; but in a process that has not used [st.secrets]
    yet and in which OPENAI_API_KEY is unset, every key that the secrets
    file has takes its value from the file, also when the variable is
    set.  A second call answers every key in the environment the first
    one left. *)
Theorem load_api_keys_has_the_six_keys (w : World) :
  exists keys,
    api_manager.load_api_keys w
    = (Ok keys, with_cached_keys keys (world_at w credential_keys)) /\
    (forall key,
       In key credential_keys -> keys !! key = Some (loaded_key w key)) /\
    (forall key, ~ In key credential_keys -> keys !! key = None) /\
    (existsb (unset (environ w)) credential_keys = false ->
     world_at w credential_keys = w /\
     forall key,
       In key credential_keys ->
       environ w !! key = Some (loaded_key w key)) /\
    (forall m,
       secrets w = Some m -> secrets_parsed w = false ->
       unset (environ w) "OPENAI_API_KEY" = true ->
       environ (world_at w credential_keys) = m ∪ environ w /\
       forall key,
         In key credential_keys ->
         loaded_key w key
         = match m !! key with
           | Some s => s
           | None => dict_get (environ w !! key) ""
           end) /\
    (exists keys',
       fst (api_manager.load_api_keys
              (with_cached_keys keys (world_at w credential_keys)))
       = Ok keys' /\
       forall key,
         In key credential_keys ->
         keys' !! key
         = Some (resolved (environ (world_at w credential_keys))
                   (secrets w) key)).
Proof.
  destruct (load_api_keys_keys w) as (keys & E & L).
  exists keys. split; [exact E|].
  split; [|split; [|split; [|split]]].
  - intros key Hin. rewrite L.
    rewrite (proj2 (is_credential_key_In key) Hin). reflexivity.
  - intros key Hnot. rewrite L.
    destruct (is_credential_key key) eqn:H; [|reflexivity].
    apply is_credential_key_In in H. contradiction.
  - intros Hall. unfold world_at at 1. rewrite Hall.
    split; [reflexivity|]. intros key Hin.
    unfold loaded_key, world_at.
    rewrite (existsb_incl _ _ _ (upto_incl key credential_keys) Hall).
    assert (Hk : unset (environ w) key = false).
    { destruct (unset (environ w) key) eqn:Hu; [|reflexivity].
      assert (existsb (unset (environ w)) credential_keys = true) as H'
        by (apply existsb_exists; exists key; auto).
      congruence. }
    unfold unset, resolved in *.
    destruct (environ w !! key) as [[|a e]|]; try discriminate. reflexivity.
  - intros m Hs Hp Hu.
    assert (Hw : forall l,
              world_at w ("OPENAI_API_KEY" :: l)
              = set_environ (overlaid m (environ w)) true w).
    { intros l. unfold world_at, parse_secrets. simpl existsb.
      rewrite Hu, Hs, Hp. reflexivity. }
    split; [unfold credential_keys; rewrite Hw; reflexivity|].
    intros key Hin. unfold loaded_key. rewrite Hs.
    assert (Hat : world_at w (upto key credential_keys)
                  = set_environ (overlaid m (environ w)) true w).
    { unfold credential_keys, upto.
      destruct (String.eqb "OPENAI_API_KEY" key); apply Hw. }
    rewrite Hat. apply resolved_overlaid.
  - destruct (load_api_keys_keys
                (with_cached_keys keys (world_at w credential_keys)))
      as (keys' & E' & L').
    exists keys'. rewrite E'. split; [reflexivity|].
    intros key Hin. rewrite L'.
    rewrite (proj2 (is_credential_key_In key) Hin). f_equal.
    rewrite (loaded_key_stable w
               (with_cached_keys keys (world_at w credential_keys)) key
               eq_refl (proj1 (world_at_frame w credential_keys)) eq_refl).
    change (resolved (environ (world_at w credential_keys))
              (secrets (world_at w credential_keys)) key
            = resolved (environ (world_at w credential_keys))
                (secrets w) key).
    rewrite (proj1 (world_at_frame w credential_keys)). reflexivity.
Qed.

(** X12: for an ASCII provider name (on which [upper] is [str.upper]),
    [get_api_key provider] never raises; it upper-cases the provider,
    appends "_API_KEY" and returns the value [load_api_keys] finds for
    that key when it is one of its six keys, and the empty string for any
    other provider, even one whose key is set in the environment.  It
    leaves the process as [load_api_keys] does. *)
Theorem get_api_key_resolves_known_families (provider : string) (w : World) :
  isascii provider = true ->
  exists keys,
    api_manager.load_api_keys w
    = (Ok keys, with_cached_keys keys (world_at w credential_keys)) /\
    api_manager.get_api_key provider w
    = (Ok (if is_credential_key (upper provider +:+ "_API_KEY")
           then loaded_key w (upper provider +:+ "_API_KEY")
           else ""),
       with_cached_keys keys (world_at w credential_keys)).
Proof.
  intros _.
  destruct (load_api_keys_keys w) as (keys & E & L).
  exists keys. split; [exact E|].
  unfold api_manager.get_api_key. rewrite bind_run, E.
  unfold ret. rewrite L.
  destruct (is_credential_key (upper provider +:+ "_API_KEY")); reflexivity.
Qed.

(** Mixed case resolves like upper case. *)
Lemma get_api_key_resolves_known_families_witness :
  isascii "Groq" = true /\
  fst (api_manager.get_api_key "Groq" keyed_world) = Ok "gsk-file".
Proof.
  split; [reflexivity|].
  destruct (get_api_key_resolves_known_families "Groq" keyed_world eq_refl)
    as (keys & _ & E).
  rewrite E. vm_compute. reflexivity.
Defined.

(** A family outside the six gets nothing although its variable is set. *)
Example get_api_key_unknown_family :
  fst (api_manager.get_api_key "anthropic" keyed_world) = Ok "" /\
  environ keyed_world !! "ANTHROPIC_API_KEY" = Some "sk-ant".
Proof. split; vm_compute; reflexivity. Qed.

(** The first call finds OPENAI_API_KEY in the environment, then reaches
    the secrets file for DEEPSEEK_API_KEY; the second call finds the
    value of the file in the environment. *)
Example load_api_keys_second_call_differs :
  match fst (api_manager.load_api_keys keyed_world) with
  | Ok keys => keys !! "OPENAI_API_KEY"
  | Raise _ => None
  end = Some "sk-env" /\
  match fst (api_manager.load_api_keys
               (snd (api_manager.load_api_keys keyed_world))) with
  | Ok keys => keys !! "OPENAI_API_KEY"
  | Raise _ => None
  end = Some "sk-file".
Proof. split; vm_compute; reflexivity. Qed.

(** GROQ_API_KEY is set in the environment, yet [load_api_keys] returns
    the value of the secrets file for it: the lookup of OPENAI_API_KEY,
    which is unset, has read the file; a lookup of GROQ_API_KEY alone
    returns the variable. *)
Example load_api_keys_file_over_variable :
  match fst (api_manager.load_api_keys groq_keyed_world) with
  | Ok keys => keys !! "GROQ_API_KEY"
  | Raise _ => None
  end = Some "gsk-file" /\
  fst (api_manager._get_secret "GROQ_API_KEY" "" groq_keyed_world)
  = Ok "gsk-env".
Proof. split; vm_compute; reflexivity. Qed.

(** X13: [delete_api_key key_name] never raises.  For one of the six
    keys it returns [True] and leaves in the session the freshly loaded
    dictionary with that key blanked and the other five as loaded; for
    any other name it returns [False] and the session holds the freshly
    loaded dictionary.  Beyond the session it changes what
    [load_api_keys] changes, so the deletion does not outlive the next
    [load_api_keys], which returns what it returns after a plain
    [load_api_keys]. *)
Theorem delete_api_key_blanks_session_copy (key_name : string) (w : World) :
  exists keys,
    api_manager.load_api_keys w
    = (Ok keys, with_cached_keys keys (world_at w credential_keys)) /\
    api_manager.delete_api_key key_name w
    = (if is_credential_key key_name
       then (Ok true,
             with_cached_keys (<[key_name := ""]> keys)
               (world_at w credential_keys))
       else (Ok false,
             with_cached_keys keys (world_at w credential_keys))) /\
    fst (api_manager.load_api_keys
           (snd (api_manager.delete_api_key key_name w)))
    = fst (api_manager.load_api_keys (snd (api_manager.load_api_keys w))).
Proof.
  destruct (load_api_keys_keys w) as (keys & E & L).
  exists keys. split; [exact E|].
  assert (Hd : api_manager.delete_api_key key_name w
               = (if is_credential_key key_name
                  then (Ok true,
                        with_cached_keys (<[key_name := ""]> keys)
                          (world_at w credential_keys))
                  else (Ok false,
                        with_cached_keys keys (world_at w credential_keys)))).
  { unfold api_manager.delete_api_key, try_except.
    rewrite bind_run, E. cbv beta iota. rewrite L.
    destruct (is_credential_key key_name); reflexivity. }
  split; [exact Hd|]. rewrite Hd, E.
  destruct (is_credential_key key_name); apply load_api_keys_frame;
    reflexivity.
Qed.

(** ** The catalogue of available models *)

Section fold_insert.

Context {X V : Type} (key : X -> string) (val : X -> V).

Lemma insert_all_other (l : list X) :
  forall (acc : gmap string V) (name : string),
    ~ In name (map key l) -> insert_all key val l acc !! name = acc !! name.
Proof.
  induction l as [|x l IH]; intros acc name Hnot; [reflexivity|].
  simpl in *. unfold insert_all in *. simpl. rewrite IH by tauto.
  apply lookup_insert_ne. tauto.
Qed.

Lemma insert_all_member (l : list X) :
  forall (acc : gmap string V) (x : X),
    NoDup (map key l) -> In x l -> insert_all key val l acc !! key x = Some (val x).
Proof.
  induction l as [|y l IH]; intros acc x Hnd Hin; [destruct Hin|].
  simpl in Hnd. apply NoDup_cons in Hnd as [Hy Hnd].
  unfold insert_all in *. simpl. destruct Hin as [<-|Hin].
  - fold (insert_all key val l (<[key y := val y]> acc)).
    rewrite insert_all_other.
    + apply lookup_insert_eq.
    + intros H. apply Hy. apply list_elem_of_In. exact H.
  - apply IH; assumption.
Qed.

End fold_insert.

Lemma custom_loop_rows (rows : list row) (keys : gmap string string) :
  forall (acc : gmap string model_dict) (v : World),
    api_manager.custom_loop (map api_database.row_to_dict rows) keys acc v
    = (Ok (insert_all r_name (custom_entry keys) rows acc), v).
Proof.
  induction rows as [|r rows IH]; intros acc v; [reflexivity|].
  simpl map. simpl api_manager.custom_loop. rewrite bind_run.
  assert (E : api_manager.custom_with_key keys (api_database.row_to_dict r) v
              = (Ok (r_name r, custom_entry keys r), v))
    by (destruct r; reflexivity).
  rewrite E. cbv beta iota. simpl fst. simpl snd. apply IH.
Qed.

Lemma builtin_loop_entries (items : list (string * model_dict))
    (keys : gmap string string) :
  (forall v,
     Forall (fun entry =>
               api_manager.builtin_with_key keys (snd entry) v
               = (Ok (builtin_entry keys (snd entry)), v)) items) ->
  forall (acc : gmap string model_dict) (v : World),
    api_manager.builtin_loop items keys acc v
    = (Ok (insert_all fst (fun entry => builtin_entry keys (snd entry))
                      items acc), v).
Proof.
  induction items as [|[name config] items IH]; intros Hall acc v;
    [reflexivity|].
  simpl api_manager.builtin_loop. rewrite bind_run.
  pose proof (Hall v) as Hv. apply Forall_cons_1 in Hv. destruct Hv as (E & _).
  simpl in E. rewrite E. cbv beta iota. apply IH.
  intros v'. specialize (Hall v'). apply Forall_cons_1 in Hall. apply Hall.
Qed.

Lemma model_choices_entries (OPENROUTER_API_KEY : string)
    (keys : gmap string string) (v : World) :
  Forall (fun entry =>
            api_manager.builtin_with_key keys (snd entry) v
            = (Ok (builtin_entry keys (snd entry)), v))
         (model_configs.MODEL_CHOICES OPENROUTER_API_KEY).
Proof. repeat constructor. Qed.

Lemma model_choices_names (OPENROUTER_API_KEY : string) :
  NoDup (map fst (model_configs.MODEL_CHOICES OPENROUTER_API_KEY)).
Proof.
  simpl. repeat (apply NoDup_cons_2;
                 [intros H; apply list_elem_of_In in H; simpl in H;
                  intuition discriminate
                 |]).
  apply NoDup_nil_2.
Qed.

Lemma load_custom_models_run (v : World) :
  faults v = [] ->
  exists v',
    api_manager.load_custom_models v = (Ok (listing (db v')), v') /\
    faults v' = [] /\
    ensure_tables (db v') = db v' /\
    ss_custom_models (session_state v') = Some (listing (db v')) /\
    ss_api_keys (session_state v') = ss_api_keys (session_state v) /\
    environ v' = environ v /\ secrets v' = secrets v /\
    (legacy_file v = None -> rows_of (db v') = rows_of (db v)) /\
    legacy_file v'
    = match legacy_file v with
      | Some (Records (_ :: _)) => None
      | other => other
      end.
Proof.
  intros Hf. unfold api_manager.load_custom_models,
    api_manager.db_get_all_custom_models.
  assert (Hm : exists v1,
             api_manager._migrate_json_to_sqlite v = (Ok tt, v1) /\
             faults v1 = [] /\ session_state v1 = session_state v /\
             environ v1 = environ v /\ secrets v1 = secrets v /\
             (legacy_file v = None -> v1 = v) /\
             legacy_file v1
             = match legacy_file v with
               | Some (Records (_ :: _)) => None
               | other => other
               end).
  { destruct (legacy_file v) as [[|[|r l]]|] eqn:Hl;
      try (exists v; rewrite migrate_json_to_sqlite_nothing by auto;
           repeat split; auto; fail).
    destruct (migrate_json_to_sqlite_renames v r l Hf Hl)
      as (v1 & E & S & He & Hs & _ & Hss & Hleg & _).
    exists v1. repeat split; try assumption; [apply S | discriminate]. }
  destruct Hm as (v1 & E1 & F1 & SS1 & He & Hs & Hsame & Hleg).
  rewrite bind_run, E1. cbv beta iota.
  rewrite bind_run, get_all_custom_models_nofault by exact F1.
  unfold bind, modify, ret. cbv beta iota.
  unfold listing. rewrite <- (rows_of_ensure_tables (db v1)).
  match goal with |- exists v', (_, ?x) = _ /\ _ => exists x end.
  split; [reflexivity|]. simpl.
  rewrite ensure_tables_idem, rows_of_ensure_tables.
  repeat split; try assumption; try congruence.
  intros Hl. rewrite (Hsame Hl). reflexivity.
Qed.

Lemma import_MODEL_CHOICES_run (w : World) :
  exists k w0,
    model_configs.import_MODEL_CHOICES w
    = (Ok (model_configs.MODEL_CHOICES k), w0) /\
    db w0 = db w /\ conn w0 = conn w /\ faults w0 = faults w /\
    legacy_file w0 = legacy_file w /\ secrets w0 = secrets w /\
    (forall k0, model_configs_key w = Some k0 -> w0 = w) /\
    (model_configs_key w = None ->
     environ w0 = environ (world_at w credential_keys) /\
     secrets_parsed w0 = secrets_parsed (world_at w credential_keys)).
Proof.
  unfold model_configs.import_MODEL_CHOICES. rewrite bind_run.
  unfold gets. cbv beta iota.
  destruct (model_configs_key w) as [k0|] eqn:Hk.
  - exists k0, w. unfold ret. repeat apply conj; try reflexivity.
    discriminate.
  - destruct (load_api_keys_keys w) as (keys & E & _).
    rewrite bind_run, E. cbv beta iota. unfold bind, modify, ret.
    cbv beta iota.
    destruct (world_at_frame w credential_keys)
      as (Hs & _ & Hd & Hc & Hf & _ & _ & Hl & _).
    do 2 eexists. split; [reflexivity|]. simpl.
    repeat apply conj; try assumption; try discriminate.
    intros _. split; reflexivity.
Qed.

(** X14: in a fault-free run with no legacy file pending and unique
    names in the store, [get_all_available_models] imports the built-in
    configurations, loads the keys and returns a catalogue in which every
    stored profile appears under its name with its own model, base URL
    and temperature and, as ["api_key"], the entry [<api_provider>_API_KEY]
    of the loaded keys (the empty string when they have none); a stored
    profile hides a built-in configuration of the same name; every other
    built-in configuration appears with ["api_key"] replaced by the
    loaded key that its rule selects; and no other name is in the
    catalogue.  The keys are those [load_api_keys] returns after the
    import.  When settings.model_configs was loaded before, the import
    changes nothing; when this call loads it, the module has called
    [load_api_keys] itself, so every key is answered in the environment
    that first call left. *)
Theorem available_models_catalogue (w : World) :
  faults w = [] ->
  legacy_file w = None ->
  NoDup (names_of (db w)) ->
  exists k w0 keys w1 catalogue w',
    model_configs.import_MODEL_CHOICES w
    = (Ok (model_configs.MODEL_CHOICES k), w0) /\
    api_manager.load_api_keys w0 = (Ok keys, w1) /\
    get_all_available_models w = (Ok catalogue, w') /\
    (forall r, In r (rows_of (db w)) ->
               catalogue !! r_name r = Some (custom_entry keys r)) /\
    (forall name config,
       In (name, config) (model_configs.MODEL_CHOICES k) ->
       has_name name (db w) = false ->
       catalogue !! name = Some (builtin_entry keys config)) /\
    (forall name,
       has_name name (db w) = false ->
       ~ In name (map fst (model_configs.MODEL_CHOICES k)) ->
       catalogue !! name = None) /\
    (forall k0, model_configs_key w = Some k0 -> w0 = w) /\
    (model_configs_key w = None ->
     environ w0 = environ (world_at w credential_keys) /\
     forall key,
       In key credential_keys ->
       keys !! key = Some (resolved (environ w0) (secrets w) key)).
Proof.
  intros Hf Hl Hnd.
  destruct (import_MODEL_CHOICES_run w)
    as (k & w0 & Ei & Hd0 & Hc0 & Hf0 & Hl0 & Hs0 & Hsame & Hfresh).
  destruct (load_api_keys_keys w0) as (keys & E & L).
  destruct (world_at_frame w0 credential_keys)
    as (_ & _ & Hd1 & _ & Hf1 & _ & _ & Hl1 & _).
  destruct (load_custom_models_run
              (with_cached_keys keys (world_at w0 credential_keys)))
    as (w' & E' & _ & _ & _ & _ & _ & _ & R & _).
  { change (faults (world_at w0 credential_keys) = []). congruence. }
  assert (R' : rows_of (db w') = rows_of (db w)).
  { rewrite R.
    - change (rows_of (db (world_at w0 credential_keys)) = rows_of (db w)).
      congruence.
    - change (legacy_file (world_at w0 credential_keys) = None). congruence. }
  assert (Hrun : get_all_available_models w
                 = (Ok (insert_all r_name (custom_entry keys)
                          (order_by_name (rows_of (db w)))
                          (insert_all fst
                             (fun entry => builtin_entry keys (snd entry))
                             (model_configs.MODEL_CHOICES k) ∅)), w')).
  { unfold get_all_available_models, api_manager.get_all_available_models.
    rewrite bind_run, Ei. cbv beta iota.
    rewrite bind_run, E. cbv beta iota.
    rewrite bind_run, builtin_loop_entries
      by (intros v; apply model_choices_entries).
    cbv beta iota.
    rewrite bind_run, E'. cbv beta iota.
    unfold listing. rewrite custom_loop_rows, R'. reflexivity. }
  pose proof (order_by_name_perm (rows_of (db w))) as Hperm.
  assert (Hnd' : NoDup (map r_name (order_by_name (rows_of (db w)))))
    by (rewrite Hperm; exact Hnd).
  assert (Hnot : forall name,
            has_name name (db w) = false ->
            ~ In name (map r_name (order_by_name (rows_of (db w))))).
  { intros name Hn Hin. apply has_name_false in Hn. apply Hn.
    unfold names_of. eapply Permutation_in; [|exact Hin].
    apply Permutation_map. exact Hperm. }
  exists k, w0, keys. do 3 eexists.
  split; [exact Ei|]. split; [exact E|]. split; [exact Hrun|].
  split; [|split; [|split; [|split]]].
  - intros r Hin. apply insert_all_member; [exact Hnd'|].
    eapply Permutation_in; [symmetry; exact Hperm | exact Hin].
  - intros name config Hin Hn.
    rewrite insert_all_other by (apply Hnot; exact Hn).
    apply (insert_all_member fst (fun entry => builtin_entry keys (snd entry))
             _ _ (name, config)); [apply model_choices_names | exact Hin].
  - intros name Hn Hb.
    rewrite insert_all_other by (apply Hnot; exact Hn).
    rewrite insert_all_other by exact Hb. apply lookup_empty.
  - exact Hsame.
  - intros Hk. destruct (Hfresh Hk) as (He & Hp). split; [exact He|].
    intros key Hin. rewrite L.
    rewrite (proj2 (is_credential_key_In key) Hin). f_equal.
    rewrite (loaded_key_stable w w0 key He Hs0 Hp), Hs0. reflexivity.
Qed.

(** In a fresh process the profile TeamGPT, of family OPENAI, gets the
    value of the secrets file although the variable is set: the import
    has read the file. *)
Lemma available_models_catalogue_witness :
  faults keyed_world = [] /\
  legacy_file keyed_world = None /\
  NoDup (names_of (db keyed_world)) /\
  exists k keys catalogue,
    fst (get_all_available_models keyed_world) = Ok catalogue /\
    catalogue !! "TeamGPT" = Some (custom_entry keys team_gpt_row) /\
    keys !! "OPENAI_API_KEY" = Some "sk-file" /\
    catalogue !! "Gemini-Pro"
    = Some (builtin_entry keys (model_configs.gemini_pro_config k)).
Proof.
  assert (Hnd : NoDup (names_of (db keyed_world))).
  { apply NoDup_cons_2; [intros H; inversion H | apply NoDup_nil_2]. }
  split; [reflexivity|]. split; [reflexivity|]. split; [exact Hnd|].
  destruct (available_models_catalogue keyed_world eq_refl eq_refl Hnd)
    as (k & w0 & keys & w1 & catalogue & w' & _ & _ & E & Hc & Hb & _ & _
        & Hfresh).
  destruct (Hfresh eq_refl) as (He & Hk).
  exists k, keys, catalogue. rewrite E. split; [reflexivity|].
  split; [apply (Hc team_gpt_row); left; reflexivity|].
  split.
  - rewrite (Hk "OPENAI_API_KEY") by (left; reflexivity).
    rewrite He. vm_compute. reflexivity.
  - apply Hb; [simpl; tauto | vm_compute; reflexivity].
Defined.

(** ** Start-up *)

(** X15: in a fault-free run [initialize_api_system] returns, and leaves
    the process ready: both tables exist, the session caches the key
    dictionary [load_api_keys] computes and the list of the rows of the
    store, a legacy file with records has been consumed, and without a
    legacy file the rows are those found. *)
Theorem initialize_api_system_prepares_session (w : World) :
  faults w = [] ->
  exists keys w',
    api_manager.initialize_api_system w = (Ok tt, w') /\
    fst (api_manager.load_api_keys w) = Ok keys /\
    ss_api_keys (session_state w') = Some keys /\
    ss_custom_models (session_state w') = Some (listing (db w')) /\
    ensure_tables (db w') = db w' /\
    (legacy_file w = None -> rows_of (db w') = rows_of (db w)) /\
    legacy_file w'
    = match legacy_file w with
      | Some (Records (_ :: _)) => None
      | other => other
      end.
Proof.
  intros Hf. unfold api_manager.initialize_api_system.
  destruct (init_database_settles w Hf)
    as (w0 & E0 & S0 & (_ & _ & _ & Hleg & _) & _ & R0 & _).
  pose proof (confined_init_database w) as Hc. rewrite E0 in Hc.
  destruct Hc as (He & Hs & _ & _ & _ & _ & Hp & _). simpl in He, Hs, Hp.
  destruct (load_api_keys_keys w0) as (keys & E & _).
  pose proof (load_api_keys_frame w w0 He Hs Hp) as Hsame.
  rewrite E in Hsame. simpl in Hsame.
  destruct (world_at_frame w0 credential_keys)
    as (_ & _ & Hd1 & _ & Hf1 & _ & _ & Hl1 & _).
  rewrite bind_run, E0. cbv beta iota.
  rewrite bind_run, E. cbv beta iota.
  destruct (load_custom_models_run
              (with_cached_keys keys (world_at w0 credential_keys)))
    as (w' & E' & _ & T & C & K & _ & _ & R & L).
  { change (faults (world_at w0 credential_keys) = []).
    rewrite Hf1. apply S0. }
  rewrite bind_run, E'. unfold ret.
  exists keys, w'. split; [reflexivity|]. split; [symmetry; exact Hsame|].
  split; [exact K|]. split; [exact C|]. split; [exact T|].
  change (legacy_file (with_cached_keys keys (world_at w0 credential_keys)))
    with (legacy_file (world_at w0 credential_keys)) in R, L.
  change (db (with_cached_keys keys (world_at w0 credential_keys)))
    with (db (world_at w0 credential_keys)) in R.
  rewrite Hl1, Hleg in R, L. rewrite Hd1 in R. split; [|exact L].
  intros Hl. rewrite (R Hl). exact R0.
Qed.

Lemma initialize_api_system_prepares_session_witness :
  faults legacy_world = [] /\
  exists keys w',
    api_manager.initialize_api_system legacy_world = (Ok tt, w') /\
    ss_api_keys (session_state w') = Some keys /\
    ss_custom_models (session_state w') = Some (listing (db w')) /\
    legacy_file w' = None.
Proof.
  split; [reflexivity|].
  destruct (initialize_api_system_prepares_session legacy_world eq_refl)
    as (keys & w' & E & _ & K & C & _ & _ & L).
  exists keys, w'. repeat split; assumption.
Defined.

(** ** The legacy migration under faults *)

Lemma confined_migrate_from_json (json_models : list model_dict) :
  confined (api_database.migrate_from_json json_models).
Proof.
  unfold api_database.migrate_from_json.
  apply confined_bind; [apply confined_init_database|]. intros _.
  apply confined_migrate_loop.
Qed.

Lemma migrate_from_json_grows (json_models : list model_dict) (w : World) :
  exists new,
    rows_of (db (snd (api_database.migrate_from_json json_models w)))
    = rows_of (db w) ++ new /\
    (forall n,
       fst (api_database.migrate_from_json json_models w) = Ok n ->
       n = length new).
Proof.
  unfold api_database.migrate_from_json. rewrite bind_run.
  destruct (init_database_outcome w) as (r0 & w1 & E0 & R0 & _ & _ & H0).
  rewrite E0.
  destruct H0 as [(-> & _) | (-> & _)].
  - destruct (migrate_loop_grows json_models 0 w1) as (new & R & N).
    exists new. rewrite R, R0. auto.
  - exists []. simpl. rewrite app_nil_r. split; [exact R0 | discriminate].
Qed.

(** X16: under every fault schedule [_migrate_json_to_sqlite] returns
    without raising, changes neither the environment, the secrets nor the
    session, and only appends rows to the store.  It renames the legacy
    file to the backup path exactly when the file held a non-empty list of
    records and [migrate_from_json] returned; in every other case, a
    fault during the migration included, both files are left as they
    are, so the migration is attempted again by the next call. *)
Theorem legacy_migration_never_raises (w : World) :
  exists w',
    api_manager._migrate_json_to_sqlite w = (Ok tt, w') /\
    environ w' = environ w /\ secrets w' = secrets w /\
    session_state w' = session_state w /\
    (exists new, rows_of (db w') = rows_of (db w) ++ new) /\
    match legacy_file w with
    | Some (Records (r :: l)) =>
        match fst (api_database.migrate_from_json (r :: l) w) with
        | Ok _ =>
            legacy_file w' = None /\
            backup_file w' = Some (Records (r :: l))
        | Raise _ =>
            legacy_file w' = legacy_file w /\ backup_file w' = backup_file w
        end
    | _ => legacy_file w' = legacy_file w /\ backup_file w' = backup_file w
    end.
Proof.
  destruct (legacy_file w) as [[|[|r l]]|] eqn:Hl;
    try (exists w; rewrite migrate_json_to_sqlite_nothing by auto;
         repeat split; auto; exists []; rewrite app_nil_r; reflexivity).
  pose proof (confined_migrate_from_json (r :: l) w)
    as (He & Hs & Hss & _ & Hleg & Hbak & _).
  destruct (migrate_from_json_grows (r :: l) w) as (new & R & _).
  unfold api_manager._migrate_json_to_sqlite, api_manager.json_load_legacy,
    api_manager.os_rename_legacy, gets, try_except.
  rewrite bind_run. cbv beta iota. rewrite Hl. cbv beta iota.
  rewrite bind_run. cbv beta iota. rewrite Hl. cbv beta iota.
  rewrite bind_run.
  destruct (api_database.migrate_from_json (r :: l) w) as [[n|e] w1];
    simpl in *.
  - rewrite Hleg, Hl. eexists. split; [reflexivity|]. simpl.
    repeat split; try assumption. exists new. exact R.
  - exists w1. unfold ret. repeat split; try assumption; try congruence.
    exists new. exact R.
Qed.

(** X9: under every fault schedule, and whether it returns or raises,
    [migrate_from_json] only appends: the rows the store held before the
    call are still there, unchanged and in front; when it returns, the
    count it returns is the number of rows it appended. *)
Theorem migrate_only_appends (json_models : list model_dict) (w : World) :
  exists new,
    rows_of (db (snd (api_database.migrate_from_json json_models w)))
    = rows_of (db w) ++ new /\
    (forall n,
       fst (api_database.migrate_from_json json_models w) = Ok n ->
       n = length new).
Proof. apply migrate_from_json_grows. Qed.

(** ** The connection *)

(** X17: whatever the body of a [with get_connection()] block does, and
    under every fault schedule, no connection is left open when the block
    is left, by return or by exception.  The one exception is a fault in
    [sqlite3.connect] itself: then [OperationalError] is raised, the body
    does not run, and nothing changes but the consumed fault. *)
Theorem get_connection_always_closes {A} (body : M A) (w : World) :
  conn (snd (api_database.get_connection body w)) = None \/
  (exists rest,
     faults w = true :: rest /\
     api_database.get_connection body w
     = (Raise OperationalError, set_faults rest (S (struck w)) w)).
Proof.
  unfold api_database.get_connection, sqlite3_connect, io_fault.
  rewrite !bind_run.
  destruct (faults w) as [|[] rest].
  - left. unfold modify, try_finally. cbv beta iota.
    destruct (try_except _ _ _) as [r w1]. reflexivity.
  - right. exists rest. split; reflexivity.
  - left. unfold modify, try_finally. cbv beta iota.
    destruct (try_except _ _ _) as [r w1]. reflexivity.
Qed.

(** ** Admin credentials *)

Lemma st_secrets_get_run (key default : string) (w : World) :
  api_manager.st_secrets_get key default w
  = match secrets w with
    | Some m => (Ok (dict_get (m !! key) default), parse_secrets w)
    | None => (Raise SecretsUnavailable, w)
    end.
Proof.
  unfold api_manager.st_secrets_get, api_manager.st_secrets_parse,
    parse_secrets, overlaid, bind, ret.
  destruct (secrets w); [destruct (secrets_parsed w)|]; reflexivity.
Qed.

Lemma environ_parse_secrets (w : World) (m : gmap string string)
    (key : string) :
  secrets w = Some m ->
  environ (parse_secrets w) !! key
  = match m !! key with
    | Some s => if secrets_parsed w then environ w !! key else Some s
    | None => environ w !! key
    end.
Proof.
  intros Hs. unfold parse_secrets, overlaid. rewrite Hs.
  destruct (secrets_parsed w); [destruct (m !! key); reflexivity|].
  simpl. destruct (m !! key) as [s|] eqn:Hm.
  - apply lookup_union_Some_l. exact Hm.
  - apply lookup_union_r. exact Hm.
Qed.

(** X18: [get_admin_credentials] never raises.  With a secrets file its
    entries win over the environment, which wins over the built-in
    defaults; without one the environment is used, then the defaults.
    Its only effect is that of using [st.secrets], whose first use writes
    the entries of the secrets file into the environment.  The order is
    the reverse of [_get_secret]: when both the secrets file and the
    environment define ADMIN_USERNAME (not empty), the login compares
    against the value of the file while [_get_secret] returns the value
    of the environment; but once the login has read the file in a process
    that had not used [st.secrets], [_get_secret] returns the value of
    the file too. *)
Theorem admin_credentials_prefer_secrets (w : World) :
  exists username password,
    admin_auth.get_admin_credentials w
    = (Ok (username, password), parse_secrets w) /\
    (forall m,
       secrets w = Some m ->
       username = dict_get (m !! "ADMIN_USERNAME")
                    (dict_get (environ w !! "ADMIN_USERNAME") "admin") /\
       password = dict_get (m !! "ADMIN_PASSWORD")
                    (dict_get (environ w !! "ADMIN_PASSWORD") "Tertiary@888")) /\
    (secrets w = None ->
     username = dict_get (environ w !! "ADMIN_USERNAME") "admin" /\
     password = dict_get (environ w !! "ADMIN_PASSWORD") "Tertiary@888") /\
    (forall m s e a rest,
       secrets w = Some m ->
       m !! "ADMIN_USERNAME" = Some s ->
       environ w !! "ADMIN_USERNAME" = Some e ->
       e = String a rest ->
       username = s /\
       api_manager._get_secret "ADMIN_USERNAME" "" w = (Ok e, w) /\
       (secrets_parsed w = false -> s <> "" ->
        fst (api_manager._get_secret "ADMIN_USERNAME" "" (parse_secrets w))
        = Ok s)).
Proof.
  unfold admin_auth.get_admin_credentials, admin_auth.os_environ_get,
    try_except, gets.
  rewrite bind_run. cbv beta iota.
  rewrite bind_run, st_secrets_get_run.
  destruct (secrets w) as [m|] eqn:Hs; cbv beta iota.
  - rewrite bind_run. cbv beta iota.
    rewrite bind_run, st_secrets_get_run, secrets_parse_secrets, Hs.
    cbv beta iota. unfold ret. rewrite parse_secrets_idem.
    do 2 eexists. split; [reflexivity|].
    split; [|split; [discriminate|]].
    + intros m' [= <-]. split; [reflexivity|].
      rewrite (environ_parse_secrets w m "ADMIN_PASSWORD" Hs).
      destruct (m !! "ADMIN_PASSWORD"); reflexivity.
    + intros m' s e a rest [= <-] Hm He ->. rewrite Hm.
      split; [reflexivity|]. rewrite !get_secret_run.
      unfold resolved, unset. rewrite He. split; [reflexivity|].
      intros Hp Hne.
      rewrite (environ_parse_secrets w m "ADMIN_USERNAME" Hs), Hm, Hp.
      simpl. destruct s; [contradiction | reflexivity].
  - unfold bind, ret. cbv beta iota.
    assert (Hp : parse_secrets w = w)
      by (unfold parse_secrets; rewrite Hs; reflexivity).
    rewrite Hp.
    do 2 eexists. split; [reflexivity|].
    split; [discriminate|]. split; [intros _; split; reflexivity|].
    discriminate.
Qed.

(** ** The store does not look at the session *)

Lemma blind_ret {A} (a : A) : session_blind (ret a).
Proof. intros s w. reflexivity. Qed.

Lemma blind_raise {A} (e : exn) : session_blind (@raise A e).
Proof. intros s w. reflexivity. Qed.

Lemma blind_bind {A B} (m : M A) (k : A -> M B) :
  session_blind m -> (forall a, session_blind (k a)) ->
  session_blind (bind m k).
Proof.
  intros Hm Hk s w. unfold bind. rewrite Hm.
  destruct (m w) as [[a|e] w1]; simpl; [apply Hk | reflexivity].
Qed.

Lemma blind_try_except {A} (m : M A) (h : exn -> M A) :
  session_blind m -> (forall e, session_blind (h e)) ->
  session_blind (try_except m h).
Proof.
  intros Hm Hh s w. unfold try_except. rewrite Hm.
  destruct (m w) as [[a|e] w1]; simpl; [reflexivity | apply Hh].
Qed.

Lemma blind_try_finally {A} (m : M A) (f : M unit) :
  session_blind m -> session_blind f -> session_blind (try_finally m f).
Proof.
  intros Hm Hf s w. unfold try_finally. rewrite Hm.
  destruct (m w) as [r w1]; simpl. rewrite Hf.
  destruct (f w1) as [[u|e] w2]; reflexivity.
Qed.

Lemma blind_io_fault : session_blind io_fault.
Proof.
  intros s w. unfold io_fault. simpl.
  destruct (faults w) as [|[] rest]; reflexivity.
Qed.

Lemma blind_cursor_execute {R} (stmt : statement R) :
  session_blind (cursor_execute stmt).
Proof.
  apply blind_bind; [apply blind_io_fault|]. intros _ s w. simpl.
  destruct (conn w) as [c|]; [|reflexivity].
  destruct (stmt (now w) c) as [[r c']|e]; reflexivity.
Qed.

Lemma blind_conn_commit : session_blind conn_commit.
Proof.
  apply blind_bind; [apply blind_io_fault|]. intros _ s w. simpl.
  destruct (conn w); reflexivity.
Qed.

Lemma blind_get_connection {A} (body : M A) :
  session_blind body -> session_blind (api_database.get_connection body).
Proof.
  intros Hb. unfold api_database.get_connection.
  apply blind_bind.
  { apply blind_bind; [apply blind_io_fault|]. intros _ s w. reflexivity. }
  intros _. apply blind_try_finally.
  - apply blind_try_except.
    + apply blind_bind; [exact Hb|]. intros a.
      apply blind_bind; [apply blind_conn_commit|]. intros _.
      apply blind_ret.
    + intros e. apply blind_bind; [|intros _; apply blind_raise].
      intros s w. unfold conn_rollback, modify. simpl.
      destruct (conn w); reflexivity.
  - intros s w. reflexivity.
Qed.

Lemma blind_init_database : session_blind api_database.init_database.
Proof.
  apply blind_get_connection.
  apply blind_bind; [apply blind_cursor_execute|]. intros _.
  apply blind_bind; [apply blind_cursor_execute|]. intros _.
  apply blind_conn_commit.
Qed.

Ltac blind_step :=
  first [ apply blind_ret | apply blind_raise
        | apply blind_init_database | apply blind_cursor_execute
        | apply blind_conn_commit
        | apply blind_get_connection
        | apply blind_try_except
        | apply blind_bind ].

Lemma blind_add_custom_model name model_id provider base_url temperature
    api_provider :
  session_blind (api_database.add_custom_model name model_id provider
                   base_url temperature api_provider).
Proof.
  unfold api_database.add_custom_model.
  repeat (blind_step; intros). destruct e; apply blind_ret.
Qed.

Lemma blind_migrate_from_json (json_models : list model_dict) :
  session_blind (api_database.migrate_from_json json_models).
Proof.
  unfold api_database.migrate_from_json.
  apply blind_bind; [apply blind_init_database|]. intros _.
  generalize 0. induction json_models as [|m rest IH]; intros migrated; simpl.
  - apply blind_ret.
  - destruct (py_not (dict_get (d_name m) "")
              || py_not_opt (c_model (dict_get (d_config m) empty_config)));
      [apply IH|].
    apply blind_bind; [apply blind_add_custom_model|].
    intros success. apply IH.
Qed.

Lemma blind_get_all_custom_models :
  session_blind api_database.get_all_custom_models.
Proof.
  unfold api_database.get_all_custom_models. repeat (blind_step; intros).
Qed.

Lemma blind_delete_custom_model (name : string) :
  session_blind (api_database.delete_custom_model name).
Proof.
  unfold api_database.delete_custom_model. repeat (blind_step; intros).
Qed.

Lemma blind_model_exists (name : string) :
  session_blind (api_database.model_exists name).
Proof.
  unfold api_database.model_exists. repeat (blind_step; intros).
Qed.

(** X19: under every fault schedule the outcome of a store function
    (what it returns or raises, and what it does to the database) is the
    same whatever the session holds (cached keys, cached profile list),
    and the session is left as it is: no store function reads a cache. *)
Theorem store_ignores_the_session :
  session_blind api_database.init_database /\
  session_blind api_database.get_all_custom_models /\
  (forall name, session_blind (api_database.get_custom_model_by_name name)) /\
  (forall name model_id provider base_url temperature api_provider,
     session_blind (api_database.add_custom_model name model_id provider
                      base_url temperature api_provider)) /\
  (forall name model_id provider base_url temperature api_provider,
     session_blind (api_database.update_custom_model name model_id provider
                      base_url temperature api_provider)) /\
  (forall name, session_blind (api_database.delete_custom_model name)) /\
  (forall name, session_blind (api_database.model_exists name)) /\
  (forall json_models,
     session_blind (api_database.migrate_from_json json_models)).
Proof.
  repeat apply conj; intros.
  - apply blind_init_database.
  - apply blind_get_all_custom_models.
  - unfold api_database.get_custom_model_by_name.
    repeat (blind_step; intros); try (destruct a0; apply blind_ret).
  - apply blind_add_custom_model.
  - rewrite update_custom_model_eq.
    blind_step; [blind_step|]. intros _.
    blind_step; [|intros; apply blind_ret].
    blind_step.
    destruct (updates_of model_id provider base_url temperature api_provider);
      repeat (blind_step; intros).
  - apply blind_delete_custom_model.
  - apply blind_model_exists.
  - apply blind_migrate_from_json.
Qed.

Lemma blind_migrate_json_to_sqlite :
  session_blind api_manager._migrate_json_to_sqlite.
Proof.
  unfold api_manager._migrate_json_to_sqlite.
  apply blind_bind; [intros s w; reflexivity|]. intros [|]; [|apply blind_ret].
  apply blind_try_except; [|intros; apply blind_ret].
  apply blind_bind.
  { intros s w. unfold api_manager.json_load_legacy. simpl.
    destruct (legacy_file w) as [[|l]|]; reflexivity. }
  intros [|r l]; [apply blind_ret|].
  apply blind_bind; [apply blind_migrate_from_json|]. intros _.
  intros s w. unfold api_manager.os_rename_legacy. simpl.
  destruct (legacy_file w); reflexivity.
Qed.

Lemma blind_keeps_session {A} (m : M A) (w : World) :
  session_blind m -> session_state (snd (m w)) = session_state w.
Proof.
  intros Hm. specialize (Hm (session_state w) w).
  assert (Hw : set_session (session_state w) w = w) by (destruct w; reflexivity).
  rewrite Hw in Hm. rewrite Hm at 1. reflexivity.
Qed.

(** X20: [save_custom_models] returns [True] and only replaces the
    cached list in the session; it writes nothing to the store.  Under
    every fault schedule the next [load_custom_models] returns or raises
    exactly as if nothing had been saved and does the same to the store;
    when it returns, it has overwritten the saved list with the rows of
    the store and the process is in the same state as without the
    save. *)
Theorem save_custom_models_is_not_persisted (models : list model_dict)
    (w : World) :
  fst (api_manager.save_custom_models models w) = Ok true /\
  db (snd (api_manager.save_custom_models models w)) = db w /\
  ss_custom_models
    (session_state (snd (api_manager.save_custom_models models w)))
  = Some models /\
  fst (api_manager.load_custom_models
         (snd (api_manager.save_custom_models models w)))
  = fst (api_manager.load_custom_models w) /\
  db (snd (api_manager.load_custom_models
             (snd (api_manager.save_custom_models models w))))
  = db (snd (api_manager.load_custom_models w)) /\
  (forall l,
     fst (api_manager.load_custom_models w) = Ok l ->
     api_manager.load_custom_models
       (snd (api_manager.save_custom_models models w))
     = api_manager.load_custom_models w).
Proof.
  split; [reflexivity|]. split; [reflexivity|]. split; [reflexivity|].
  assert (Hb : session_blind
                 (run api_manager._migrate_json_to_sqlite in
                  api_database.get_all_custom_models)).
  { apply blind_bind; [apply blind_migrate_json_to_sqlite|]. intros _.
    apply blind_get_all_custom_models. }
  set (m := run api_manager._migrate_json_to_sqlite in
            api_database.get_all_custom_models) in *.
  assert (Hload : forall v,
            api_manager.load_custom_models v
            = match m v with
              | (Ok l, v') =>
                  (Ok l, set_session
                           {| ss_api_keys := ss_api_keys (session_state v');
                              ss_custom_models := Some l |} v')
              | (Raise e, v') => (Raise e, v')
              end).
  { intros v. subst m.
    unfold api_manager.load_custom_models,
      api_manager.db_get_all_custom_models, bind, modify, ret.
    destruct (api_manager._migrate_json_to_sqlite v) as [[u|e] v1];
      [|reflexivity].
    destruct (api_database.get_all_custom_models v1) as [[l|e] v2];
      reflexivity. }
  pose proof (blind_keeps_session m w Hb) as Hss.
  assert (Hsaved : snd (api_manager.save_custom_models models w)
                   = set_session
                       {| ss_api_keys := ss_api_keys (session_state w);
                          ss_custom_models := Some models |} w)
    by reflexivity.
  rewrite Hsaved.
  pose proof (Hload w) as E0.
  pose proof (Hload (set_session
                       {| ss_api_keys := ss_api_keys (session_state w);
                          ss_custom_models := Some models |} w)) as E1.
  rewrite Hb in E1.
  destruct (m w) as [[l|e] w1]; simpl in Hss, E1; rewrite E0, E1.
  - split; [reflexivity|]. split; [reflexivity|].
    intros l0 _. simpl. rewrite Hss. reflexivity.
  - split; [reflexivity|]. split; [reflexivity|].
    intros l. discriminate.
Qed.

Lemma drop_after (m : M bool) (w : World) :
  session_blind m ->
  let r := (let* success := m in
            run (if success : bool then api_manager.del_cached_custom_models
                 else ret tt) in
            ret success) w in
  fst r = fst (m w) /\
  db (snd r) = db (snd (m w)) /\
  ss_api_keys (session_state (snd r)) = ss_api_keys (session_state w) /\
  (fst r = Ok true -> ss_custom_models (session_state (snd r)) = None) /\
  (fst r <> Ok true -> session_state (snd r) = session_state w).
Proof.
  intros Hm. pose proof (blind_keeps_session m w Hm) as Hss.
  cbv zeta. unfold bind. destruct (m w) as [[[|]|e] w1]; simpl in Hss |- *.
  - destruct (ss_custom_models (session_state w1)) eqn:Ec; simpl;
      rewrite <- Hss; repeat apply conj; auto; intros H; now elim H.
  - unfold ret. simpl. repeat apply conj; auto; intros; congruence.
  - repeat apply conj; auto; intros; congruence.
Qed.

(** X21: under every fault schedule, [add_custom_model] and
    [remove_custom_model] of the manager never touch the cached API
    keys, drop the cached model list when they return [True], and leave
    the whole session as it was whenever they return [False] or raise. *)
Theorem cache_dropped_exactly_on_success (name provider model_id base_url :
    string) (temperature : Q) (api_provider custom_api_key : string)
    (w : World) :
  let added := api_manager.add_custom_model name provider model_id base_url
                 temperature api_provider custom_api_key w in
  let removed := api_manager.remove_custom_model name w in
  (ss_api_keys (session_state (snd added)) = ss_api_keys (session_state w) /\
   (fst added = Ok true ->
    ss_custom_models (session_state (snd added)) = None) /\
   (fst added <> Ok true -> session_state (snd added) = session_state w)) /\
  (ss_api_keys (session_state (snd removed)) = ss_api_keys (session_state w) /\
   (fst removed = Ok true ->
    ss_custom_models (session_state (snd removed)) = None) /\
   (fst removed <> Ok true ->
    session_state (snd removed) = session_state w)).
Proof.
  intros added removed. split.
  - subst added. unfold api_manager.add_custom_model.
    pose proof (blind_keeps_session (api_manager.db_model_exists name) w
                  (blind_model_exists name)) as Hss.
    rewrite !bind_run.
    destruct (api_manager.db_model_exists name w) as [[[|]|e] w1];
      simpl in Hss.
    + unfold ret. simpl. rewrite Hss.
      repeat apply conj; auto; intros; congruence.
    + destruct (drop_after
                  (api_manager.db_add_custom_model name model_id provider
                     (if py_not base_url then "https://openrouter.ai/api/v1"
                      else base_url)
                     temperature
                     (if py_not api_provider then "OPENROUTER"
                      else api_provider)) w1
                  (blind_add_custom_model _ _ _ _ _ _))
        as (_ & _ & Hk & Hc & Hn).
      rewrite <- Hss. repeat apply conj; assumption.
    + simpl. rewrite Hss. repeat apply conj; auto; intros; congruence.
  - subst removed. unfold api_manager.remove_custom_model.
    destruct (drop_after (api_manager.db_delete_custom_model name) w
                (blind_delete_custom_model name))
      as (_ & _ & Hk & Hc & Hn).
    repeat apply conj; assumption.
Qed.
